(** * chat-ui: generation orchestration, stream encoder and message tree

    A shallow embedding of the text-generation core of chat-ui:
    - [generate]                (src/lib/server/textGeneration/generate.ts)
    - the MCP tool path of the second [generate]  (textGeneration/generate.ts
      with MCP support),
    - the inline [/mcp] hook of [endpointOai],
    - [textGeneration] and its heartbeat,
    - the [update] encoder and the turn of the conversation route,
    - the delete-message handler and the DELETE route of a message,
    - [openAIChatToTextGenerationStream], the adapter of the OpenAI
      completion stream,
    - the skills behind [textGenerationWithoutTitle]: the registry, the
      detection of the skills to activate and the enhanced preprompt.

    JavaScript strings are modelled as [string]: one character per UTF-16
    code unit, indices counted in characters.  Numbers that the code only
    uses as integers (indices, millisecond timestamps) are [Z], with [-1]
    as the "not found" value of [indexOf] exactly as in the source.
    Asynchronous collaborators (the provider stream, the clock, the abort
    registry, auxiliary model calls, the tool server) are explicit inputs.
    A plain object that the code uses as a map is a finite map; an id
    that serves as a key of such an object (the id of a tool call, of a
    skill, of a conversation) is a [JS.Key], a string that names no
    member an object inherits from [Object.prototype]. *)

From Stdlib Require Import ZArith Lia List Bool Ascii String.
From Stdlib Require Import Numbers.DecimalString.
From stdpp Require Import base option list strings gmap.

Import ListNotations.
Local Open Scope Z_scope.
Set Warnings "-register-all".

(* ===================================================================== *)
(** ** JavaScript string primitives used by the code *)
(* ===================================================================== *)

Module JS.

(** [s.length] *)
Definition len (s : string) : Z := Z.of_nat (String.length s).

(** Drop the first [n] characters. *)
Fixpoint sdrop (n : nat) (s : string) : string :=
  match n, s with
  | O, _ => s
  | S n', String _ s' => sdrop n' s'
  | S _, EmptyString => EmptyString
  end.

(** Keep the first [n] characters. *)
Fixpoint stake (n : nat) (s : string) : string :=
  match n, s with
  | O, _ => EmptyString
  | S n', String c s' => String c (stake n' s')
  | S _, EmptyString => EmptyString
  end.

(** Relative index resolution of [String.prototype.slice]. *)
Definition clamp (l i : Z) : Z :=
  if i <? 0 then Z.max (l + i) 0 else Z.min i l.

(** [s.slice(start, end)] *)
Definition slice (s : string) (start end_ : Z) : string :=
  let l := len s in
  let from := clamp l start in
  let to := clamp l end_ in
  stake (Z.to_nat (Z.max (to - from) 0)) (sdrop (Z.to_nat from) s).

(** [s.slice(start)] *)
Definition slice_from (s : string) (start : Z) : string :=
  slice s start (len s).

(** [s.startsWith(p)] *)
Definition startsWith (s p : string) : bool := String.prefix p s.

(** [s.indexOf(p)], searching from position [i] of the original string. *)
Fixpoint indexOf_from (s p : string) (i : Z) : Z :=
  if startsWith s p then i
  else match s with
       | EmptyString => -1
       | String _ s' => indexOf_from s' p (i + 1)
       end.

Definition indexOf (s p : string) : Z := indexOf_from s p 0.

(** [s.lastIndexOf(p)] *)
Fixpoint lastIndexOf_from (s p : string) (i : Z) : Z :=
  match s with
  | EmptyString => if startsWith s p then i else -1
  | String _ s' =>
      let r := lastIndexOf_from s' p (i + 1) in
      if r =? -1 then (if startsWith s p then i else -1) else r
  end.

Definition lastIndexOf (s p : string) : Z := lastIndexOf_from s p 0.

(** [s.endsWith(p)] *)
Definition endsWith (s p : string) : bool :=
  let ls := String.length s in
  let lp := String.length p in
  (lp <=? ls)%nat && String.eqb (sdrop (ls - lp) s) p.

(** White space and line terminators of ECMAScript that fit in one
    8-bit code unit: TAB, LF, VT, FF, CR, SP and NBSP. *)
Definition is_space (c : ascii) : bool :=
  let n := nat_of_ascii c in
  ((9 <=? n) && (n <=? 13) || (n =? 32) || (n =? 160))%nat.

(** [s.trimEnd()] *)
Fixpoint trimEnd (s : string) : string :=
  match s with
  | EmptyString => EmptyString
  | String c s' =>
      match trimEnd s' with
      | EmptyString => if is_space c then EmptyString else String c EmptyString
      | t => String c t
      end
  end.

(** [s.trimStart()] *)
Fixpoint trimStart (s : string) : string :=
  match s with
  | EmptyString => EmptyString
  | String c s' => if is_space c then trimStart s' else s
  end.

(** [s.trim()] *)
Definition trim (s : string) : string := trimEnd (trimStart s).

(** [c.repeat(n)] for a one-character string. *)
Fixpoint repeat_char (c : ascii) (n : nat) : string :=
  match n with
  | O => EmptyString
  | S n' => String c (repeat_char c n')
  end.

(** [s.padEnd(n, c)] for a one-character filler. *)
Definition padEnd (s : string) (n : nat) (c : ascii) : string :=
  s +:+ repeat_char c (n - String.length s).

(** [arr.includes(s)] on an array of strings. *)
Definition includes (l : list string) (s : string) : bool :=
  existsb (String.eqb s) l.

(** Template-literal rendering of an integer. *)
Definition Z_to_string (x : Z) : string :=
  NilEmpty.string_of_int (Z.to_int x).

(** [Math.round(ms / 1000)]: nearest integer, ties towards +infinity. *)
Definition round_seconds (ms : Z) : Z := (ms + 500) / 1000.

(** ASCII lower-casing, as used by the [i] flag on ASCII patterns. *)
Definition lower (c : ascii) : ascii :=
  let n := nat_of_ascii c in
  if ((65 <=? n) && (n <=? 90))%nat then ascii_of_nat (n + 32) else c.

Fixpoint lower_string (s : string) : string :=
  match s with
  | EmptyString => EmptyString
  | String c s' => String (lower c) (lower_string s')
  end.

(** Case-insensitive [startsWith] for a lower-case ASCII pattern. *)
Fixpoint istartsWith (s p : string) : bool :=
  match p, s with
  | EmptyString, _ => true
  | String a p', String c s' => Ascii.eqb (lower c) a && istartsWith s' p'
  | String _ _, EmptyString => false
  end.

(** The longest prefix whose characters satisfy [p], and the rest. *)
Fixpoint span (p : ascii -> bool) (s : string) : string * string :=
  match s with
  | EmptyString => (EmptyString, EmptyString)
  | String c s' =>
      if p c then let '(a, b) := span p s' in (String c a, b)
      else (EmptyString, s)
  end.

Definition is_digit (c : ascii) : bool :=
  let n := nat_of_ascii c in ((48 <=? n) && (n <=? 57))%nat.

Definition is_letter (c : ascii) : bool :=
  let n := nat_of_ascii c in
  ((65 <=? n) && (n <=? 90) || (97 <=? n) && (n <=? 122))%nat.

(** A plain object that the code uses as a map inherits the members of
    [Object.prototype]: a lookup under one of their names finds that
    member, not an entry of the map, and an assignment to [__proto__]
    stores nothing.  Under every other key, and in a process that has
    added nothing to [Object.prototype], the object behaves as a map. *)
Definition inherited_members : list string :=
  ["constructor"; "__defineGetter__"; "__defineSetter__"; "hasOwnProperty";
   "__lookupGetter__"; "__lookupSetter__"; "isPrototypeOf";
   "propertyIsEnumerable"; "toString"; "valueOf"; "__proto__";
   "toLocaleString"].

(** The string names no member that every object inherits. *)
Definition own_key (s : string) : bool := negb (includes inherited_members s).

(** A key of a plain object used as a map: a string that names no
    inherited member. *)
Record Key : Type := mkKey {
  key : string;
  key_own : own_key key = true
}.

End JS.

(* ===================================================================== *)
(** ** MessageUpdate (src/lib/types/MessageUpdate.ts) *)
(* ===================================================================== *)

Inductive MessageUpdateStatus : Type :=
| Started | Error | Finished | KeepAlive.

(** JSON values as produced by [JSON.parse].  A number keeps its lexeme:
    the code never computes with parsed numbers. *)
Inductive Json : Type :=
| JNull
| JBool (b : bool)
| JNum (lexeme : string)
| JStr (s : string)
| JArr (items : list Json)
| JObj (fields : list (string * Json)).

Record ToolCall : Type := mkToolCall {
  call_name : string;
  call_parameters : list (string * Json);
  call_toolId : option string
}.

Record ToolResult : Type := mkToolResult {
  result_status : string;
  result_call : ToolCall;
  result_outputs : list string;
  result_display : bool
}.

Inductive MessageUpdate : Type :=
| Status (status : MessageUpdateStatus) (message : option string)
| Title (title : string)
| ToolCallUpdate (uuid : string) (call : ToolCall)
| ToolResultUpdate (uuid : string) (result : ToolResult)
| ToolErrorUpdate (uuid : string) (message : string)
| ToolETAUpdate (uuid : string) (eta : Z)
| Stream (token : string)
| File (name sha mime : string)
| FinalAnswer (text : string) (interrupted : bool)
| ReasoningStream (token : string)
| ReasoningStatus (status : string)
| RouterMetadata (route model : string).

Definition is_Stream (e : MessageUpdate) : bool :=
  match e with Stream _ => true | _ => false end.

Definition is_FinalAnswer (e : MessageUpdate) : bool :=
  match e with FinalAnswer _ _ => true | _ => false end.

Definition is_ReasoningStream (e : MessageUpdate) : bool :=
  match e with ReasoningStream _ => true | _ => false end.

Definition is_Status (e : MessageUpdate) : bool :=
  match e with Status _ _ => true | _ => false end.

Definition is_Started (e : MessageUpdate) : bool :=
  match e with Status Started _ => true | _ => false end.


Definition is_Tool (e : MessageUpdate) : bool :=
  match e with
  | ToolCallUpdate _ _ | ToolResultUpdate _ _
  | ToolErrorUpdate _ _ | ToolETAUpdate _ _ => true
  | _ => false
  end.

(** No event of the stream is a [Status] event. *)
Definition no_status (evs : list MessageUpdate) : Prop :=
  Forall (fun e => is_Status e = false) evs.

(** No event of the stream is [Status started]. *)
Definition not_started (evs : list MessageUpdate) : Prop :=
  Forall (fun e => is_Started e = false) evs.

(** The tokens of the [Reasoning.Stream] events of a stream, in order. *)
Definition reasoning_tokens (evs : list MessageUpdate) : list string :=
  flat_map (fun e => match e with ReasoningStream t => [t] | _ => [] end) evs.

(** The tokens of the [Stream] events of a stream, in order. *)
Definition stream_tokens (evs : list MessageUpdate) : list string :=
  flat_map (fun e => match e with Stream t => [t] | _ => [] end) evs.

(** The [FinalAnswer] events of a stream, in order. *)
Definition final_answers (evs : list MessageUpdate) : list (string * bool) :=
  flat_map (fun e => match e with FinalAnswer t i => [(t, i)] | _ => [] end) evs.


(* ===================================================================== *)
(** ** generate (src/lib/server/textGeneration/generate.ts) *)
(* ===================================================================== *)

Module Generate.

(** [model.reasoning] *)
Inductive Reasoning : Type :=
| Tokens (beginToken endToken : string)
| Regex (regex : string)
| Summarize.

(** The fields of [ProcessedModel] that [generate] reads. *)
Record Model : Type := mkModel {
  model_id : string;
  model_reasoning : option Reasoning;
  model_stop : option (list string);      (* model.parameters.stop *)
  model_multimodal : bool
}.

(** One [TextGenerationStreamOutput], with the side channels that
    [openAIChatToTextGenerationStream] attaches to it.  The id of a tool
    call is the key of its buffer in [toolArgBuffers], a plain object
    (lines 38 and 83): the model covers the ids that name no inherited
    member. *)
Record ToolCallDelta : Type := mkToolCallDelta {
  d_index : Z;
  d_id : option JS.Key;
  d_name : option string;
  d_argumentsChunk : option string
}.

Record ToolResultDelta : Type := mkToolResultDelta {
  r_id : option string;
  r_name : option string;
  r_contentChunk : option string
}.

Record Output : Type := mkOutput {
  token_text : string;
  token_special : bool;
  generated_text : option string;          (* [None] is [null] *)
  reasoningDelta : option string;
  toolCallDeltas : option (list ToolCallDelta);
  toolResultDelta : option ToolResultDelta
}.

(** An ordinary token of the provider stream. *)
Definition tok (t : string) : Output :=
  mkOutput t false None None None None.

(** A special (control) token. *)
Definition special_tok (t : string) : Output :=
  mkOutput t true None None None None.

(** The closing output of a stream: its last token together with the
    complete generated text. *)
Definition final (t : string) (special : bool) (full : string) : Output :=
  mkOutput t special (Some full) None None None.

(** What the async iterable returned by the endpoint delivers: the
    outputs in order and, possibly, an error thrown after them. *)
Record ProviderStream : Type := mkStream {
  outputs : list Output;
  stream_error : option string
}.

Record EndpointMessage : Type := mkMessage {
  msg_from : string;
  msg_content : string
}.

Record EndpointArgs : Type := mkArgs {
  arg_messages : list EndpointMessage;
  arg_preprompt : option string;
  arg_continueMessage : bool;
  arg_isMultimodal : bool
}.

Definition Endpoint : Type := EndpointArgs -> ProviderStream.

(** Result of [new RegExp(p).exec(s)], as far as [generate] looks at it. *)
Inductive RegExpResult : Type :=
| InvalidPattern (msg : string)            (* the constructor throws *)
| NoMatch                                  (* [exec] returns [null] *)
| Match (group1 : option string).          (* [m[1]], maybe undefined *)

(** The surroundings of one call of [generate]. *)
Record Env : Type := mkEnv {
  (** [new Date()] when the generator starts *)
  startTime : Z;
  (** the clock, in ms, while the [i]-th provider output is processed *)
  now : nat -> Z;
  (** [AbortedGenerations.getInstance().getAbortTime(conv._id)] at the
      poll that follows the [i]-th output *)
  getAbortTime : nat -> option Z;
  (** [summaryArrival r i = Some s]: the promise of
      [generateSummaryOfReasoning] started while output [r] was processed
      resolves with [s] while the loop waits for output [i] *)
  summaryArrival : nat -> nat -> option string;
  (** [generateFromDefaultEndpoint] on a single user message: the events
      it yields, and the text it returns or the message of the error it
      throws *)
  generateFromDefaultEndpoint :
    string -> list MessageUpdate * (string + string);
  (** [new RegExp(pattern).exec(subject)] *)
  regexp_exec : string -> string -> RegExpResult;
  (** [JSON.parse]: the value, or the message of the SyntaxError *)
  JSON_parse : string -> Json + string;
  (** [config.REASONING_SUMMARY] *)
  REASONING_SUMMARY : string
}.

Record GenerateContext : Type := mkContext {
  model : Model;
  endpoint : Endpoint;
  messages : list EndpointMessage;
  isContinue : bool;
  promptedAt : Z;
  forceMultimodal : option bool
}.

(** Entry of [toolArgBuffers]. *)
Record ToolArgBuffer : Type := mkBuf {
  buf_name : option string;
  buf_args : string;
  buf_parsedPublished : bool;
  buf_callPublished : bool
}.

(** The local variables of the generator. *)
Record Locals : Type := mkLocals {
  reasoning : bool;
  reasoningBuffer : string;
  lastReasoningUpdate : Z;
  status : string;
  toolArgBuffers : gmap string ToolArgBuffer;
  (** summaries requested and not yet delivered, by requesting step *)
  pendingSummaries : list nat
}.

Definition set_reasoning (b : bool) (l : Locals) : Locals :=
  mkLocals b (reasoningBuffer l) (lastReasoningUpdate l) (status l)
           (toolArgBuffers l) (pendingSummaries l).

Definition set_reasoningBuffer (s : string) (l : Locals) : Locals :=
  mkLocals (reasoning l) s (lastReasoningUpdate l) (status l)
           (toolArgBuffers l) (pendingSummaries l).

Definition set_status (s : string) (l : Locals) : Locals :=
  mkLocals (reasoning l) (reasoningBuffer l) (lastReasoningUpdate l) s
           (toolArgBuffers l) (pendingSummaries l).

Definition set_toolArgBuffers (m : gmap string ToolArgBuffer) (l : Locals)
  : Locals :=
  mkLocals (reasoning l) (reasoningBuffer l) (lastReasoningUpdate l)
           (status l) m (pendingSummaries l).

Definition set_pendingSummaries (p : list nat) (l : Locals) : Locals :=
  mkLocals (reasoning l) (reasoningBuffer l) (lastReasoningUpdate l)
           (status l) (toolArgBuffers l) p.

(** A summary is requested at step [i]: [lastReasoningUpdate = new Date()]
    and the promise is left pending. *)
Definition request_summary (i : nat) (t : Z) (l : Locals) : Locals :=
  mkLocals (reasoning l) (reasoningBuffer l) t (status l)
           (toolArgBuffers l) (pendingSummaries l ++ [i]).

(** JavaScript truthiness of an optional string. *)
Definition truthy (o : option string) : bool :=
  match o with
  | Some s => negb (String.eqb s "")
  | None => false
  end.

(** [`Done in ${Math.round((new Date().getTime() - startTime.getTime()) / 1000)}s.`] *)
Definition done_in (env : Env) (i : nat) : string :=
  "Done in " +:+ JS.Z_to_string (JS.round_seconds (now env i - startTime env))
    +:+ "s.".

(** How one iteration of the [for await] loop ends. *)
Inductive Control : Type :=
| Next                                      (* [continue], or the body's end *)
| Break
| Throw (msg : string).

(** *** Side channels of an output (lines 65-148) *)

(** A word character of the regular expression syntax: [[A-Za-z0-9_]]. *)
Definition is_word (c : ascii) : bool :=
  let n := nat_of_ascii c in
  ((48 <=? n) && (n <=? 57) || (65 <=? n) && (n <=? 90)
   || (97 <=? n) && (n <=? 122) || (n =? 95))%nat.

Definition error_words : list string :=
  ["error"; "failed"; "exception"; "traceback"].

(** Some error word starts here and is followed by a word boundary. *)
Definition word_here (s : string) : bool :=
  existsb (fun w =>
             JS.startsWith (JS.lower_string s) w
             && match JS.sdrop (String.length w) s with
                | EmptyString => true
                | String c _ => negb (is_word c)
                end) error_words.

(** [prev] is the character before [s], if any. *)
Fixpoint error_scan (prev : option ascii) (s : string) : bool :=
  (match prev with
   | None => true
   | Some c => negb (is_word c)
   end && word_here s)
  || match s with
     | EmptyString => false
     | String c s' => error_scan (Some c) s'
     end.

(** [/(^|\b)(error|failed|exception|traceback)\b/i.test(s)] *)
Definition looks_like_error (s : string) : bool := error_scan None s.

(** Lines 66-74. *)
Definition reasoning_delta (o : Output) (l : Locals)
  : Locals * list MessageUpdate :=
  match reasoningDelta o with
  | Some d =>
      if (0 <? JS.len d)
      then (set_reasoningBuffer (reasoningBuffer l +:+ d) l,
            [ReasoningStream d])
      else (l, [])
  | None => (l, [])
  end.

(** Lines 87-96: the call is published once its name is known. *)
Definition publish_call (uuid : string) (buf : ToolArgBuffer)
  : ToolArgBuffer * list MessageUpdate :=
  if negb (buf_callPublished buf) && truthy (buf_name buf)
  then (mkBuf (buf_name buf) (buf_args buf) (buf_parsedPublished buf) true,
        [ToolCallUpdate uuid (mkToolCall (default "" (buf_name buf)) [] None)])
  else (buf, []).

(** Lines 98-114: the parameters are published once the buffered
    arguments parse as a JSON object. *)
Definition publish_parsed (env : Env) (uuid : string) (buf : ToolArgBuffer)
  : ToolArgBuffer * list MessageUpdate :=
  if negb (buf_parsedPublished buf)
  then match JSON_parse env (buf_args buf) with
       | inl (JObj fields) =>
           (mkBuf (buf_name buf) (buf_args buf) true (buf_callPublished buf),
            [ToolCallUpdate uuid
               (mkToolCall (default "tool" (buf_name buf)) fields None)])
       | _ => (buf, [])
       end
  else (buf, []).

(** The body of the loop over [toolCallDeltas] (lines 82-114).  The key
    is the id of the call, a [JS.Key], or, without an id, a string with
    a hyphen in it: neither names an inherited member, so the lookup of
    line 83 finds a buffer of the map or nothing. *)
Definition tool_call_delta (env : Env) (d : ToolCallDelta)
           (m : gmap string ToolArgBuffer)
  : gmap string ToolArgBuffer * list MessageUpdate :=
  let uuid :=
    match d_id d with
    | Some id => JS.key id
    | None => JS.Z_to_string (d_index d) +:+ "-" +:+ default "tool" (d_name d)
    end in
  let buf0 := default (mkBuf None "" false false) (m !! uuid) in
  let buf1 :=
    if truthy (d_name d)
    then mkBuf (d_name d) (buf_args buf0)
               (buf_parsedPublished buf0) (buf_callPublished buf0)
    else buf0 in
  let buf2 :=
    match d_argumentsChunk d with
    | Some chunk => mkBuf (buf_name buf1) (buf_args buf1 +:+ chunk)
                          (buf_parsedPublished buf1) (buf_callPublished buf1)
    | None => buf1
    end in
  let called := publish_call uuid buf2 in
  let parsed := publish_parsed env uuid (fst called) in
  (<[uuid := fst parsed]> m, snd called ++ snd parsed).

Fixpoint tool_call_deltas (env : Env) (ds : list ToolCallDelta)
         (m : gmap string ToolArgBuffer)
  : gmap string ToolArgBuffer * list MessageUpdate :=
  match ds with
  | [] => (m, [])
  | d :: ds' =>
      let first := tool_call_delta env d m in
      let others := tool_call_deltas env ds' (fst first) in
      (fst others, snd first ++ snd others)
  end.

(** Lines 119-148. *)
Definition tool_result_delta (o : Output) : list MessageUpdate :=
  match toolResultDelta o with
  | Some r =>
      let uuid :=
        match r_id r with
        | Some id => id
        | None => default "tool" (r_name r) +:+ "-result"
        end in
      let contentChunk := default "" (r_contentChunk r) in
      if (0 <? JS.len contentChunk)
      then if looks_like_error contentChunk
           then [ToolErrorUpdate uuid contentChunk]
           else [ToolResultUpdate uuid
                   (mkToolResult "success"
                      (mkToolCall (default "tool" (r_name r)) [] (r_id r))
                      [contentChunk] true)]
      else []
  | None => []
  end.

(** *** Completion of the text (lines 150-225) *)

Definition nl : string := String (ascii_of_nat 10) EmptyString.

(** [interrupted] as first computed (lines 151-152). *)
Definition interrupted0 (m : Model) (o : Output) : bool :=
  negb (token_special o)
  && negb match model_stop m with
          | Some stops => JS.includes stops (token_text o)
          | None => false
          end.

(** The loop over the stop tokens (lines 154-160). *)
Definition strip_stop (acc : string * bool) (stopToken : string)
  : string * bool :=
  let '(text, interrupted) := acc in
  if JS.endsWith text stopToken
  then (JS.slice text 0 (JS.len text - JS.len stopToken), false)
  else (text, interrupted).

Definition strip_stops (m : Model) (o : Output) (gt : string)
  : string * bool :=
  fold_left strip_stop (default [] (model_stop m))
            (JS.trimEnd gt, interrupted0 m o).

(** The [tokens] branch (lines 202-217). *)
Definition remove_reasoning (beginToken endToken reasoningBuffer text : string)
  : string :=
  let beginIndex :=
    if negb (String.eqb beginToken "")
    then JS.indexOf reasoningBuffer beginToken
    else 0 in
  let endIndex := JS.lastIndexOf reasoningBuffer endToken in
  if negb (beginIndex =? -1) && negb (endIndex =? -1)
  then JS.slice text 0 beginIndex
         +:+ JS.slice_from text (endIndex + JS.len endToken)
  else text.

(** The user message handed to the summarising call (lines 174-181);
    [None] when [messages] is empty and reading [.content] throws. *)
Definition summary_prompt (msgs : list EndpointMessage) (buffer : string)
  : option string :=
  match last msgs with
  | Some m => Some ("Question: " +:+ msg_content m +:+ nl +:+ nl
                      +:+ "Reasoning: " +:+ buffer)
  | None => None
  end.

Definition final_step (env : Env) (ctx : GenerateContext) (i : nat)
           (l : Locals) (o : Output) (gt : string)
  : Locals * list MessageUpdate * Control :=
  let m := model ctx in
  let '(text, interrupted) := strip_stops m o gt in
  match model_reasoning m with
  | Some (Regex re) =>
      match regexp_exec env re (reasoningBuffer l) with
      | InvalidPattern msg => (l, [], Throw msg)
      | Match (Some g) => (l, [FinalAnswer g interrupted], Next)
      | Match None | NoMatch => (l, [FinalAnswer text interrupted], Next)
      end
  | Some Summarize =>
      let summarizing := ReasoningStatus "Summarizing reasoning..." in
      match summary_prompt (messages ctx) (reasoningBuffer l) with
      | Some prompt =>
          match generateFromDefaultEndpoint env prompt with
          | (evs, inl summary) =>
              (l, summarizing :: evs
                    ++ [ReasoningStatus (done_in env i);
                        FinalAnswer summary interrupted], Next)
          | (evs, inr _) =>
              (l, summarizing :: evs ++ [FinalAnswer text interrupted], Next)
          end
      | None => (l, [summarizing; FinalAnswer text interrupted], Next)
      end
  | Some (Tokens beginToken endToken) =>
      (l, [FinalAnswer
             (remove_reasoning beginToken endToken (reasoningBuffer l) text)
             interrupted], Next)
  | None => (l, [FinalAnswer text interrupted], Next)
  end.

(** *** An ordinary output (lines 227-327) *)

(** The promise callbacks [status = summary] that ran while the loop was
    waiting for output [i]. *)
Fixpoint deliver (env : Env) (i : nat) (pending : list nat) (st : string)
  : list nat * string :=
  match pending with
  | [] => ([], st)
  | r :: rest =>
      match summaryArrival env r i with
      | Some s => deliver env i rest s
      | None => let '(p, st') := deliver env i rest st in (r :: p, st')
      end
  end.

Definition deliver_summaries (env : Env) (i : nat) (l : Locals) : Locals :=
  let '(p, st) := deliver env i (pendingSummaries l) (status l) in
  set_pendingSummaries p (set_status st l).

(** The abort check that closes the body (lines 317-323). *)
Definition abort_check (env : Env) (ctx : GenerateContext) (i : nat)
  : Control :=
  match getAbortTime env i with
  | Some date => if promptedAt ctx <? date then Break else Next
  | None => Next
  end.

(** Lines 247-315: the token is passed down. *)
Definition pass_down (env : Env) (ctx : GenerateContext) (i : nat)
           (l : Locals) (o : Output)
  : Locals * list MessageUpdate * Control :=
  if reasoning l then
    let l1 := set_reasoningBuffer (reasoningBuffer l +:+ token_text o) l in
    let split :=
      match model_reasoning (model ctx) with
      | Some (Tokens _ endToken) =>
          if negb (JS.lastIndexOf (reasoningBuffer l1) endToken =? -1)
          then Some endToken else None
      | _ => None
      end in
    match split with
    | Some endToken =>
        let endTokenIndex := JS.lastIndexOf (reasoningBuffer l1) endToken in
        let textBuffer :=
          JS.slice_from (reasoningBuffer l1) (endTokenIndex + JS.len endToken) in
        let l2 :=
          set_reasoningBuffer
            (JS.slice (reasoningBuffer l1) 0
                      (endTokenIndex + JS.len endToken + 1)) l1 in
        (set_reasoning false l2,
         [ReasoningStream (token_text o); Stream textBuffer;
          ReasoningStatus (done_in env i)],
         Next)
    | None =>
        let '(l2, ev_status) :=
          if negb (String.eqb (status l1) "")
          then (set_status "" l1, [ReasoningStatus (status l1)])
          else (l1, []) in
        let l3 :=
          if String.eqb (REASONING_SUMMARY env) "true"
             && (4000 <? now env i - lastReasoningUpdate l2)
          then request_summary i (now env i) l2
          else l2 in
        (l3, ev_status ++ [ReasoningStream (token_text o)],
         abort_check env ctx i)
    end
  else
    (l, [Stream (token_text o)], abort_check env ctx i).

(** Lines 227-245, then [pass_down]. *)
Definition token_step (env : Env) (ctx : GenerateContext) (i : nat)
           (l : Locals) (o : Output)
  : Locals * list MessageUpdate * Control :=
  let marker :=
    match model_reasoning (model ctx) with
    | Some (Tokens beginToken endToken) =>
        if String.eqb (token_text o) beginToken then Some true
        else if String.eqb (token_text o) endToken then Some false
        else None
    | _ => None
    end in
  match marker with
  | Some true =>
      (set_reasoningBuffer (reasoningBuffer l +:+ token_text o)
                           (set_reasoning true l), [], Next)
  | Some false =>
      (set_reasoningBuffer (reasoningBuffer l +:+ token_text o)
                           (set_reasoning false l),
       [ReasoningStatus (done_in env i)], Next)
  | None =>
      if token_special o then (l, [], Next)
      else pass_down env ctx i l o
  end.

(** The output is an ordinary token that is passed down and reaches
    the abort check: it carries no generated text, is not special, is not
    one of the two markers, and does not complete an end marker inside
    the reasoning buffer. *)
Definition passed_down (m : Model) (l : Locals) (o : Output) : bool :=
  negb (truthy (generated_text o))
  && negb (token_special o)
  && match model_reasoning m with
     | Some (Tokens beginToken endToken) =>
         negb (String.eqb (token_text o) beginToken)
         && negb (String.eqb (token_text o) endToken)
         && negb (reasoning l
                  && negb (JS.lastIndexOf
                             (reasoningBuffer (fst (reasoning_delta o l))
                                +:+ token_text o) endToken =? -1))
     | _ => true
     end.

(** *** The loop and the generator *)

(** One iteration of [for await (const output of ...)]. *)
Definition step (env : Env) (ctx : GenerateContext) (i : nat)
           (l : Locals) (o : Output)
  : Locals * list MessageUpdate * Control :=
  let l0 := deliver_summaries env i l in
  let '(l1, e1) := reasoning_delta o l0 in
  let '(bufs, e2) := tool_call_deltas env (default [] (toolCallDeltas o))
                                      (toolArgBuffers l1) in
  let l2 := set_toolArgBuffers bufs l1 in
  let e3 := tool_result_delta o in
  let '(l3, e4, c) :=
    match generated_text o with
    | Some gt =>
        if negb (String.eqb gt "") then final_step env ctx i l2 o gt
        else token_step env ctx i l2 o
    | None => token_step env ctx i l2 o
    end in
  (l3, e1 ++ e2 ++ e3 ++ e4, c).

(** What a run of the generator produces: the events it yields, in
    order, and the error it throws, if any. *)
Record Run : Type := mkRun {
  events : list MessageUpdate;
  thrown : option string;
  (** number of provider outputs read *)
  consumed : nat;
  final_locals : Locals
}.

(** The [for await] loop from output number [i] on; [err] is the error of
    the provider stream after its last output. *)
Fixpoint loop (env : Env) (ctx : GenerateContext) (i : nat) (l : Locals)
         (outs : list Output) (err : option string) : Run :=
  match outs with
  | [] => mkRun [] err 0 l
  | o :: rest =>
      let '(l', evs, c) := step env ctx i l o in
      match c with
      | Next =>
          let r := loop env ctx (S i) l' rest err in
          mkRun (evs ++ events r) (thrown r) (S (consumed r)) (final_locals r)
      | Break => mkRun evs None 1 l'
      | Throw msg => mkRun evs (Some msg) 1 l'
      end
  end.

(** Lines 39-45: does the model start in reasoning mode? *)
Definition starts_reasoning (m : Model) : bool :=
  match model_reasoning m with
  | Some (Regex _) | Some Summarize => true
  | Some (Tokens beginToken _) => String.eqb beginToken ""
  | None => false
  end.

Definition initial_locals (env : Env) (m : Model) : Locals :=
  mkLocals (starts_reasoning m) "" (startTime env) "" ∅ [].

Definition generate (env : Env) (ctx : GenerateContext)
           (preprompt : option string) : Run :=
  let m := model ctx in
  let ev0 :=
    if starts_reasoning m then [ReasoningStatus "Started reasoning..."]
    else [] in
  let stream :=
    endpoint ctx
      (mkArgs (messages ctx) preprompt (isContinue ctx)
              (default false (forceMultimodal ctx) || model_multimodal m)) in
  let r := loop env ctx 0 (initial_locals env m)
                (outputs stream) (stream_error stream) in
  mkRun (ev0 ++ events r) (thrown r) (consumed r) (final_locals r).

End Generate.

(* ===================================================================== *)
(** ** The stream encoder and the turn
       (POST /conversations/:id, [ReadableStream.start]) *)
(* ===================================================================== *)

Module Encoder.

Record MessageFile : Type := mkFile {
  file_type : string;
  file_name : string;
  file_value : string;
  file_mime : string
}.

(** [Message]; an absent optional field is [None]. *)
Record Message : Type := mkMsg {
  id : string;
  from : string;
  content : string;
  reasoning : option string;
  ancestors : option (list string);
  children : option (list string);
  files : option (list MessageFile);
  interrupted : option bool;
  updates : option (list MessageUpdate);
  routerMetadata : option (string * string);
  updatedAt : Z
}.

(** A write to the conversations collection ([updateOne ... $set]). *)
Inductive DbWrite : Type :=
| SetTitle (title : string) (updatedAt : Z)
| SetMessages (messages : list Message) (title : string) (updatedAt : Z).

(** What the closure of [start] can see and change.  [messageToWriteTo]
    is an element of [conv.messages]; the array is kept as the messages
    before it, the message itself and the messages after it, so that a
    change to the message is a change of the array. *)
Record State : Type := mkState {
  before : list Message;
  messageToWriteTo : Message;
  after : list Message;
  conv_title : string;
  lastTokenTimestamp : option Z;
  (** chunks handed to [controller.enqueue], oldest first *)
  wire : list string;
  (** writes to the database, oldest first *)
  db : list DbWrite
}.

Definition conv_messages (st : State) : list Message :=
  before st ++ messageToWriteTo st :: after st.

Definition with_message (f : Message -> Message) (st : State) : State :=
  mkState (before st) (f (messageToWriteTo st)) (after st) (conv_title st)
          (lastTokenTimestamp st) (wire st) (db st).

Definition set_content (c : string) (m : Message) : Message :=
  mkMsg (id m) (from m) c (reasoning m) (ancestors m) (children m)
        (files m) (interrupted m) (updates m) (routerMetadata m) (updatedAt m).

Definition set_reasoning (r : option string) (m : Message) : Message :=
  mkMsg (id m) (from m) (content m) r (ancestors m) (children m)
        (files m) (interrupted m) (updates m) (routerMetadata m) (updatedAt m).

Definition set_files (f : option (list MessageFile)) (m : Message) : Message :=
  mkMsg (id m) (from m) (content m) (reasoning m) (ancestors m) (children m)
        f (interrupted m) (updates m) (routerMetadata m) (updatedAt m).

Definition set_interrupted (i : option bool) (m : Message) : Message :=
  mkMsg (id m) (from m) (content m) (reasoning m) (ancestors m) (children m)
        (files m) i (updates m) (routerMetadata m) (updatedAt m).

Definition set_updates (u : option (list MessageUpdate)) (m : Message)
  : Message :=
  mkMsg (id m) (from m) (content m) (reasoning m) (ancestors m) (children m)
        (files m) (interrupted m) u (routerMetadata m) (updatedAt m).

Definition set_routerMetadata (r : option (string * string)) (m : Message)
  : Message :=
  mkMsg (id m) (from m) (content m) (reasoning m) (ancestors m) (children m)
        (files m) (interrupted m) (updates m) r (updatedAt m).

Definition set_updatedAt (t : Z) (m : Message) : Message :=
  mkMsg (id m) (from m) (content m) (reasoning m) (ancestors m) (children m)
        (files m) (interrupted m) (updates m) (routerMetadata m) t.

Definition set_title (t : string) (st : State) : State :=
  mkState (before st) (messageToWriteTo st) (after st) t
          (lastTokenTimestamp st) (wire st) (db st).

Definition set_lastTokenTimestamp (t : option Z) (st : State) : State :=
  mkState (before st) (messageToWriteTo st) (after st) (conv_title st)
          t (wire st) (db st).

Definition enqueue (chunk : string) (st : State) : State :=
  mkState (before st) (messageToWriteTo st) (after st) (conv_title st)
          (lastTokenTimestamp st) (wire st ++ [chunk]) (db st).

Definition db_write (w : DbWrite) (st : State) : State :=
  mkState (before st) (messageToWriteTo st) (after st) (conv_title st)
          (lastTokenTimestamp st) (wire st) (db st ++ [w]).

(** [s.replace(/<\/?think>/gi, "")]; [skip] characters of a match that
    started earlier are still to be dropped. *)
Fixpoint strip_think (skip : nat) (s : string) : string :=
  match s with
  | EmptyString => EmptyString
  | String c s' =>
      match skip with
      | S k => strip_think k s'
      | O =>
          if JS.istartsWith s "<think>" then strip_think 6 s'
          else if JS.istartsWith s "</think>" then strip_think 7 s'
          else String c (strip_think 0 s')
      end
  end.

Definition sanitize_title (t : string) : string :=
  JS.trim (strip_think 0 t).

(** The condition of lines 581-591: the event is kept in
    [messageToWriteTo.updates]. *)
Definition persisted (e : MessageUpdate) : bool :=
  match e with
  | Stream _ => false
  | Status KeepAlive _ => false
  | ReasoningStream _ => false
  | _ => true
  end.

Definition padding : string := JS.repeat_char " "%char 4096.

Definition NUL : ascii := ascii_of_nat 0.

Section Update.

(** [JSON.stringify] on an event. *)
Variable stringify : MessageUpdate -> string.
(** [model.isRouter] *)
Variable isRouter : bool.

(** Lines 544-579: the effect of the event on the conversation. *)
Definition apply_event (initialMessageContent : string) (now : Z)
           (e : MessageUpdate) (st : State) : State :=
  match e with
  | Stream token =>
      set_lastTokenTimestamp (Some now)
        (with_message
           (fun m => set_content (content m +:+ token) m) st)
  | ReasoningStream token =>
      with_message
        (fun m => set_reasoning
                    (Some (default "" (reasoning m) +:+ token)) m) st
  | Title title =>
      let t := sanitize_title title in
      db_write (SetTitle t now) (set_title t st)
  | FinalAnswer text interrupted =>
      with_message
        (fun m => set_content (initialMessageContent +:+ text)
                    (set_interrupted (Some interrupted) m)) st
  | File name sha mime =>
      with_message
        (fun m => set_files
                    (Some (default [] (files m)
                             ++ [mkFile "hash" name sha mime])) m) st
  | RouterMetadata route model =>
      if isRouter
      then with_message (set_routerMetadata (Some (route, model))) st
      else st
  | _ => st
  end.

(** Lines 581-593. *)
Definition record_update (e : MessageUpdate) (st : State) : State :=
  if persisted e
  then with_message
         (fun m => set_updates
                     (match updates m with
                      | Some u => Some (u ++ [e])
                      | None => None
                      end) m) st
  else st.

(** Lines 595-603: what goes on the wire. *)
Definition write_event (e : MessageUpdate) (st : State) : State :=
  let e' :=
    match e with
    | Stream token => Stream (JS.padEnd token 16 NUL)
    | _ => e
    end in
  let st1 := enqueue (stringify e' +:+ Generate.nl) st in
  if is_FinalAnswer e' then enqueue padding st1 else st1.

(** [update(event)] (lines 539-604). *)
Definition update (initialMessageContent : string) (now : Z)
           (st : State) (e : MessageUpdate) : State :=
  match e with
  | Stream "" => st
  | _ =>
      write_event e
        (record_update e (apply_event initialMessageContent now e st))
  end.

(** The encoder as section 4.5 of the specification words it: one
    line per event, a Stream token padded to the fixed width, a block
    of padding after a FinalAnswer; an empty Stream token is not
    serialised. *)
Definition wire_chunks (e : MessageUpdate) : list string :=
  match e with
  | Stream "" => []
  | Stream token => [stringify (Stream (JS.padEnd token 16 NUL)) +:+ Generate.nl]
  | FinalAnswer _ _ => [stringify e +:+ Generate.nl; padding]
  | _ => [stringify e +:+ Generate.nl]
  end.

(** The events of a turn, each processed at the time given by the
    clock for its position. *)
Fixpoint updates_from (initialMessageContent : string) (clock : nat -> Z)
         (k : nat) (st : State) (evs : list MessageUpdate) : State :=
  match evs with
  | [] => st
  | e :: rest =>
      updates_from initialMessageContent clock (S k)
                   (update initialMessageContent (clock k) st e) rest
  end.

Definition no_output : MessageUpdate :=
  Status Error (Some "No output was generated. Something went wrong.").

(** What the [catch] and [finally] blocks pass to [update]
    (lines 635-651), for the state reached by the [for await] loop. *)
Definition catch_events (thrown : option string) : list MessageUpdate :=
  match thrown with
  | Some msg => [Status Error (Some msg)]
  | None => []
  end.

Definition finally_events (hasError : bool) (initialMessageContent : string)
           (st : State) : list MessageUpdate :=
  if negb hasError
     && String.eqb (content (messageToWriteTo st)) initialMessageContent
  then [no_output]
  else [].

(** Outcome of a turn. *)
Record Turn : Type := mkTurn {
  final_state : State;
  hasError : bool;
  (** every event handed to [update], in order *)
  handled : list MessageUpdate
}.

(** [start(controller)] (lines 536-660) on the stream
    [textGeneration(ctx)], which yields [evs] and then ends, or throws
    [thrown]. *)
Definition turn (clock : nat -> Z) (evs : list MessageUpdate)
           (thrown : option string) (st : State) : Turn :=
  let st0 :=
    with_message
      (fun m => set_updatedAt (clock 0%nat)
                  (set_updates (Some (default [] (updates m))) m))
      (db_write (SetTitle (conv_title st) (clock 0%nat)) st) in
  let initialMessageContent := content (messageToWriteTo st0) in
  let run := updates_from initialMessageContent clock in
  let st1 := run 0%nat st0 evs in
  let caught := catch_events thrown in
  let st2 := run (List.length evs) st1 caught in
  let err := match thrown with Some _ => true | None => false end in
  let last := finally_events err initialMessageContent st2 in
  let n := (List.length evs + List.length caught)%nat in
  let st3 := run n st2 last in
  let t := clock (n + List.length last)%nat in
  mkTurn (db_write (SetMessages (conv_messages st3) (conv_title st3) t) st3)
         err (evs ++ caught ++ last).

End Update.

End Encoder.

(* ===================================================================== *)
(** ** DELETE /conversations/:id/message/:messageId *)
(* ===================================================================== *)

Module Tree.

Import Encoder.

(** The predicate of the [filter] (lines 953-959): not the message, and
    the message is not among the ancestors.  A message without an
    [ancestors] field fails the test. *)
Definition kept (messageId : string) (message : Message) : bool :=
  negb (String.eqb (id message) messageId)
  && match ancestors message with
     | Some a => negb (JS.includes a messageId)
     | None => false
     end.

Definition set_children (c : option (list string)) (m : Message) : Message :=
  mkMsg (id m) (from m) (content m) (reasoning m) (ancestors m) c
        (files m) (interrupted m) (updates m) (routerMetadata m) (updatedAt m).

(** [children.filter((child) => child !== messageId)] *)
Definition without (messageId : string) (c : list string) : list string :=
  List.filter (fun child => negb (String.eqb child messageId)) c.

(** The function of the [map] (lines 960-968). *)
Definition unlink (messageId : string) (message : Message) : Message :=
  match children message with
  | Some c =>
      if JS.includes c messageId
      then set_children (Some (without messageId c)) message
      else message
  | None => message
  end.

(** The handler up to the database write: the new value of
    [conversation.messages], or the error thrown. *)
Definition deleteMessage (messages : list Message) (messageId : string)
  : string + list Message :=
  if negb (JS.includes (map id messages) messageId)
  then inl "Message not found"
  else inr (map (unlink messageId) (List.filter (kept messageId) messages)).

(** [m] is a descendant of [messageId] in the tree bookkeeping. *)
Definition descends_from (messageId : string) (m : Message) : bool :=
  match ancestors m with
  | Some a => JS.includes a messageId
  | None => false
  end.

End Tree.

(* ===================================================================== *)
(** ** The inline [/mcp] hook of endpointOai (chat_completions) *)
(* ===================================================================== *)

Module Inline.

Import Generate.

Record McpServerConfig : Type := mkServer {
  server_name : string;
  server_url : string
}.

Record Env : Type := mkEnv {
  (** [config.MCP_SERVERS] once parsed; empty when it is unset, is not
      JSON or is not an array *)
  MCP_SERVERS : list McpServerConfig;
  (** [JSON.parse]: the value, or the message of the SyntaxError *)
  JSON_parse : string -> Json + string;
  (** [callMcpTool(server, tool, args)]: the output, or the message of
      the error thrown; [None] is a server that [find] did not find *)
  callMcpTool : option McpServerConfig -> string -> Json -> string + string
}.

Definition is_server_char (c : ascii) : bool :=
  JS.is_letter c || JS.is_digit c
  || Ascii.eqb c "_"%char || Ascii.eqb c "-"%char.

Definition is_tool_char (c : ascii) : bool :=
  JS.is_letter c || JS.is_digit c
  || Ascii.eqb c "."%char || Ascii.eqb c "_"%char || Ascii.eqb c "-"%char.

(** [content.match(re)] for the pattern of line 132, with flag [i]:
    "/mcp", white space, a server name in [[a-z0-9_-]+], a dot, a tool
    name in [[a-zA-Z0-9._-]+] and then, optionally, white space and the
    rest of the input; the result holds the three groups.  No class of
    the pattern overlaps the one that follows it, so every repetition
    takes its longest run. *)
Definition match_mcp (content : string)
  : option (string * string * option string) :=
  if JS.istartsWith content "/mcp" then
    let '(ws, s2) := JS.span JS.is_space (JS.sdrop 4 content) in
    if String.eqb ws "" then None else
    let '(serverName, s3) := JS.span is_server_char s2 in
    if String.eqb serverName "" then None else
    match s3 with
    | String "."%char s4 =>
        let '(toolName, s5) := JS.span is_tool_char s4 in
        if String.eqb toolName "" then None else
        match s5 with
        | EmptyString => Some (serverName, toolName, None)
        | String c _ =>
            if JS.is_space c
            then Some (serverName, toolName, Some (snd (JS.span JS.is_space s5)))
            else None
        end
    | _ => None
    end
  else None.

(** [openAIChatToTextGenerationSingle]: the completion's content as a
    single token that also carries the generated text. *)
Definition openAIChatToTextGenerationSingle (content : string)
  : ProviderStream :=
  mkStream [mkOutput content false (Some content) None None None] None.

Definition find_server (servers : list McpServerConfig) (name : string)
  : option McpServerConfig :=
  List.find (fun s => String.eqb (server_name s) name) servers.

(** Lines 122-222.  [None]: the hook does not apply and the function
    goes on to call the model. *)
Definition inline_hook (env : Env) (args : EndpointArgs)
  : option ProviderStream :=
  match MCP_SERVERS env with
  | [] => None
  | servers =>
      match last (arg_messages args) with
      | Some lastMsg =>
          if String.eqb (msg_from lastMsg) "user" then
            match match_mcp (msg_content lastMsg) with
            | Some (serverName, toolName, raw) =>
                match find_server servers serverName with
                | None =>
                    Some (openAIChatToTextGenerationSingle
                            ("Unknown MCP server: " +:+ serverName))
                | Some server =>
                    let parsed :=
                      match raw with
                      | Some r =>
                          if negb (String.eqb r "")
                             && negb (String.eqb (JS.trim r) "")
                          then JSON_parse env r
                          else inl (JObj [])
                      | None => inl (JObj [])
                      end in
                    match parsed with
                    | inr msg =>
                        Some (openAIChatToTextGenerationSingle
                                ("Invalid JSON args: " +:+ msg))
                    | inl a =>
                        match callMcpTool env (Some server) toolName a with
                        | inr msg =>
                            Some (openAIChatToTextGenerationSingle
                                    ("MCP error: " +:+ msg))
                        | inl out =>
                            Some (openAIChatToTextGenerationSingle out)
                        end
                    end
                end
            | None => None
            end
          else None
      | None => None
      end
  end.

(** The endpoint returned by [endpointOai] for [chat_completions];
    [callModel] is the rest of the function (lines 224-458), which
    sends the conversation to the model. *)
Definition endpointOai (env : Env) (callModel : Endpoint) : Endpoint :=
  fun args =>
    match inline_hook env args with
    | Some stream => stream
    | None => callModel args
    end.

End Inline.

(* ===================================================================== *)
(** ** generate with the MCP tool path (model-issued tool call) *)
(* ===================================================================== *)

Module Mcp.

Import Generate.
Export Inline (McpServerConfig, mkServer, server_name, server_url, find_server).

(** [completion.choices[0].message.tool_calls[0]] *)
Record ToolCallMessage : Type := mkCall {
  tc_type : string;
  tc_name : option string;                 (* [call.function?.name] *)
  tc_arguments : option string             (* [call.function.arguments] *)
}.

(** What a lookup [mapping[fnName]] finds: the fields [server] and
    [tool] of the value, [None] for a field the value does not have. *)
Record Target : Type := mkTarget {
  target_server : option string;
  target_tool : option string
}.

Record Env : Type := mkEnv {
  (** clock, registry and auxiliary calls of the streaming loop *)
  base : Generate.Env;
  (** [config.MCP_SERVERS] once parsed; empty when it is unset, is not
      JSON or is not an array *)
  MCP_SERVERS : list McpServerConfig;
  (** [getOpenAiToolsForMcp(servers)]: the tool definitions (by name)
      and the lookup [mapping[fnName]], which is [None] when it finds
      nothing or a falsy value; the whole is [None] when the call
      throws *)
  getOpenAiToolsForMcp :
    list McpServerConfig -> option (list string * (string -> option Target));
  (** the single non-streaming completion with the tool schema: its
      first tool call, if it has one; [None] when the request throws *)
  create_completion :
    list EndpointMessage -> option string -> option (option ToolCallMessage);
  (** [randomUUID()] *)
  randomUUID : string;
  (** [callMcpTool(server, tool, args)]: the output, or the message of
      the error thrown; [None] is a server that [find] did not find, or
      a tool name that the value found does not have *)
  callMcpTool :
    option McpServerConfig -> option string -> Json -> string + string
}.

(** The calls that [generate] itself makes and that leave the process,
    in the order it makes them.  What [generateFromDefaultEndpoint] does
    while it runs is not part of the list. *)
Inductive Effect : Type :=
| ToolCompletion                           (* completion with tool schema *)
| ToolInvocation (server : option McpServerConfig) (tool : option string)
                 (args : Json)
| FollowUp (prompt : string)               (* generateFromDefaultEndpoint *)
| ProviderStream.                          (* [endpoint(...)] *)

Record Outcome : Type := mkOutcome {
  events : list MessageUpdate;
  thrown : option string;
  effects : list Effect
}.

(** [parseArgs] (lines 248-251). *)
Definition parseArgs (env : Env) (raw : option string) : Json :=
  match raw with
  | Some r =>
      if String.eqb r "" || String.eqb (JS.trim r) "" then JObj []
      else match JSON_parse (base env) r with
           | inl v => v
           | inr _ => JObj []
           end
  | None => JObj []
  end.

(** [toPrimitive(v) !== undefined] *)
Definition is_primitive (v : Json) : bool :=
  match v with
  | JStr _ | JNum _ | JBool _ => true
  | _ => false
  end.

(** [Object.entries(argsObj)] behind the guard
    [argsObj && typeof argsObj === "object"].  The fields of a [JObj]
    are taken to be in enumeration order. *)
Definition entries (v : Json) : list (string * Json) :=
  match v with
  | JObj fields => fields
  | JArr items =>
      imap (fun i x => (JS.Z_to_string (Z.of_nat i), x)) items
  | _ => []
  end.

(** [parametersClean] (lines 259-265). *)
Definition parametersClean (argsObj : Json) : list (string * Json) :=
  List.filter (fun kv => is_primitive (snd kv)) (entries argsObj).

(** [messages[messages.length - 1]?.content ?? ""] (line 315). *)
Definition question (ctx : GenerateContext) : string :=
  match last (messages ctx) with
  | Some m => msg_content m
  | None => ""
  end.

(** The prompt of the follow-up completion (line 320). *)
Definition synthesis_prompt (question out : string) : string :=
  "Question: " +:+ question +:+ nl +:+ nl +:+ "Tool results:" +:+ nl
    +:+ out +:+ nl +:+ nl
    +:+ "Using only the tool results above, answer the question concisely. If uncertain, say you don't know.".

(** [servers.find((s) => s.name === map.server)] (line 298). *)
Definition target_of (env : Env) (map : Target) : option McpServerConfig :=
  match target_server map with
  | Some name => find_server (MCP_SERVERS env) name
  | None => None
  end.




(** Lines 243-350: the model returned the call [fnName(raw)]. *)
Definition tool_path (env : Env) (ctx : GenerateContext)
           (mapping : string -> option Target)
           (fnName : string) (raw : option string)
  : list MessageUpdate * list Effect :=
  let uuid := randomUUID env in
  let argsObj := parseArgs env raw in
  let call := mkToolCall fnName (parametersClean argsObj) None in
  let announce := [ToolCallUpdate uuid call; ToolETAUpdate uuid 10] in
  match mapping fnName with
  | None =>
      (announce
         ++ [ToolErrorUpdate uuid ("Unknown MCP function: " +:+ fnName);
             FinalAnswer ("Unknown MCP function: " +:+ fnName) false],
       [])
  | Some map =>
      let server := target_of env map in
      let tool := target_tool map in
      let invoke := ToolInvocation server tool argsObj in
      match callMcpTool env server tool argsObj with
      | inr msg =>
          (announce
             ++ [ToolErrorUpdate uuid msg;
                 FinalAnswer ("MCP error: " +:+ msg) false],
           [invoke])
      | inl out =>
          let result :=
            ToolResultUpdate uuid (mkToolResult "success" call [out] true) in
          let prompt := synthesis_prompt (question ctx) out in
          match generateFromDefaultEndpoint (base env) prompt with
          | (evs, inl synthesis) =>
              (announce ++ [result] ++ evs ++ [FinalAnswer synthesis false],
               [invoke; FollowUp prompt])
          | (evs, inr msg) =>
              (announce ++ [result] ++ evs
                 ++ [ToolErrorUpdate uuid msg;
                     FinalAnswer ("MCP error: " +:+ msg) false],
               [invoke; FollowUp prompt])
          end
      end
  end.

(** The loop of this version has no side channels. *)
Definition plain (o : Output) : Output :=
  mkOutput (token_text o) (token_special o) (generated_text o)
           None None None.

Definition plain_endpoint (e : Endpoint) : Endpoint :=
  fun args =>
    let s := e args in mkStream (map plain (outputs s)) (stream_error s).

(** Lines 358-570: the normal LLM stream. *)
Definition normal_stream (env : Env) (ctx : GenerateContext)
           (preprompt : option string) (before : list Effect) : Outcome :=
  let ctx' :=
    mkContext (model ctx) (plain_endpoint (endpoint ctx)) (messages ctx)
              (isContinue ctx) (promptedAt ctx) (forceMultimodal ctx) in
  let r := Generate.generate (base env) ctx' preprompt in
  mkOutcome (Generate.events r) (Generate.thrown r) (before ++ [ProviderStream]).

(** The tool call of a completion that takes the tool path (line 243). *)
Definition structured_call (reply : option ToolCallMessage)
  : option (string * option string) :=
  match reply with
  | Some call =>
      if String.eqb (tc_type call) "function" && truthy (tc_name call)
      then Some (default "" (tc_name call), tc_arguments call)
      else None
  | None => None
  end.

Definition generate (env : Env) (ctx : GenerateContext)
           (preprompt : option string) : Outcome :=
  match MCP_SERVERS env with
  | [] => normal_stream env ctx preprompt []
  | servers =>
      match getOpenAiToolsForMcp env servers with
      | None => normal_stream env ctx preprompt []
      | Some ([], _) => normal_stream env ctx preprompt []
      | Some (_ :: _, mapping) =>
          match create_completion env (messages ctx) preprompt with
          | None => normal_stream env ctx preprompt [ToolCompletion]
          | Some reply =>
              match structured_call reply with
              | Some (fnName, raw) =>
                  let '(evs, effs) := tool_path env ctx mapping fnName raw in
                  mkOutcome evs None (ToolCompletion :: effs)
              | None => normal_stream env ctx preprompt [ToolCompletion]
              end
          end
      end
  end.

End Mcp.

(* ===================================================================== *)
(** ** textGeneration: title, text and heartbeat producers *)
(* ===================================================================== *)

Module TextGeneration.

(** [keepAlive(done)]: one event per turn of the [while] loop; [ticks]
    is the number of turns taken before [done] is aborted. *)
Definition keepAlive (ticks : nat) : list MessageUpdate :=
  replicate ticks (Status KeepAlive None).

(** [textGenerationWithoutTitle]: [Started], then what [generate]
    yields.  [prepared] is the outcome of [enhancePrepromptWithSkills]
    and [preprocessMessages]: the error one of them throws, or nothing,
    in which case [generated] are the events of [generate]. *)
Definition textGenerationWithoutTitle (prepared : option string)
           (generated : list MessageUpdate) : list MessageUpdate :=
  Status Started None
    :: match prepared with
       | Some _ => []
       | None => generated
       end.

(** Modelled from the spec: [generateTitleForConversation] (./title) is
    not among the sources.  It is the Title task: what it yields are
    [Title] events, and its failures are swallowed. *)
Definition generateTitleForConversation (titles : list string)
  : list MessageUpdate :=
  map Title titles.

(** The generators handed to [mergeAsyncGenerators], in order:
    [titleGen], [textGen] and [keepAliveGen]. *)
Definition producers (titles : list string) (prepared : option string)
           (generated : list MessageUpdate) (ticks : nat)
  : list (list MessageUpdate) :=
  [generateTitleForConversation titles;
   textGenerationWithoutTitle prepared generated;
   keepAlive ticks].

(** Modelled from the spec: [mergeAsyncGenerators] (lib/utils) is not
    among the sources.  "Within one producer, events preserve program
    order"; "whichever producer has a ready event is drained next, with
    no priority ordering beyond Started always first".  [merged ps out]:
    [out] drains the producers [ps] completely, one head at a time;
    while some producer offers [Status started], nothing else is taken
    ahead of it. *)
Inductive merged : list (list MessageUpdate) -> list MessageUpdate -> Prop :=
| merged_done (ps : list (list MessageUpdate)) :
    Forall (fun p => p = []) ps -> merged ps []
| merged_next (ps : list (list MessageUpdate)) (i : nat)
              (e : MessageUpdate) (rest out : list MessageUpdate) :
    ps !! i = Some (e :: rest) ->
    (forall j e' rest', ps !! j = Some (e' :: rest') ->
                        is_Started e' = true -> is_Started e = true) ->
    merged (<[i := rest]> ps) out ->
    merged ps (e :: out).

(** The streams [textGeneration(ctx)] can yield. *)
Definition textGeneration (titles : list string) (prepared : option string)
           (generated : list MessageUpdate) (ticks : nat)
           (out : list MessageUpdate) : Prop :=
  merged (producers titles prepared generated ticks) out.

End TextGeneration.

(* ===================================================================== *)
(** ** Concrete surroundings used by the examples *)
(* ===================================================================== *)

Module Examples.

Import Generate.

(** A clock that stands still, an empty abort registry, no summary ever
    delivered, an auxiliary model that fails with [aux_error], a pattern
    that does not match and a JSON parser that rejects its input. *)
Definition quiet (aux_error : string) : Env :=
  mkEnv 0 (fun _ => 0) (fun _ => None) (fun _ _ => None)
        (fun _ => ([], inr aux_error)) (fun _ _ => NoMatch)
        (fun _ => inr "Unexpected token") "false".

(** The registry holds the timestamp [date] at every poll. *)
Definition aborted_at (date : Z) : Env :=
  mkEnv 0 (fun _ => 0) (fun _ => Some date) (fun _ _ => None)
        (fun _ => ([], inr "unavailable")) (fun _ _ => NoMatch)
        (fun _ => inr "Unexpected token") "false".

(** An endpoint that delivers the given outputs and ends. *)
Definition provider (outs : list Output) : Endpoint :=
  fun _ => mkStream outs None.

Definition question : list EndpointMessage := [mkMessage "user" "q"].

Definition context (m : Model) (e : Endpoint) : GenerateContext :=
  mkContext m e question false 5 None.

Definition plain_model : Model := mkModel "m" None None false.

Definition think_model : Model :=
  mkModel "m" (Some (Tokens "<think>" "</think>")) None false.

Definition regex_model : Model :=
  mkModel "m" (Some (Regex "Answer: (.*)")) None false.

(** The token stream of the tokens-mode example, closed by an end-of-
    sequence output that carries the complete text. *)
Definition think_stream : list Output :=
  [tok "a"; tok "<think>"; tok "b"; tok "c"; tok "</think>"; tok "d";
   final "" true "a<think>bc</think>d"].

(** The same stream as [openAIChatToTextGenerationStream] shapes it: the
    last chunk carries the last token and the complete text. *)
Definition think_stream_oai : list Output :=
  [tok "a"; tok "<think>"; tok "b"; tok "c"; tok "</think>";
   final "d" true "a<think>bc</think>d"].

Definition blank_message : Encoder.Message :=
  Encoder.mkMsg "m1" "assistant" "" None (Some []) (Some []) None None
                None None 0.

Definition blank_state : Encoder.State :=
  Encoder.mkState [] blank_message [] "New Chat" None [] [].

(** A serialiser that only names the type of the event. *)
Definition type_of (e : MessageUpdate) : string :=
  match e with
  | Status _ _ => "status"
  | Title _ => "title"
  | ToolCallUpdate _ _ | ToolResultUpdate _ _
  | ToolErrorUpdate _ _ | ToolETAUpdate _ _ => "tool"
  | Stream t => "stream:" +:+ t
  | File _ _ _ => "file"
  | FinalAnswer _ _ => "finalAnswer"
  | ReasoningStream _ | ReasoningStatus _ => "reasoning"
  | RouterMetadata _ _ => "routerMetadata"
  end.

(** A three-message branch: root, its child [a] and [a]'s child [b]. *)
Definition node (i : string) (anc chi : list string) : Encoder.Message :=
  Encoder.mkMsg i "user" "" None (Some anc) (Some chi) None None None None 0.

Definition root_msg : Encoder.Message := node "root" [] ["a"].
Definition a_msg : Encoder.Message := node "a" ["root"] ["b"].
Definition b_msg : Encoder.Message := node "b" ["root"; "a"] [].
Definition branch : list Encoder.Message := [root_msg; a_msg; b_msg].

(** One configured MCP server, named [server]. *)
Definition the_server : Inline.McpServerConfig :=
  Inline.mkServer "server" "http://localhost:3000/mcp".

Definition inline_env : Inline.Env :=
  Inline.mkEnv [the_server] (fun _ => inr "Unexpected token b in JSON")
               (fun _ _ _ => inl "ok").

(** A model endpoint that answers [Hi]. *)
Definition says_hi : Endpoint :=
  provider [tok "Hi"; final "" true "Hi"].



End Examples.

(* ===================================================================== *)
(** ** Shapes of strings used to state preconditions *)
(* ===================================================================== *)

(** [[...s].every(p)] *)
Fixpoint every (p : ascii -> bool) (s : string) : bool :=
  match s with
  | EmptyString => true
  | String c s' => p c && every p s'
  end.

(** The string is not empty. *)
Definition nonempty (s : string) : bool := negb (String.eqb s "").

(** The string is empty or starts with a character that fails [p]. *)
Definition stops (p : ascii -> bool) (s : string) : bool :=
  match s with
  | EmptyString => true
  | String c _ => negb (p c)
  end.

Definition not_bracket (c : ascii) : bool := negb (Ascii.eqb c "]"%char).

Definition not_space (c : ascii) : bool := negb (JS.is_space c).

Definition not_newline (c : ascii) : bool :=
  negb (Ascii.eqb c (ascii_of_nat 10)).

Definition not_lt (c : ascii) : bool := negb (Ascii.eqb c "<"%char).

(** The string is empty or starts with white space. *)
Definition blank_start (s : string) : bool :=
  match s with
  | EmptyString => true
  | String c _ => JS.is_space c
  end.

(** Some character of the string is a hyphen. *)
Fixpoint hyphened (s : string) : bool :=
  match s with
  | EmptyString => false
  | String c s' => Ascii.eqb c "-"%char || hyphened s'
  end.

(* ===================================================================== *)
(** ** openAIChatToTextGenerationStream
       (src/lib/server/endpoints/openai/openAIChatToTextGenerationStream.ts) *)
(* ===================================================================== *)

Module Adapter.

(** One entry of [delta.tool_calls]. *)
Record ToolCallChunk : Type := mkToolCallChunk {
  c_index : option Z;                      (* a number, or anything else *)
  c_id : option JS.Key;              (* see [JS.Key] *)
  c_name : option string;                  (* [function?.name], null is [None] *)
  c_arguments : option string              (* [function?.arguments] *)
}.

(** What the function reads of a [ChatCompletionChunk]: the delta of the
    first choice and its finish reason.  A field that is absent, or that
    is not a string, is [None]. *)
Record Chunk : Type := mkChunk {
  delta_role : option string;
  delta_content : option string;
  delta_reasoning_content : option string;
  delta_tool_calls : option (list ToolCallChunk);
  finish_reason : option string
}.

(** Entry of the local [toolArgBuffers]. *)
Record Buffer : Type := mkBuffer {
  b_id : option JS.Key;
  b_name : option string;
  b_args : string
}.

(** The local variables of the generator. *)
Record State : Type := mkState {
  generatedText : string;
  tokenId : Z;
  toolArgBuffers : gmap Z Buffer;
  pendingToolHeader : option string;       (* [None] is [null] *)
  currentToolName : option string;
  currentToolId : option string
}.

Definition initial : State := mkState "" 0 ∅ None None None.

(** A yielded [TextGenerationStreamOutput]: the token id and the fields
    [generate] reads. *)
Record Out : Type := mkOut {
  out_id : Z;
  output : Generate.Output
}.

(** [finishReason === "stop" || finishReason === "length"] *)
Definition is_last (c : Chunk) : bool :=
  match finish_reason c with
  | Some r => String.eqb r "stop" || String.eqb r "length"
  | None => false
  end.

(** [roleDelta === "tool"] *)
Definition is_tool_role (c : Chunk) : bool :=
  match delta_role c with
  | Some r => String.eqb r "tool"
  | None => false
  end.

(** Lines 60-72: one tool call of the delta. *)
Definition tool_call (bufs : gmap Z Buffer) (c : ToolCallChunk)
  : gmap Z Buffer * Generate.ToolCallDelta :=
  let index := default 0 (c_index c) in
  let id :=
    if Generate.truthy (JS.key <$> c_id c) then c_id c else None in
  let buf0 := default (mkBuffer None None "") (bufs !! index) in
  let buf1 :=
    match id with
    | Some _ => mkBuffer id (b_name buf0) (b_args buf0)
    | None => buf0
    end in
  let buf2 :=
    if Generate.truthy (c_name c)
    then mkBuffer (b_id buf1) (c_name c) (b_args buf1)
    else buf1 in
  let buf3 :=
    match c_arguments c with
    | Some chunk => mkBuffer (b_id buf2) (b_name buf2) (b_args buf2 +:+ chunk)
    | None => buf2
    end in
  (<[index := buf3]> bufs,
   Generate.mkToolCallDelta index id (c_name c) (c_arguments c)).

Fixpoint tool_calls (bufs : gmap Z Buffer) (cs : list ToolCallChunk)
  : gmap Z Buffer * list Generate.ToolCallDelta :=
  match cs with
  | [] => (bufs, [])
  | c :: cs' =>
      let first := tool_call bufs c in
      let others := tool_calls (fst first) cs' in
      (fst others, snd first :: snd others)
  end.

(** [/^\s*Tool\[([^\]]+)\]\s+(\S+)\s*$/.exec(header)]: the two groups.
    No class of the pattern overlaps what follows it, so every
    repetition takes its longest run. *)
Definition parse_tool_header (header : string) : option (string * string) :=
  let s1 := snd (JS.span JS.is_space header) in
  if JS.startsWith s1 "Tool[" then
    let '(name, s2) :=
      JS.span not_bracket (JS.sdrop 5 s1) in
    if String.eqb name "" then None else
    match s2 with
    | String _ s3 =>
        let '(ws, s4) := JS.span JS.is_space s3 in
        if String.eqb ws "" then None else
        let '(id, s5) := JS.span not_space s4 in
        if String.eqb id "" then None else
        if String.eqb (snd (JS.span JS.is_space s5)) "" then Some (name, id)
        else None
    | EmptyString => None
    end
  else None.

(** Lines 78-117: a chunk with role [tool]. *)
Definition tool_chunk (st : State) (c : Chunk)
  : State * Generate.ToolResultDelta :=
  let chunk := default "" (delta_content c) in
  let waiting :=
    match pendingToolHeader st with
    | Some _ => true
    | None => negb (Generate.truthy (currentToolName st))
    end in
  if waiting then
    let pending := default "" (pendingToolHeader st) +:+ chunk in
    let newlineIndex := JS.indexOf pending Generate.nl in
    if negb (newlineIndex =? -1) then
      let header := JS.slice pending 0 newlineIndex in
      let rest := JS.slice_from pending (newlineIndex + 1) in
      let '(name, id) :=
        match parse_tool_header header with
        | Some (n, i) => (Some n, Some i)
        | None => (currentToolName st, currentToolId st)
        end in
      (mkState (generatedText st) (tokenId st) (toolArgBuffers st) None name id,
       Generate.mkToolResultDelta id name (Some rest))
    else
      (mkState (generatedText st) (tokenId st) (toolArgBuffers st)
               (Some pending) (currentToolName st) (currentToolId st),
       Generate.mkToolResultDelta None None (Some ""))
  else
    (st,
     Generate.mkToolResultDelta (currentToolId st) (currentToolName st)
                                (Some chunk)).

(** The body of the [for await] loop (lines 22-128). *)
Definition step (st : State) (c : Chunk) : State * Out :=
  let last := is_last c in
  let id := tokenId st in
  let reasoningDelta :=
    match delta_reasoning_content c with
    | Some r => if 0 <? JS.len r then Some r else None
    | None => None
    end in
  let calls := tool_calls (toolArgBuffers st) (default [] (delta_tool_calls c)) in
  let toolCallDeltas :=
    match delta_tool_calls c with
    | Some (_ :: _) => Some (snd calls)
    | _ => None
    end in
  let st1 :=
    mkState (generatedText st) (id + 1)
            (match delta_tool_calls c with
             | Some (_ :: _) => fst calls
             | _ => toolArgBuffers st
             end)
            (pendingToolHeader st) (currentToolName st) (currentToolId st) in
  if is_tool_role c then
    let result := tool_chunk st1 c in
    (fst result,
     mkOut id (Generate.mkOutput "" last None reasoningDelta toolCallDeltas
                                 (Some (snd result))))
  else
    let content := default "" (delta_content c) in
    if negb (String.eqb content "") then
      let text := generatedText st1 +:+ content in
      (mkState text (tokenId st1) (toolArgBuffers st1)
               (pendingToolHeader st1) (currentToolName st1)
               (currentToolId st1),
       mkOut id (Generate.mkOutput content last
                                   (if last then Some text else None)
                                   reasoningDelta toolCallDeltas None))
    else
      (st1,
       mkOut id (Generate.mkOutput "" last None reasoningDelta
                                   toolCallDeltas None)).

(** The outputs yielded for a list of chunks, and the state after them. *)
Fixpoint run (st : State) (chunks : list Chunk) : State * list Out :=
  match chunks with
  | [] => (st, [])
  | c :: rest =>
      let first := step st c in
      let others := run (fst first) rest in
      (fst others, snd first :: snd others)
  end.

(** The generator as a provider stream: [err] is the error with which
    the completion stream ends, if it does. *)
Definition openAIChatToTextGenerationStream (chunks : list Chunk)
           (err : option string) : Generate.ProviderStream :=
  Generate.mkStream (map output (snd (run initial chunks))) err.

(** An assistant chunk with text content and nothing else. *)
Definition text_chunk (content : string) (finish : option string) : Chunk :=
  mkChunk (Some "assistant") (Some content) None None finish.

(** A chunk of a tool result. *)
Definition tool_result_chunk (content : string) : Chunk :=
  mkChunk (Some "tool") (Some content) None None None.

(** The content a chunk adds to the assistant text. *)
Definition assistant_content (c : Chunk) : string :=
  if is_tool_role c then "" else default "" (delta_content c).

(** The assistant text of a list of chunks. *)
Definition assistant_text (chunks : list Chunk) : string :=
  String.concat "" (map assistant_content chunks).





(** No tool name is known yet: a tool chunk is read as (part of) a
    header line. *)
Definition waiting (st : State) : Prop :=
  Generate.truthy (currentToolName st) = false.

(** The [toolResultDelta] of each output. *)
Definition tool_results (outs : list Out)
  : list (option Generate.ToolResultDelta) :=
  map (fun o => Generate.toolResultDelta (output o)) outs.

End Adapter.

(* ===================================================================== *)
(** ** How [generate] reads a provider stream *)
(* ===================================================================== *)

Module Streams.

Import Generate.

(** The branch of the loop body that follows the side channels
    (lines 150-327). *)
Definition main_branch (env : Env) (ctx : GenerateContext) (i : nat)
           (l : Locals) (o : Output) : Locals * list MessageUpdate * Control :=
  match generated_text o with
  | Some gt =>
      if negb (String.eqb gt "") then final_step env ctx i l o gt
      else token_step env ctx i l o
  | None => token_step env ctx i l o
  end.

(** The output is an ordinary token: no generated text, not special. *)
Definition streamed (o : Output) : bool :=
  negb (truthy (generated_text o)) && negb (token_special o).

(** The output carries the generated text. *)
Definition closing (o : Output) : bool := truthy (generated_text o).

(** Whatever the abort registry holds is not newer than the prompt. *)
Definition stale_aborts (env : Env) (ctx : GenerateContext) : Prop :=
  forall (i : nat) (date : Z),
    getAbortTime env i = Some date -> date <= promptedAt ctx.

(** The stream [generate] iterates over (lines 47-52). *)
Definition provider_stream (ctx : GenerateContext) (preprompt : option string)
  : ProviderStream :=
  endpoint ctx
    (mkArgs (messages ctx) preprompt (isContinue ctx)
            (default false (forceMultimodal ctx) || model_multimodal (model ctx))).

(** The model extracts its answer from the reasoning: regex or
    summarize mode. *)
Definition extracts (m : Model) : bool :=
  match model_reasoning m with
  | Some (Regex _) | Some Summarize => true
  | _ => false
  end.

(** The auxiliary model streams no token of its own, neither as answer
    nor as reasoning. *)
Definition silent_aux (env : Env) : Prop :=
  forall prompt : string,
    stream_tokens (fst (generateFromDefaultEndpoint env prompt)) = []
    /\ reasoning_tokens (fst (generateFromDefaultEndpoint env prompt)) = [].

(** The reasoning delta an output contributes (lines 66-74). *)
Definition side_reasoning (o : Output) : list string :=
  match reasoningDelta o with
  | Some d => if 0 <? JS.len d then [d] else []
  | None => []
  end.

(** What an output puts on the reasoning stream of a model that extracts
    its answer: its reasoning delta, and its token when it is an
    ordinary one. *)
Definition thought (o : Output) : list string :=
  side_reasoning o ++ (if streamed o then [token_text o] else []).

(** While the tokens are appended to the reasoning buffer, the end
    marker does not show up in it. *)
Fixpoint calm (endToken buffer : string) (tokens : list string) : bool :=
  match tokens with
  | [] => true
  | t :: rest =>
      (JS.lastIndexOf (buffer +:+ t) endToken =? -1)
      && calm endToken (buffer +:+ t) rest
  end.

(** The token is neither of the two markers. *)
Definition unmarked (beginToken endToken t : string) : bool :=
  negb (String.eqb t beginToken) && negb (String.eqb t endToken).







End Streams.

(* ===================================================================== *)
(** ** Links between the messages of a conversation *)
(* ===================================================================== *)

Module Forest.

Import Encoder.

(** The child [c] of [m] is a message of the list, and its ancestors are
    those of [m] followed by [m]. *)
Definition child_of (messages : list Message) (m : Message) (c : string)
  : bool :=
  existsb (fun mc =>
             String.eqb (id mc) c
             && bool_decide (ancestors mc
                             = Some (default [] (ancestors m) ++ [id m])))
          messages.

(** Every entry of a children list refers to such a message. *)
Definition linked (messages : list Message) : bool :=
  forallb (fun m => forallb (child_of messages m) (default [] (children m)))
          messages.

(** The id occurs nowhere in the messages: not as an id, not among the
    ancestors, which every message has, and not among the children. *)
Definition unmentioned (messageId : string) (messages : list Message) : Prop :=
  forall m : Message,
    In m messages ->
    id m <> messageId
    /\ (exists a, ancestors m = Some a /\ ~ In messageId a)
    /\ ~ In messageId (default [] (children m)).

End Forest.

(* ===================================================================== *)
(** ** DELETE /api/conversation/[id]/message/[messageId]
       (src/routes/api/conversation/[id]/message/[messageId]/+server.ts) *)
(* ===================================================================== *)

Module Route.

Import Encoder.

(** The route up to the database write: the status and message of the
    error, or the messages handed to [updateMessagesForLocals].
    [messageId] is the route parameter and [conversation] the messages
    of what [findByIdForLocals] found. *)
Definition DELETE (messageId : option string)
           (conversation : option (list Message))
  : (Z * string) + list Message :=
  if negb (Generate.truthy messageId) then inl (400, "Invalid message id")
  else
    match conversation with
    | None => inl (404, "Conversation not found")
    | Some messages =>
        let messageId := default "" messageId in
        inr (map (Tree.unlink messageId)
                 (List.filter (Tree.kept messageId) messages))
    end.

End Route.

(* ===================================================================== *)
(** ** Skills: activation and the enhanced preprompt
       (src/lib/server/skills/skillRegistry.ts, skillIntegration) *)
(* ===================================================================== *)

Module Skills.

(** [c.toLowerCase()] on one 8-bit code unit: the Latin capitals and the
    capitals of the Latin-1 supplement. *)
Definition lower_char (c : ascii) : ascii :=
  let n := nat_of_ascii c in
  if ((65 <=? n) && (n <=? 90) || (192 <=? n) && (n <=? 214)
      || (216 <=? n) && (n <=? 222))%nat
  then ascii_of_nat (n + 32) else c.

(** [s.toLowerCase()] *)
Fixpoint toLowerCase (s : string) : string :=
  match s with
  | EmptyString => EmptyString
  | String c s' => String (lower_char c) (toLowerCase s')
  end.

(** [s.split(re)] for the pattern of one or more white space: [cur] is
    the piece being read, [in_gap] tells that the last character was
    white space. *)
Fixpoint split_ws_from (in_gap : bool) (cur s : string) : list string :=
  match s with
  | EmptyString => [cur]
  | String c s' =>
      if JS.is_space c
      then if in_gap then split_ws_from true EmptyString s'
           else cur :: split_ws_from true EmptyString s'
      else split_ws_from false (cur +:+ String c EmptyString) s'
  end.

Definition split_ws (s : string) : list string :=
  split_ws_from false EmptyString s.

(** [s.split(sep)] for a one-character separator. *)
Fixpoint split_on_from (sep : ascii) (cur s : string) : list string :=
  match s with
  | EmptyString => [cur]
  | String c s' =>
      if Ascii.eqb c sep then cur :: split_on_from sep EmptyString s'
      else split_on_from sep (cur +:+ String c EmptyString) s'
  end.

Definition split_on (sep : ascii) (s : string) : list string :=
  split_on_from sep EmptyString s.

(** [s.includes(sub)] on strings. *)
Definition includes (s sub : string) : bool :=
  negb (JS.indexOf s sub =? -1).

(** [s.replace(re, " ")] for the global pattern of one hyphen. *)
Fixpoint unhyphenate (s : string) : string :=
  match s with
  | EmptyString => EmptyString
  | String c s' =>
      String (if Ascii.eqb c "-"%char then " "%char else c) (unhyphenate s')
  end.

(** The fields of a [Skill] that the registry and the prompt read.  The
    id is also the key under which [activationReasons], a plain object,
    records the reason of an activation: see [JS.Key]. *)
Record Skill : Type := mkSkill {
  skill_key : JS.Key;
  skill_name : string;
  skill_description : string;
  skill_tags : option (list string);
  skill_instructions : string;
  skill_enabled : bool
}.

Record SkillManifestEntry : Type := mkEntry {
  entry_id : string;
  entry_name : string;
  entry_description : string;
  entry_tags : option (list string)
}.

(** [skill.id] *)
Definition skill_id (s : Skill) : string := JS.key (skill_key s).

(** [SkillRegistry]: the values of the map in insertion order (the key
    of a skill is its id) and the initialised flag. *)
Record SkillRegistry : Type := mkRegistry {
  skills : list Skill;
  isInitialized : bool
}.

Definition getSkill (r : SkillRegistry) (id : string) : option Skill :=
  List.find (fun s => String.eqb (skill_id s) id) (skills r).

Definition getSkillsByIds (r : SkillRegistry) (ids : list string)
  : list Skill :=
  omap (getSkill r) ids.

Definition getEnabledSkills (r : SkillRegistry) : list Skill :=
  List.filter skill_enabled (skills r).

Definition getManifest (r : SkillRegistry) : list SkillManifestEntry :=
  map (fun s => mkEntry (skill_id s) (skill_name s) (skill_description s)
                        (skill_tags s))
      (getEnabledSkills r).

Record SkillSettings : Type := mkSettings {
  enabledSkills : list string;
  conversationSkillOverrides : gmap string (list string)
}.

(** [DEFAULT_SKILL_SETTINGS], whose [enabledSkills] is one array created
    empty when the module is loaded; [shared] is what it holds now. *)
Definition DEFAULT_SKILL_SETTINGS (shared : list string) : SkillSettings :=
  mkSettings shared ∅.

(** The conversation id is the key of a lookup in
    [conversationSkillOverrides], a plain object: see [JS.Key]. *)
Record SkillActivationContext : Type := mkActivation {
  messageContent : string;
  conversationId : option JS.Key;
  modelId : string;
  previouslyActivatedSkills : option (list string)
}.

Record SkillActivationResult : Type := mkResult {
  activatedSkills : list Skill;
  activationReasons : gmap string string
}.

(** The ids a detection looks at: the override of the conversation, or
    the skills the user enabled. *)
Definition relevantSkillIds (context : SkillActivationContext)
           (settings : SkillSettings) : list string :=
  let conversationSkillIds :=
    match conversationId context with
    | Some id =>
        if negb (String.eqb (JS.key id) "")
        then conversationSkillOverrides settings !! JS.key id
        else None
    | None => None
    end in
  default (enabledSkills settings) conversationSkillIds.

Definition skillKeywords (skill : Skill) : list string :=
  split_on "-"%char (toLowerCase (skill_name skill))
    ++ split_ws (toLowerCase (skill_description skill))
    ++ map toLowerCase (default [] (skill_tags skill)).

(** The predicate of [messageWords.filter]. *)
Definition matches (keywords : list string) (word : string) : bool :=
  existsb (fun keyword => includes keyword word || includes word keyword)
          keywords.

(** [activatedSkills.includes(skill)]: the skills come from the
    registry, where an object is known by its id. *)
Definition listed (activated : list Skill) (skill : Skill) : bool :=
  existsb (fun s => String.eqb (skill_id s) (skill_id skill)) activated.

Definition push (skill : Skill) (reason : string)
           (acc : list Skill * gmap string string)
  : list Skill * gmap string string :=
  (fst acc ++ [skill], <[skill_id skill := reason]> (snd acc)).

(** The body of the loop over the candidate skills. *)
Definition consider (content : string) (messageWords : list string)
           (acc : list Skill * gmap string string) (skill : Skill)
  : list Skill * gmap string string :=
  let matchedKeywords :=
    List.filter (matches (skillKeywords skill)) messageWords in
  let acc1 :=
    match matchedKeywords with
    | [] => acc
    | _ :: _ =>
        push skill ("Matched keywords: " +:+ String.concat ", " matchedKeywords)
             acc
    end in
  if includes (toLowerCase content) (unhyphenate (skill_name skill))
     && negb (listed (fst acc1) skill)
  then push skill "Explicitly mentioned in message" acc1
  else acc1.

(** The body of the loop over the skills activated before. *)
Definition recall (r : SkillRegistry)
           (acc : list Skill * gmap string string) (skillId : string)
  : list Skill * gmap string string :=
  match getSkill r skillId with
  | Some skill =>
      if negb (listed (fst acc) skill)
      then push skill "Previously activated in conversation" acc
      else acc
  | None => acc
  end.

Definition detectSkillsForActivation (r : SkillRegistry)
           (context : SkillActivationContext) (settings : SkillSettings)
  : SkillActivationResult :=
  let candidateSkills := getSkillsByIds r (relevantSkillIds context settings) in
  let messageWords := split_ws (toLowerCase (messageContent context)) in
  let acc :=
    fold_left (consider (messageContent context) messageWords)
              candidateSkills ([], ∅) in
  let acc' :=
    fold_left (recall r) (default [] (previouslyActivatedSkills context)) acc in
  mkResult (fst acc') (snd acc').

Definition manifest_line (entry : SkillManifestEntry) : string :=
  "- **" +:+ entry_name entry +:+ "**: " +:+ entry_description entry
    +:+ Generate.nl.

Definition skill_section (skill : Skill) : string :=
  "### " +:+ skill_name skill +:+ Generate.nl +:+ Generate.nl
    +:+ skill_instructions skill +:+ Generate.nl +:+ Generate.nl.

Definition buildSkillsPrompt (activated : list Skill)
           (allSkillsManifest : list SkillManifestEntry) : string :=
  match activated, allSkillsManifest with
  | [], [] => ""
  | _, _ =>
      Generate.nl +:+ Generate.nl +:+ "# Available Skills"
        +:+ Generate.nl +:+ Generate.nl
        +:+ match allSkillsManifest with
            | [] => ""
            | _ :: _ =>
                "The following skills are available to enhance your responses:"
                  +:+ Generate.nl +:+ Generate.nl
                  +:+ String.concat "" (map manifest_line allSkillsManifest)
                  +:+ Generate.nl
            end
        +:+ match activated with
            | [] => ""
            | _ :: _ =>
                "## Active Skills" +:+ Generate.nl +:+ Generate.nl
                  +:+ "The following skills have been activated for this conversation:"
                  +:+ Generate.nl +:+ Generate.nl
                  +:+ String.concat "" (map skill_section activated)
            end
  end.

(** What [enhancePrepromptWithSkills] reads of a message. *)
Record Msg : Type := mkMsg {
  m_from : string;
  m_content : string;
  m_activatedSkills : option (list string)
}.

(** The query of a lookup: [{ userId }] or [{ sessionId }]. *)
Inductive Query : Type :=
| ByUser (userId : string)
| BySession (sessionId : option string).

Record Env : Type := mkEnv {
  (** [config.ENABLE_SKILLS] *)
  ENABLE_SKILLS : string;
  registry : SkillRegistry;
  (** [new ObjectId(userId)]: the message of the error it throws, if any *)
  ObjectId_error : string -> option string;
  (** [collections.skillSettings?.findOne(query)]: [None] when nothing
      is found or the lookup fails *)
  findOne : Query -> option SkillSettings;
  (** [collections.skillSettings?.updateOne(query, ...)]: the message
      of the error it throws, if any *)
  updateOne_error : Query -> option string
}.

(** [getSkillSettings].  [shared] is the array held by
    [DEFAULT_SKILL_SETTINGS.enabledSkills]: the copy [{ ...DEFAULT }] is
    shallow, so the settings returned by default hold that same array,
    which the flag of the result records.  The result is the settings
    or the error thrown. *)
Definition getSkillSettings (env : Env) (shared : list string)
           (userId sessionId : option string)
  : string + (SkillSettings * bool) :=
  let by_default := inr (DEFAULT_SKILL_SETTINGS shared, true) in
  if negb (Generate.truthy userId) && negb (Generate.truthy sessionId)
  then by_default
  else
    if Generate.truthy userId
    then match ObjectId_error env (default "" userId) with
         | Some msg => inl msg
         | None =>
             match findOne env (ByUser (default "" userId)) with
             | Some settings => inr (settings, false)
             | None => by_default
             end
         end
    else match findOne env (BySession sessionId) with
         | Some settings => inr (settings, false)
         | None => by_default
         end.

(** [saveSkillSettings]: the documents written and the error thrown, if
    any. *)
Definition saveSkillSettings (env : Env) (settings : SkillSettings)
           (userId sessionId : option string)
  : list (Query * SkillSettings) * option string :=
  let write query :=
    match updateOne_error env query with
    | Some msg => ([], Some msg)
    | None => ([(query, settings)], None)
    end in
  if negb (Generate.truthy userId) && negb (Generate.truthy sessionId)
  then ([], Some "Either userId or sessionId is required")
  else
    if Generate.truthy userId
    then match ObjectId_error env (default "" userId) with
         | Some msg => ([], Some msg)
         | None => write (ByUser (default "" userId))
         end
    else write (BySession sessionId).

(** [Array.from] of the set of ids: each id once, in the order of its
    first occurrence. *)
Definition add_id (seen : list string) (skillId : string) : list string :=
  if JS.includes seen skillId then seen else seen ++ [skillId].

Definition getPreviouslyActivatedSkills (messages : list Msg) : list string :=
  fold_left add_id
            (flat_map (fun m => default [] (m_activatedSkills m)) messages) [].

(** [messages.slice().reverse().find(...)]: the last user message. *)
Definition lastUserMessage (messages : list Msg) : option Msg :=
  last (List.filter (fun m => String.eqb (m_from m) "user") messages).

(** [enhancePrepromptWithSkills]: the enhanced preprompt and the
    activated skills, or the error thrown.  [convId] is
    [conv._id.toString()]. *)
Definition enhancePrepromptWithSkills (env : Env) (shared : list string)
           (preprompt : option string)
           (convId : JS.Key) (convModel : string) (messages : list Msg)
           (userId sessionId : option string)
  : string + (string * list Skill) :=
  let unchanged := inr (default "" preprompt, []) in
  if negb (String.eqb (ENABLE_SKILLS env) "true") then unchanged
  else if negb (isInitialized (registry env)) then unchanged
  else
    match getSkillSettings env shared userId sessionId with
    | inl msg => inl msg
    | inr (skillSettings, _) =>
        match enabledSkills skillSettings with
        | [] => unchanged
        | _ :: _ =>
            match lastUserMessage messages with
            | None => unchanged
            | Some lastMessage =>
                let activationContext :=
                  mkActivation (m_content lastMessage) (Some convId) convModel
                               (Some (getPreviouslyActivatedSkills messages)) in
                let activationResult :=
                  detectSkillsForActivation (registry env) activationContext
                                            skillSettings in
                let manifest :=
                  List.filter
                    (fun m => JS.includes (enabledSkills skillSettings)
                                          (entry_id m))
                    (getManifest (registry env)) in
                let skillsPrompt :=
                  buildSkillsPrompt (activatedSkills activationResult) manifest in
                inr (default "" preprompt +:+ skillsPrompt,
                     activatedSkills activationResult)
            end
        end
    end.

(** [enableSkill]: the shared default array afterwards, the documents
    written and the error thrown, if any.  [push] changes the array in
    place, whoever else holds it. *)
Definition enableSkill (env : Env) (shared : list string) (skillId : string)
           (userId sessionId : option string)
  : list string * list (Query * SkillSettings) * option string :=
  match getSkillSettings env shared userId sessionId with
  | inl msg => (shared, [], Some msg)
  | inr (settings, aliased) =>
      if negb (JS.includes (enabledSkills settings) skillId)
      then
        let pushed :=
          mkSettings (enabledSkills settings ++ [skillId])
                     (conversationSkillOverrides settings) in
        let saved := saveSkillSettings env pushed userId sessionId in
        (if aliased then shared ++ [skillId] else shared, fst saved, snd saved)
      else (shared, [], None)
  end.

(** Nothing is stored for this user or session: [getSkillSettings]
    answers with the default. *)
Definition without_settings (env : Env) (userId sessionId : option string)
  : bool :=
  if Generate.truthy userId
  then bool_decide (ObjectId_error env (default "" userId) = None)
       && bool_decide (findOne env (ByUser (default "" userId)) = None)
  else if Generate.truthy sessionId
       then bool_decide (findOne env (BySession sessionId) = None)
       else true.

(** What is known of an activated skill: it is the skill the registry
    holds under its id, its id was asked for, and a reason is recorded. *)
Definition known (r : SkillRegistry) (ids : list string)
           (acc : list Skill * gmap string string) : Prop :=
  forall s, s ∈ fst acc ->
            getSkill r (skill_id s) = Some s /\ skill_id s ∈ ids
            /\ is_Some (snd acc !! skill_id s).

(** [x] occurs in [s]. *)
Definition occurs (s x : string) : Prop :=
  exists a c, s = a +:+ (x +:+ c).

(** The content is empty, or starts or ends with white space. *)
Definition blank_edge (content : string) : bool :=
  match content with
  | EmptyString => true
  | String c _ =>
      JS.is_space c
      || negb (String.eqb (JS.trimEnd content) content)
  end.

End Skills.

(* ===================================================================== *)
(** ** What a turn leaves behind *)
(* ===================================================================== *)

(** The tool calls announced by a stream, in order. *)
Definition tool_calls (evs : list MessageUpdate) : list (string * ToolCall) :=
  flat_map (fun e => match e with ToolCallUpdate u c => [(u, c)] | _ => [] end)
           evs.

(** The titles of the [Title] events of a stream, in order. *)
Definition titles (evs : list MessageUpdate) : list string :=
  flat_map (fun e => match e with Title t => [t] | _ => [] end) evs.

(** The title writes of a run of [update] that starts at position [k]:
    one write per [Title] event, at the time the event is handled. *)
Fixpoint title_writes (clock : nat -> Z) (k : nat) (evs : list MessageUpdate)
  : list Encoder.DbWrite :=
  match evs with
  | [] => []
  | Title t :: rest =>
      Encoder.SetTitle (Encoder.sanitize_title t) (clock k)
        :: title_writes clock (S k) rest
  | _ :: rest => title_writes clock (S k) rest
  end.

(** The target message keeps its place in the array and in the tree. *)
Definition same_place (st st' : Encoder.State) : Prop :=
  Encoder.before st' = Encoder.before st
  /\ Encoder.after st' = Encoder.after st
  /\ Encoder.id (Encoder.messageToWriteTo st')
     = Encoder.id (Encoder.messageToWriteTo st)
  /\ Encoder.from (Encoder.messageToWriteTo st')
     = Encoder.from (Encoder.messageToWriteTo st)
  /\ Encoder.ancestors (Encoder.messageToWriteTo st')
     = Encoder.ancestors (Encoder.messageToWriteTo st)
  /\ Encoder.children (Encoder.messageToWriteTo st')
     = Encoder.children (Encoder.messageToWriteTo st).

(* ===================================================================== *)
(** ** Concrete inputs of the further properties *)
(* ===================================================================== *)

Module Samples.

(** A completion stream with a tool chunk between two text chunks; the
    last chunk carries text and the finish reason. *)
Definition hello_chunks : list Adapter.Chunk :=
  [Adapter.text_chunk "Hel" None; Adapter.tool_result_chunk "x";
   Adapter.text_chunk "lo " (Some "stop")].

(** The closing chunk of a stream as the OpenAI API sends it: an empty
    delta with the finish reason. *)
Definition stop_chunk : Adapter.Chunk :=
  Adapter.mkChunk None None None None (Some "stop").

Definition hello_body : list Adapter.Chunk :=
  [Adapter.text_chunk "Hel" None; Adapter.text_chunk "lo " None].






(** Two skills as the loader builds them, and a registry that holds
    them. *)
Definition pdf : Skills.Skill :=
  Skills.mkSkill (JS.mkKey "pdf-tools" eq_refl) "pdf-tools"
                 "Work with PDF files" None
                 "Use the PDF toolkit." true.

Definition charts : Skills.Skill :=
  Skills.mkSkill (JS.mkKey "charts" eq_refl) "charts" "Draw diagrams"
                 (Some ["plot"])
                 "Use the chart library." true.

Definition skill_registry : Skills.SkillRegistry :=
  Skills.mkRegistry [pdf; charts] true.

(** Skills switched on, and a collection that stores the settings of the
    session [s1] only. *)
Definition skills_env : Skills.Env :=
  Skills.mkEnv "true" skill_registry (fun _ => None)
               (fun query =>
                  match query with
                  | Skills.BySession (Some "s1") =>
                      Some (Skills.mkSettings ["pdf-tools"; "charts"] ∅)
                  | _ => None
                  end)
               (fun _ => None).

(** The id of a conversation. *)
Definition conversation_1 : JS.Key := JS.mkKey "c1" eq_refl.

Definition conversation_2 : JS.Key := JS.mkKey "c2" eq_refl.

Definition question (content : string) : Skills.SkillActivationContext :=
  Skills.mkActivation content (Some conversation_1) "model" None.

End Samples.

(* ===================================================================== *)
(** * Properties *)
(* ===================================================================== *)

(** ** Strings *)

Section StringFacts.

Import JS.

Lemma app_cons (c : ascii) (a b : string) :
  String c a +:+ b = String c (a +:+ b).
Proof. reflexivity. Qed.

Lemma app_nil_s (b : string) : EmptyString +:+ b = b.
Proof. reflexivity. Qed.

Lemma length_app (a b : string) :
  String.length (a +:+ b) = (String.length a + String.length b)%nat.
Proof.
  induction a as [|c a IH]; [reflexivity |].
  rewrite app_cons. simpl. now rewrite IH.
Qed.

Lemma app_empty_r (a : string) : a +:+ EmptyString = a.
Proof.
  induction a as [|c a IH]; [reflexivity |].
  rewrite app_cons. now rewrite IH.
Qed.

Lemma app_assoc_s (a b c : string) : (a +:+ b) +:+ c = a +:+ (b +:+ c).
Proof.
  induction a as [|x a IH]; [reflexivity |].
  rewrite !app_cons. now rewrite IH.
Qed.

Lemma repeat_char_length (c : ascii) (n : nat) :
  String.length (repeat_char c n) = n.
Proof. induction n as [|n IH]; simpl; [reflexivity | now rewrite IH]. Qed.

Lemma startsWith_app (a b : string) : startsWith (a +:+ b) a = true.
Proof.
  unfold startsWith. induction a as [|c a IH].
  - now destruct b.
  - rewrite app_cons. simpl.
    destruct (ascii_dec c c) as [_|n]; [exact IH | now elim n].
Qed.

Lemma padEnd_length (s : string) (n : nat) (c : ascii) :
  String.length (padEnd s n c) = Nat.max n (String.length s).
Proof. unfold padEnd. rewrite length_app, repeat_char_length. lia. Qed.


Lemma sdrop_app (a b : string) : sdrop (String.length a) (a +:+ b) = b.
Proof.
  induction a as [|c a IH]; [now destruct b |].
  rewrite app_cons. simpl. exact IH.
Qed.

Lemma stake_all (s : string) : stake (String.length s) s = s.
Proof. induction s as [|c s IH]; simpl; [reflexivity | now rewrite IH]. Qed.


End StringFacts.

Section SearchFacts.

Import JS.


Lemma startsWith_refl (s : string) : startsWith s s = true.
Proof.
  rewrite <- (app_empty_r s) at 1. apply startsWith_app.
Qed.

Lemma len_app (a b : string) : len (a +:+ b) = len a + len b.
Proof. unfold len. rewrite length_app. lia. Qed.

Lemma len_nonneg (s : string) : 0 <= len s.
Proof. unfold len. lia. Qed.

Lemma indexOf_from_here (s p : string) (i : Z) :
  startsWith s p = true -> indexOf_from s p i = i.
Proof. intros H. destruct s; cbn [indexOf_from]; now rewrite H. Qed.




Lemma slice_empty (s : string) : slice s 0 0 = EmptyString.
Proof.
  unfold slice, clamp. simpl Z.ltb. cbv iota.
  pose proof (len_nonneg s).
  replace (Z.min 0 (len s)) with 0 by lia. reflexivity.
Qed.

Lemma slice_from_app (a b : string) : slice_from (a +:+ b) (len a) = b.
Proof.
  unfold slice_from, slice, clamp.
  pose proof (len_nonneg a) as Ha. pose proof (len_nonneg b) as Hb.
  rewrite len_app.
  destruct (Z.ltb_spec (len a) 0); [lia |].
  destruct (Z.ltb_spec (len a + len b) 0); [lia |].
  replace (Z.min (len a) (len a + len b)) with (len a) by lia.
  replace (Z.min (len a + len b) (len a + len b)) with (len a + len b) by lia.
  replace (Z.max (len a + len b - len a) 0) with (len b) by lia.
  unfold len. rewrite !Nat2Z.id, sdrop_app. apply stake_all.
Qed.

End SearchFacts.


Lemma slice_from_zero (s : string) : JS.slice_from s 0 = s.
Proof. exact (slice_from_app EmptyString s). Qed.

(** With nothing in the reasoning buffer the [tokens] branch leaves the
    text as it is. *)
Lemma remove_reasoning_empty_buffer (beginToken endToken text : string) :
  Generate.remove_reasoning beginToken endToken EmptyString text = text.
Proof.
  unfold Generate.remove_reasoning.
  destruct beginToken as [|c b].
  - cbn [String.eqb negb]. cbv iota.
    destruct endToken as [|d e].
    + change (JS.lastIndexOf "" "") with 0.
      change (JS.len "") with 0. cbn [Z.eqb negb andb Z.add]. cbv iota.
      now rewrite slice_empty, app_nil_s, slice_from_zero.
    + reflexivity.
  - reflexivity.
Qed.

(** ** The encoder *)

Section EncoderFacts.

Import Encoder.

Variable stringify : MessageUpdate -> string.
Variable isRouter : bool.

Lemma wire_update (init : string) (now : Z) (st : State) (e : MessageUpdate) :
  wire (update stringify isRouter init now st e)
  = wire st ++ wire_chunks stringify e.
Proof.
  unfold update.
  destruct e as [s m|t|u c|u r|u m|u n|tk|n sh mi|tx i|tk|s|r m];
    try (destruct s); try (destruct tk as [|c tk]);
    try (destruct isRouter);
    simpl; rewrite <- ?app_assoc, ?app_nil_r; reflexivity.
Qed.

Lemma wire_updates_from (init : string) (clock : nat -> Z)
      (evs : list MessageUpdate) :
  forall (k : nat) (st : State),
    wire (updates_from stringify isRouter init clock k st evs)
    = wire st ++ flat_map (wire_chunks stringify) evs.
Proof.
  induction evs as [|e evs IH]; intros k st.
  - simpl. now rewrite app_nil_r.
  - change (updates_from stringify isRouter init clock k st (e :: evs))
      with (updates_from stringify isRouter init clock (S k)
              (update stringify isRouter init (clock k) st e) evs).
    rewrite IH, wire_update. simpl. now rewrite <- app_assoc.
Qed.

(** An event that is neither a Stream token nor a FinalAnswer leaves
    the content and the interrupted flag of the message alone. *)
Lemma update_other_content (init : string) (now : Z) (st : State)
      (e : MessageUpdate) :
  is_Stream e = false -> is_FinalAnswer e = false ->
  content (messageToWriteTo (update stringify isRouter init now st e))
  = content (messageToWriteTo st)
  /\ interrupted (messageToWriteTo (update stringify isRouter init now st e))
     = interrupted (messageToWriteTo st).
Proof.
  intros Hs Hf. unfold update.
  destruct e as [s m|t|u c|u r|u m|u n|tk|n sh mi|tx i|tk|s|r m];
    try discriminate; try (destruct s); try (destruct isRouter);
    simpl; split; reflexivity.
Qed.

Lemma update_stream_content (init : string) (now : Z) (st : State)
      (tk : string) :
  content (messageToWriteTo (update stringify isRouter init now st (Stream tk)))
  = content (messageToWriteTo st) +:+ tk
  /\ interrupted (messageToWriteTo
                    (update stringify isRouter init now st (Stream tk)))
     = interrupted (messageToWriteTo st).
Proof.
  unfold update. destruct tk as [|c tk]; simpl.
  - now rewrite app_empty_r.
  - split; reflexivity.
Qed.

End EncoderFacts.

Section TurnFacts.

Import Encoder.

Variable stringify : MessageUpdate -> string.
Variable isRouter : bool.



(** Without a [FinalAnswer], the content of the message grows by the
    Stream tokens and the interrupted flag keeps its value. *)
Lemma updates_from_cons (init : string) (clock : nat -> Z) (k : nat)
      (st : State) (e : MessageUpdate) (evs : list MessageUpdate) :
  Encoder.updates_from stringify isRouter init clock k st (e :: evs)
  = Encoder.updates_from stringify isRouter init clock (S k)
      (Encoder.update stringify isRouter init (clock k) st e) evs.
Proof. reflexivity. Qed.

Lemma concat_cons (t : string) (ts : list string) :
  String.concat EmptyString (t :: ts) = t +:+ String.concat EmptyString ts.
Proof.
  destruct ts as [|t' ts]; simpl; [now rewrite app_empty_r | reflexivity].
Qed.

Lemma partial_content (init : string) (clock : nat -> Z)
      (evs : list MessageUpdate) :
  final_answers evs = [] ->
  forall (k : nat) (st : State),
    content (messageToWriteTo
               (Encoder.updates_from stringify isRouter init clock k st evs))
    = content (messageToWriteTo st)
        +:+ String.concat EmptyString (stream_tokens evs)
    /\ interrupted (messageToWriteTo
                      (Encoder.updates_from stringify isRouter init clock k st evs))
       = interrupted (messageToWriteTo st).
Proof.
  induction evs as [|e evs IH]; intros Hfa k st.
  - simpl. now rewrite app_empty_r.
  - assert (Hrest : final_answers evs = []).
    { destruct e; simpl in Hfa; try exact Hfa. discriminate Hfa. }
    rewrite updates_from_cons.
    destruct (IH Hrest (S k)
                 (Encoder.update stringify isRouter init (clock k) st e))
      as [Hc Hi].
    rewrite Hc, Hi. clear Hc Hi IH.
    destruct (is_Stream e) eqn:Hs.
    + destruct e; try discriminate Hs.
      destruct (update_stream_content stringify isRouter init (clock k) st token)
        as [Hc' Hi'].
      rewrite Hc', Hi'. split; [|reflexivity].
      rewrite app_assoc_s. f_equal.
      change (stream_tokens (Stream token :: evs))
        with (token :: stream_tokens evs).
      now rewrite concat_cons.
    + assert (Hf : is_FinalAnswer e = false).
      { destruct e; try reflexivity. discriminate Hfa. }
      destruct (update_other_content stringify isRouter init (clock k) st e Hs Hf)
        as [Hc' Hi'].
      rewrite Hc', Hi'. split; [|reflexivity].
      f_equal. destruct e; try reflexivity. discriminate Hs.
Qed.

End TurnFacts.

(** C10. A Stream update with an empty token is dropped by [update]: the
    state after the event (wire, message content, persisted updates, title,
    time stamp of the last token, database writes) is the state before it,
    and a turn goes on as if the event had not been there. *)
Theorem empty_stream_token_dropped :
  forall (stringify : MessageUpdate -> string) (isRouter : bool)
         (initialMessageContent : string) (now : Z) (st : Encoder.State),
    Encoder.update stringify isRouter initialMessageContent now st
                   (Stream EmptyString) = st
    /\ Encoder.wire_chunks stringify (Stream EmptyString) = []
    /\ forall (clock : nat -> Z) (k : nat) (evs : list MessageUpdate),
         Encoder.updates_from stringify isRouter initialMessageContent clock k st
                              (Stream EmptyString :: evs)
         = Encoder.updates_from stringify isRouter initialMessageContent clock
                                (S k) st evs.
Proof.
  intros. repeat split; reflexivity.
Qed.

(** C9. Every chunk written to the wire comes from one event: a Stream
    event is written with its token padded at the end to at least 16
    characters (the token itself comes first), and the line of a
    FinalAnswer is followed at once by a block of 4096 spaces. *)
Theorem wire_padding :
  forall (stringify : MessageUpdate -> string) (isRouter : bool)
         (initialMessageContent : string) (clock : nat -> Z)
         (evs : list MessageUpdate) (k : nat) (st : Encoder.State),
    Encoder.wire (Encoder.updates_from stringify isRouter initialMessageContent
                                       clock k st evs)
    = Encoder.wire st ++ flat_map (Encoder.wire_chunks stringify) evs
    /\ (forall (c : ascii) (token : string),
          let padded := JS.padEnd (String c token) 16 Encoder.NUL in
          Encoder.wire_chunks stringify (Stream (String c token))
          = [stringify (Stream padded) +:+ Generate.nl]
          /\ String.length padded = Nat.max 16 (String.length (String c token))
          /\ JS.startsWith padded (String c token) = true)
    /\ (forall (text : string) (interrupted : bool),
          Encoder.wire_chunks stringify (FinalAnswer text interrupted)
          = [stringify (FinalAnswer text interrupted) +:+ Generate.nl;
             Encoder.padding])
    /\ Encoder.padding = JS.repeat_char " "%char 4096
    /\ String.length Encoder.padding = 4096%nat.
Proof.
  intros. split; [apply wire_updates_from |].
  split.
  - intros c token padded. split; [reflexivity |]. split.
    + apply padEnd_length.
    + apply startsWith_app.
  - split; [reflexivity |]. split; [reflexivity |].
    unfold Encoder.padding. apply repeat_char_length.
Qed.



(** ** Deleting a message *)

Section TreeFacts.

Import Encoder Tree.

Lemma includes_In (l : list string) (s : string) :
  JS.includes l s = true <-> In s l.
Proof.
  unfold JS.includes. rewrite existsb_exists. split.
  - intros [x [Hin Heq]]. apply String.eqb_eq in Heq. now subst.
  - intros Hin. exists s. split; [exact Hin | apply String.eqb_refl].
Qed.

Lemma includes_not_In (l : list string) (s : string) :
  JS.includes l s = false <-> ~ In s l.
Proof.
  rewrite <- includes_In. destruct (JS.includes l s); split; intros H;
    try reflexivity; try discriminate; try (intros H'; discriminate H').
  now elim H.
Qed.

Lemma without_absent (messageId : string) (c : list string) :
  ~ In messageId c -> without messageId c = c.
Proof.
  induction c as [|x c IH]; intros Hn; [reflexivity |].
  unfold without in *. simpl.
  destruct (String.eqb_spec x messageId) as [Heq|Hne].
  - elim Hn. now left.
  - simpl. f_equal. apply IH. intros H. apply Hn. now right.
Qed.

Lemma without_not_In (messageId : string) (c : list string) :
  ~ In messageId (without messageId c).
Proof.
  unfold without. rewrite filter_In. intros [_ H].
  now rewrite String.eqb_refl in H.
Qed.

Lemma set_children_same (m : Message) : set_children (children m) m = m.
Proof. now destruct m. Qed.

(** [unlink] takes the id out of the children list and changes nothing
    else. *)
Lemma unlink_spec (messageId : string) (m : Message) :
  unlink messageId m
  = set_children (option_map (without messageId) (children m)) m.
Proof.
  unfold unlink. destruct (children m) as [c|] eqn:Hc; simpl.
  - destruct (JS.includes c messageId) eqn:Hi; [reflexivity |].
    apply includes_not_In in Hi. rewrite (without_absent _ _ Hi).
    rewrite <- Hc. symmetry. apply set_children_same.
  - rewrite <- Hc. symmetry. apply set_children_same.
Qed.

Lemma kept_spec (messageId : string) (m : Message) :
  kept messageId m = true
  <-> id m <> messageId
      /\ exists a, ancestors m = Some a /\ ~ In messageId a.
Proof.
  unfold kept. rewrite andb_true_iff, negb_true_iff, String.eqb_neq.
  destruct (ancestors m) as [a|]; split.
  - intros [Hid Ha]. split; [exact Hid |]. exists a. split; [reflexivity |].
    apply includes_not_In. now apply negb_true_iff.
  - intros [Hid [a' [Ha Hn]]]. injection Ha as <-. split; [exact Hid |].
    apply negb_true_iff. now apply includes_not_In.
  - intros [_ H]. discriminate H.
  - intros [_ [a [H _]]]. discriminate H.
Qed.

End TreeFacts.

(** C2 (as stated, refuted). Deleting the interior node [a] of the branch
    root, a, b leaves only the root: the descendant [b] is removed with
    it. *)
Lemma deleteMessage_drops_descendants :
  Tree.deleteMessage Examples.branch "a"
  = inr [Examples.node "root" [] []]
  /\ ~ (exists remaining,
          Tree.deleteMessage Examples.branch "a" = inr remaining
          /\ In Examples.b_msg remaining).
Proof.
  split; [reflexivity |].
  intros [remaining [H Hin]]. vm_compute in H. injection H as <-.
  destruct Hin as [Hin|[]]. discriminate Hin.
Qed.

(** C2 (amended). For a message id present in the collection, the delete
    operation keeps exactly the messages that are not the message itself
    and whose ancestors list exists and does not hold the id; so the
    message goes together with all its descendants.  A message that stays
    has the id taken out of its children list and is otherwise unchanged:
    its ancestors are as before, nothing is reparented. *)
Theorem deleteMessage_removes_subtree :
  forall (messages : list Encoder.Message) (messageId : string),
    In messageId (map Encoder.id messages) ->
    exists remaining : list Encoder.Message,
      Tree.deleteMessage messages messageId = inr remaining
      /\ (forall m' : Encoder.Message,
            In m' remaining
            <-> exists m : Encoder.Message,
                  In m messages
                  /\ Encoder.id m <> messageId
                  /\ (exists a, Encoder.ancestors m = Some a /\ ~ In messageId a)
                  /\ m' = Tree.set_children
                            (option_map (Tree.without messageId) (Encoder.children m)) m)
      /\ (forall m' : Encoder.Message,
            In m' remaining ->
            Encoder.id m' <> messageId
            /\ Tree.descends_from messageId m' = false
            /\ forall c, Encoder.children m' = Some c -> ~ In messageId c)
      /\ map Encoder.ancestors remaining
         = map Encoder.ancestors (List.filter (Tree.kept messageId) messages).
Proof.
  intros messages messageId Hin.
  exists (map (Tree.unlink messageId) (List.filter (Tree.kept messageId) messages)).
  assert (Hmem : forall m' : Encoder.Message,
            In m' (map (Tree.unlink messageId)
                       (List.filter (Tree.kept messageId) messages))
            <-> exists m : Encoder.Message,
                  In m messages
                  /\ Encoder.id m <> messageId
                  /\ (exists a, Encoder.ancestors m = Some a /\ ~ In messageId a)
                  /\ m' = Tree.set_children
                            (option_map (Tree.without messageId) (Encoder.children m)) m).
  { intros m'. rewrite in_map_iff. split.
    - intros [m [Hm Hk]]. apply filter_In in Hk as [Hk1 Hk2].
      apply kept_spec in Hk2 as [Hid Ha].
      exists m. repeat split; try assumption.
      now rewrite <- unlink_spec.
    - intros [m [Hm [Hid [Ha Heq]]]]. exists m. split.
      + now rewrite unlink_spec.
      + apply filter_In. split; [exact Hm |]. apply kept_spec. now split. }
  split; [| split; [exact Hmem | split]].
  - unfold Tree.deleteMessage.
    apply includes_In in Hin. now rewrite Hin.
  - intros m' Hm'. apply Hmem in Hm' as [m [_ [Hid [[a [Ha Hn]] ->]]]].
    split; [now destruct m |]. split.
    + unfold Tree.descends_from.
      replace (Encoder.ancestors (Tree.set_children _ m)) with (Some a)
        by (now destruct m).
      now apply includes_not_In.
    + intros c Hc. destruct m as [i f co r an ch fi it up ro ua].
      simpl in Hc. destruct ch as [c0|]; [|discriminate Hc].
      injection Hc as <-. apply without_not_In.
  - rewrite map_map. apply map_ext. intros m. rewrite unlink_spec.
    now destruct m.
Qed.

(** On the branch root, a, b the id [a] is present, and the theorem
    applies. *)
Lemma deleteMessage_removes_subtree_witness :
  In "a" (map Encoder.id Examples.branch)
  /\ exists remaining : list Encoder.Message,
       Tree.deleteMessage Examples.branch "a" = inr remaining
       /\ (forall m' : Encoder.Message,
             In m' remaining
             <-> exists m : Encoder.Message,
                   In m Examples.branch
                   /\ Encoder.id m <> "a"
                   /\ (exists a, Encoder.ancestors m = Some a /\ ~ In "a" a)
                   /\ m' = Tree.set_children
                             (option_map (Tree.without "a") (Encoder.children m)) m)
       /\ (forall m' : Encoder.Message,
             In m' remaining ->
             Encoder.id m' <> "a"
             /\ Tree.descends_from "a" m' = false
             /\ forall c, Encoder.children m' = Some c -> ~ In "a" c)
       /\ map Encoder.ancestors remaining
          = map Encoder.ancestors (List.filter (Tree.kept "a") Examples.branch).
Proof.
  assert (H : In "a" (map Encoder.id Examples.branch))
    by (simpl; right; left; reflexivity).
  split; [exact H |].
  exact (deleteMessage_removes_subtree Examples.branch "a" H).
Defined.

(** ** The streaming loop *)

Section GenerateFacts.

Import Generate.

Lemma final_answers_app (a b : list MessageUpdate) :
  final_answers (a ++ b) = final_answers a ++ final_answers b.
Proof. unfold final_answers. apply flat_map_app. Qed.

Lemma stream_tokens_app (a b : list MessageUpdate) :
  stream_tokens (a ++ b) = stream_tokens a ++ stream_tokens b.
Proof. unfold stream_tokens. apply flat_map_app. Qed.

Lemma reasoning_tokens_app (a b : list MessageUpdate) :
  reasoning_tokens (a ++ b) = reasoning_tokens a ++ reasoning_tokens b.
Proof. unfold reasoning_tokens. apply flat_map_app. Qed.

(** The delivery of summaries touches neither the mode nor the buffer. *)
Lemma deliver_summaries_frame (env : Env) (i : nat) (l : Locals) :
  reasoning (deliver_summaries env i l) = reasoning l
  /\ reasoningBuffer (deliver_summaries env i l) = reasoningBuffer l
  /\ toolArgBuffers (deliver_summaries env i l) = toolArgBuffers l.
Proof.
  unfold deliver_summaries.
  destruct (deliver env i (pendingSummaries l) (status l)) as [p st].
  repeat split; reflexivity.
Qed.

Lemma reasoning_delta_frame (o : Output) (l : Locals) :
  reasoning (fst (reasoning_delta o l)) = reasoning l
  /\ final_answers (snd (reasoning_delta o l)) = []
  /\ stream_tokens (snd (reasoning_delta o l)) = []
  /\ Forall (fun e => is_Status e = false) (snd (reasoning_delta o l)).
Proof.
  unfold reasoning_delta.
  destruct (reasoningDelta o) as [d|]; [destruct (0 <? JS.len d) |]; simpl;
    repeat split; repeat constructor.
Qed.

Lemma reasoning_delta_buffer (o : Output) (l l' : Locals) :
  reasoningBuffer l' = reasoningBuffer l ->
  reasoningBuffer (fst (reasoning_delta o l'))
  = reasoningBuffer (fst (reasoning_delta o l)).
Proof.
  intros H. unfold reasoning_delta.
  destruct (reasoningDelta o) as [d|]; [destruct (0 <? JS.len d) |]; simpl;
    now rewrite ?H.
Qed.

(** Events of the tool side channels are Tool events. *)
Lemma tool_call_delta_events (env : Env) (d : ToolCallDelta)
      (m : gmap string ToolArgBuffer) :
  Forall (fun e => is_Tool e = true) (snd (tool_call_delta env d m)).
Proof.
  unfold tool_call_delta. cbv zeta. simpl snd. apply Forall_app. split.
  - unfold publish_call. destruct (_ && _); repeat constructor.
  - unfold publish_parsed. destruct (negb _); [|constructor].
    destruct (JSON_parse _ _) as [[]|]; repeat constructor.
Qed.

Lemma tool_call_deltas_events (env : Env) (ds : list ToolCallDelta) :
  forall m : gmap string ToolArgBuffer,
    Forall (fun e => is_Tool e = true) (snd (tool_call_deltas env ds m)).
Proof.
  induction ds as [|d ds IH]; intros m; [constructor |].
  cbn [tool_call_deltas]. cbv zeta. cbn [snd]. apply Forall_app. split.
  - apply tool_call_delta_events.
  - apply IH.
Qed.

Lemma tool_result_delta_events (o : Output) :
  Forall (fun e => is_Tool e = true) (tool_result_delta o).
Proof.
  unfold tool_result_delta.
  destruct (toolResultDelta o) as [r|]; [|constructor].
  destruct (0 <? _); [|constructor].
  destruct (looks_like_error _); repeat constructor.
Qed.

Lemma tool_events_plain (evs : list MessageUpdate) :
  Forall (fun e => is_Tool e = true) evs ->
  final_answers evs = [] /\ stream_tokens evs = []
  /\ reasoning_tokens evs = []
  /\ Forall (fun e => is_Status e = false) evs.
Proof.
  induction 1 as [|e evs He _ IH]; [repeat split; constructor |].
  destruct IH as [H1 [H2 [H3 H4]]].
  destruct e; try discriminate He; simpl; repeat split;
    try assumption; now constructor.
Qed.


Lemma abort_check_break (env : Env) (ctx : GenerateContext) (i : nat) (date : Z) :
  getAbortTime env i = Some date -> promptedAt ctx < date ->
  abort_check env ctx i = Break.
Proof.
  intros H Hlt. unfold abort_check. rewrite H.
  destruct (Z.ltb_spec (promptedAt ctx) date); [reflexivity | lia].
Qed.

(** What [pass_down] yields when it goes on to the abort check. *)
Lemma pass_down_plain (env : Env) (ctx : GenerateContext) (i : nat)
      (l : Locals) (o : Output) :
  match model_reasoning (model ctx) with
  | Some (Tokens _ endToken) =>
      reasoning l
      && negb (JS.lastIndexOf (reasoningBuffer l +:+ token_text o) endToken =? -1)
      = false
  | _ => True
  end ->
  exists l' evs,
    pass_down env ctx i l o = (l', evs, abort_check env ctx i)
    /\ final_answers evs = []
    /\ (evs = [Stream (token_text o)]
        \/ exists pre, evs = pre ++ [ReasoningStream (token_text o)]
                       /\ stream_tokens pre = []).
Proof.
  intros Hsplit. unfold pass_down.
  destruct (reasoning l) eqn:Hr.
  - assert (Hnone :
      match model_reasoning (model ctx) with
      | Some (Tokens _ endToken) =>
          if negb (JS.lastIndexOf
                     (reasoningBuffer
                        (set_reasoningBuffer (reasoningBuffer l +:+ token_text o) l))
                     endToken =? -1)
          then Some endToken else None
      | _ => None
      end = None).
    { destruct (model_reasoning (model ctx)) as [[b e|re|]|]; try reflexivity.
      simpl in *. now rewrite Hsplit. }
    rewrite Hnone. clear Hnone.
    destruct (negb (String.eqb _ _)) eqn:Hst.
    + eexists _, _. split; [reflexivity |]. split; [reflexivity |].
      right. eexists. split; [reflexivity | reflexivity].
    + eexists _, _. split; [reflexivity |]. split; [reflexivity |].
      right. exists []. split; reflexivity.
  - eexists _, _. split; [reflexivity |]. split; [reflexivity |]. now left.
Qed.


Lemma step_passed_down (env : Env) (ctx : GenerateContext) (i : nat)
      (l : Locals) (o : Output) :
  passed_down (model ctx) l o = true ->
  exists l' evs,
    step env ctx i l o = (l', evs, abort_check env ctx i)
    /\ final_answers evs = []
    /\ (In (Stream (token_text o)) evs
        \/ In (ReasoningStream (token_text o)) evs).
Proof.
  unfold passed_down. rewrite !andb_true_iff, !negb_true_iff.
  intros [[Hgt Hsp] Hmode]. unfold step.
  destruct (deliver_summaries_frame env i l) as [Hr0 [Hb0 _]].
  set (l0 := deliver_summaries env i l) in *.
  destruct (reasoning_delta_frame o l0) as [Hr1 [Hf1 _]].
  pose proof (reasoning_delta_buffer o l l0 Hb0) as Hb1.
  destruct (reasoning_delta o l0) as [l1 e1]. simpl in Hr1, Hf1, Hb1.
  pose proof (tool_call_deltas_events env (default [] (toolCallDeltas o))
                                      (toolArgBuffers l1)) as He2.
  destruct (tool_call_deltas env (default [] (toolCallDeltas o))
                             (toolArgBuffers l1)) as [bufs e2].
  simpl in He2. apply tool_events_plain in He2 as [Hf2 _].
  pose proof (tool_result_delta_events o) as He3.
  apply tool_events_plain in He3 as [Hf3 _].
  set (l2 := set_toolArgBuffers bufs l1).
  assert (Htok :
    match generated_text o with
    | Some gt =>
        if negb (String.eqb gt "") then final_step env ctx i l2 o gt
        else token_step env ctx i l2 o
    | None => token_step env ctx i l2 o
    end = pass_down env ctx i l2 o).
  { assert (Hts : token_step env ctx i l2 o = pass_down env ctx i l2 o).
    { unfold token_step. rewrite Hsp.
      destruct (model_reasoning (model ctx)) as [[b e|re|]|]; try reflexivity.
      rewrite !andb_true_iff, !negb_true_iff in Hmode.
      destruct Hmode as [[Hb He] _]. now rewrite Hb, He. }
    destruct (generated_text o) as [gt|]; [|exact Hts].
    simpl in Hgt. now rewrite Hgt. }
  rewrite Htok. clear Htok.
  destruct (pass_down_plain env ctx i l2 o) as [l' [evs [Hpd [Hfa Hin]]]].
  { destruct (model_reasoning (model ctx)) as [[b e|re|]|]; try exact I.
    rewrite !andb_true_iff, !negb_true_iff in Hmode.
    destruct Hmode as [_ Hsplit].
    unfold l2. simpl. rewrite Hr1, Hr0, Hb1. exact Hsplit. }
  rewrite Hpd. exists l', (e1 ++ e2 ++ tool_result_delta o ++ evs).
  split; [reflexivity |]. split.
  - rewrite !final_answers_app, Hf1, Hf2, Hf3, Hfa. reflexivity.
  - destruct Hin as [-> | [pre [-> _]]]; [left | right];
      rewrite !in_app_iff; do 3 right; [now left |].
    right. now left.
Qed.

End GenerateFacts.

(** C3 (as stated, refuted). The registry holds a timestamp (10) newer
    than promptedAt (5); the generator stops after the first token, and
    the turn keeps the partial content [a], but no FinalAnswer is emitted
    and the interrupted flag of the message is never set.  After a
    special token the registry is not polled at all: the next token is
    still read and emitted. *)
Lemma abort_emits_no_final_answer :
  let run (outs : list Generate.Output) :=
    Generate.generate (Examples.aborted_at 10)
      (Examples.context Examples.plain_model (Examples.provider outs)) None in
  let r := run [Generate.tok "a"; Generate.tok "b";
                Generate.final "" true "ab"] in
  let t := Encoder.turn Examples.type_of false (fun _ => 0)
             (Status Started None :: Generate.events r)
             (Generate.thrown r) Examples.blank_state in
  let r' := run [Generate.special_tok "<s>"; Generate.tok "b";
                 Generate.tok "c"] in
  Generate.getAbortTime (Examples.aborted_at 10) 0 = Some 10
  /\ Generate.promptedAt
       (Examples.context Examples.plain_model (Examples.provider [])) < 10
  /\ Generate.events r = [Stream "a"]
  /\ ~ (exists text, In (FinalAnswer text true) (Encoder.handled t))
  /\ Encoder.content (Encoder.messageToWriteTo (Encoder.final_state t)) = "a"
  /\ Encoder.interrupted (Encoder.messageToWriteTo (Encoder.final_state t)) = None
  /\ Generate.events r' = [Stream "b"]
  /\ Generate.consumed r' = 2%nat.
Proof.
  cbv zeta.
  split; [reflexivity |]. split; [reflexivity |]. split; [reflexivity |].
  split; [| repeat split; reflexivity].
  intros [text H]. vm_compute in H.
  destruct H as [H|[H|[]]]; discriminate H.
Qed.

(** C3 (amended). When the registry, polled after a token has been passed
    down, holds a timestamp newer than promptedAt, the generator stops:
    it reads no further provider output, whatever follows in the stream,
    and emits nothing after the events of that token (the token itself
    is still emitted).  No FinalAnswer is emitted for the abort; the turn
    keeps the content accumulated so far, and the interrupted flag of the
    message is left as it was. *)
Theorem abort_stops_after_passed_token :
  forall (env : Generate.Env) (ctx : Generate.GenerateContext) (i : nat)
         (l : Generate.Locals) (o : Generate.Output)
         (rest : list Generate.Output) (err : option string) (date : Z),
    Generate.passed_down (Generate.model ctx) l o = true ->
    Generate.getAbortTime env i = Some date ->
    Generate.promptedAt ctx < date ->
    let r := Generate.loop env ctx i l (o :: rest) err in
    r = Generate.loop env ctx i l [o] None
    /\ Generate.consumed r = 1%nat
    /\ Generate.thrown r = None
    /\ final_answers (Generate.events r) = []
    /\ (In (Stream (Generate.token_text o)) (Generate.events r)
        \/ In (ReasoningStream (Generate.token_text o)) (Generate.events r))
    /\ forall (stringify : MessageUpdate -> string) (isRouter : bool)
              (init : string) (clock : nat -> Z) (k : nat) (st : Encoder.State),
         let st' := Encoder.updates_from stringify isRouter init clock k st
                                         (Generate.events r) in
         Encoder.content (Encoder.messageToWriteTo st')
         = Encoder.content (Encoder.messageToWriteTo st)
             +:+ String.concat EmptyString (stream_tokens (Generate.events r))
         /\ Encoder.interrupted (Encoder.messageToWriteTo st')
            = Encoder.interrupted (Encoder.messageToWriteTo st).
Proof.
  intros env ctx i l o rest err date Hpd Hab Hlt r.
  destruct (step_passed_down env ctx i l o Hpd) as [l' [evs [Hstep [Hfa Hin]]]].
  rewrite (abort_check_break env ctx i date Hab Hlt) in Hstep.
  assert (Hr : r = Generate.mkRun evs None 1 l').
  { unfold r. simpl. now rewrite Hstep. }
  split; [rewrite Hr; simpl; now rewrite Hstep |].
  rewrite Hr. simpl. repeat split; try assumption.
  - now apply partial_content.
  - now apply partial_content.
Qed.

(** The registry holds 10, the turn was prompted at 5 and the first
    output is the ordinary token [a]. *)
Lemma abort_stops_after_passed_token_witness :
  let env := Examples.aborted_at 10 in
  let ctx := Examples.context Examples.plain_model (Examples.provider []) in
  let l := Generate.initial_locals env Examples.plain_model in
  let rest := [Generate.tok "b"; Generate.final "" true "ab"] in
  Generate.passed_down (Generate.model ctx) l (Generate.tok "a") = true
  /\ Generate.getAbortTime env 0 = Some 10
  /\ Generate.promptedAt ctx < 10
  /\ Generate.loop env ctx 0 l (Generate.tok "a" :: rest) None
     = Generate.loop env ctx 0 l [Generate.tok "a"] None.
Proof.
  intros env ctx l rest.
  assert (H1 : Generate.passed_down (Generate.model ctx) l (Generate.tok "a") = true)
    by reflexivity.
  assert (H2 : Generate.getAbortTime env 0 = Some 10) by reflexivity.
  assert (H3 : Generate.promptedAt ctx < 10) by (simpl; lia).
  split; [exact H1 |]. split; [exact H2 |]. split; [exact H3 |].
  exact (proj1 (abort_stops_after_passed_token env ctx 0%nat l (Generate.tok "a")
                  rest None 10 H1 H2 H3)).
Defined.

(** ** Status events and the merged stream *)

Section NoStatus.

Import Generate.

Variable env : Env.
Variable ctx : GenerateContext.

Hypothesis aux_quiet :
  forall prompt : string,
    Forall (fun e => is_Status e = false)
           (fst (generateFromDefaultEndpoint env prompt)).

Lemma final_step_no_status (i : nat) (l : Locals) (o : Output) (gt : string) :
  no_status (snd (fst (final_step env ctx i l o gt))).
Proof.
  unfold final_step, no_status.
  destruct (strip_stops (model ctx) o gt) as [text intr].
  destruct (model_reasoning (model ctx)) as [[b e|re|]|].
  - repeat constructor.
  - destruct (regexp_exec env re (reasoningBuffer l)) as [msg| |[g|]];
      repeat constructor.
  - destruct (summary_prompt (messages ctx) (reasoningBuffer l)) as [p|];
      [|repeat constructor].
    pose proof (aux_quiet p) as Hq.
    destruct (generateFromDefaultEndpoint env p) as [evs [s|m]]; simpl in *;
      constructor; try reflexivity; apply Forall_app; split;
      try assumption; repeat constructor.
  - repeat constructor.
Qed.

Lemma pass_down_no_status (i : nat) (l : Locals) (o : Output) :
  no_status (snd (fst (pass_down env ctx i l o))).
Proof.
  unfold pass_down, no_status.
  destruct (reasoning l); [|repeat constructor].
  destruct (match model_reasoning (model ctx) with
            | Some (Tokens _ endToken) => _
            | _ => None
            end); [repeat constructor |].
  destruct (negb _); simpl; repeat constructor.
Qed.

Lemma token_step_no_status (i : nat) (l : Locals) (o : Output) :
  no_status (snd (fst (token_step env ctx i l o))).
Proof.
  unfold token_step.
  destruct (match model_reasoning (model ctx) with
            | Some (Tokens beginToken endToken) => _
            | _ => None
            end) as [[|]|]; try (repeat constructor).
  destruct (token_special o); [constructor | apply pass_down_no_status].
Qed.

Lemma step_no_status (i : nat) (l : Locals) (o : Output) :
  no_status (snd (fst (step env ctx i l o))).
Proof.
  unfold step.
  set (l0 := deliver_summaries env i l).
  destruct (reasoning_delta_frame o l0) as [_ [_ [_ H1]]].
  destruct (reasoning_delta o l0) as [l1 e1]. simpl in H1.
  pose proof (tool_call_deltas_events env (default [] (toolCallDeltas o))
                                      (toolArgBuffers l1)) as H2.
  destruct (tool_call_deltas env _ _) as [bufs e2]. simpl in H2.
  apply tool_events_plain in H2 as [_ [_ [_ H2]]].
  pose proof (tool_result_delta_events o) as H3.
  apply tool_events_plain in H3 as [_ [_ [_ H3]]].
  set (l2 := set_toolArgBuffers bufs l1).
  assert (H4 : no_status
                 (snd (fst match generated_text o with
                           | Some gt =>
                               if negb (String.eqb gt "")
                               then final_step env ctx i l2 o gt
                               else token_step env ctx i l2 o
                           | None => token_step env ctx i l2 o
                           end))).
  { destruct (generated_text o) as [gt|];
      [destruct (negb _) |];
      auto using final_step_no_status, token_step_no_status. }
  destruct (match generated_text o with Some _ => _ | None => _ end)
    as [[l3 e4] c].
  simpl in *. unfold no_status. rewrite !Forall_app. auto.
Qed.

Lemma loop_no_status (outs : list Output) :
  forall (i : nat) (l : Locals) (err : option string),
    no_status (events (loop env ctx i l outs err)).
Proof.
  induction outs as [|o outs IH]; intros i l err; [constructor |].
  cbn [loop].
  pose proof (step_no_status i l o) as Hs.
  destruct (step env ctx i l o) as [[l' evs] c]. simpl in Hs.
  destruct c; simpl; try assumption.
  apply Forall_app. split; [assumption | apply IH].
Qed.

Lemma generate_no_status (preprompt : option string) :
  no_status (events (generate env ctx preprompt)).
Proof.
  unfold generate. simpl. apply Forall_app. split.
  - destruct (starts_reasoning (model ctx)); repeat constructor.
  - apply loop_no_status.
Qed.

End NoStatus.

Section MergeFacts.

Import TextGeneration.

(** Merging producers that never offer [Started] gives a stream without
    it. *)
Lemma merged_not_started (ps : list (list MessageUpdate))
      (out : list MessageUpdate) :
  merged ps out -> Forall not_started ps -> not_started out.
Proof.
  induction 1 as [ps _|ps i e rest out Hi _ _ IH]; intros Hps; [constructor |].
  pose proof (Forall_lookup_1 _ _ _ _ Hps Hi) as He.
  inversion He as [|? ? He1 He2]; subst.
  constructor; [exact He1 |].
  apply IH. apply Forall_insert; assumption.
Qed.

Lemma keepAlive_not_started (ticks : nat) : not_started (keepAlive ticks).
Proof.
  unfold keepAlive. induction ticks as [|n IH]; simpl; constructor; auto.
Qed.

Lemma titles_not_started (titles : list string) :
  not_started (map Title titles).
Proof. induction titles; simpl; constructor; auto. Qed.

Lemma no_status_not_started (evs : list MessageUpdate) :
  no_status evs -> not_started evs.
Proof.
  induction 1 as [|e evs He _ IH]; constructor; [|exact IH].
  destruct e; try reflexivity. discriminate He.
Qed.

(** The head of the title and heartbeat producers is never [Started]. *)
Lemma head_not_started (p : list MessageUpdate) (e : MessageUpdate)
      (rest : list MessageUpdate) :
  not_started p -> p = e :: rest -> is_Started e = false.
Proof. intros H ->. now inversion H. Qed.

Lemma textGeneration_started_first (titles : list string)
      (prepared : option string) (generated : list MessageUpdate)
      (ticks : nat) (out : list MessageUpdate) :
  not_started generated ->
  textGeneration titles prepared generated ticks out ->
  exists rest, out = Status Started None :: rest /\ not_started rest.
Proof.
  intros Hgen Hm. unfold textGeneration, producers in Hm.
  inversion Hm as [ps Hall|ps i e rest out' Hi Hprio Hrest]; subst.
  - inversion Hall as [|? ? _ Hall']. inversion Hall' as [|? ? Hnil _].
    discriminate Hnil.
  - assert (He : is_Started e = true).
    { apply (Hprio 1%nat (Status Started None)
                   (match prepared with Some _ => [] | None => generated end));
        reflexivity. }
    assert (Htail : not_started
                      (match prepared with Some _ => [] | None => generated end)).
    { destruct prepared; [constructor | exact Hgen]. }
    destruct i as [|[|[|i]]]; simpl in Hi.
    + injection Hi as Hi.
      rewrite (head_not_started _ _ _ (titles_not_started titles) Hi) in He.
      discriminate He.
    + injection Hi as <- <-. eexists. split; [reflexivity |].
      apply (merged_not_started _ _ Hrest). simpl.
      repeat constructor;
        auto using titles_not_started, keepAlive_not_started.
    + injection Hi as Hi.
      rewrite (head_not_started _ _ _ (keepAlive_not_started ticks) Hi) in He.
      discriminate He.
    + discriminate Hi.
Qed.

End MergeFacts.

(** C4. Every stream that [textGeneration] yields, for a generator whose
    auxiliary calls yield no Status event, begins with [Status started],
    and no other event of the stream is [Status started]: the event comes
    exactly once and precedes every heartbeat, every title and every event
    of the generation. *)
Theorem started_is_first :
  forall (env : Generate.Env) (ctx : Generate.GenerateContext)
         (preprompt : option string) (titles : list string)
         (prepared : option string) (ticks : nat) (out : list MessageUpdate),
    (forall prompt : string,
        no_status (fst (Generate.generateFromDefaultEndpoint env prompt))) ->
    TextGeneration.textGeneration
      titles prepared
      (Generate.events (Generate.generate env ctx preprompt)) ticks out ->
    exists rest : list MessageUpdate,
      out = Status Started None :: rest
      /\ not_started rest
      /\ List.length (List.filter is_Started out) = 1%nat.
Proof.
  intros env ctx preprompt titles prepared ticks out Haux Hm.
  destruct (textGeneration_started_first
              titles prepared
              (Generate.events (Generate.generate env ctx preprompt)) ticks out)
    as [rest [-> Hrest]]; [| exact Hm |].
  - apply no_status_not_started. now apply generate_no_status.
  - exists rest. split; [reflexivity |]. split; [exact Hrest |].
    cbn [List.filter is_Started List.length]. f_equal. clear Hm.
    induction Hrest as [|e rest He _ IH]; [reflexivity |].
    cbn [List.filter]. rewrite He. exact IH.
Qed.

(** One token, one title and one heartbeat, drained in the order
    started, keepAlive, stream, title, finalAnswer. *)
Lemma started_is_first_witness :
  let generated :=
    Generate.events
      (Generate.generate (Examples.quiet "unavailable")
         (Examples.context Examples.plain_model
            (Examples.provider [Generate.tok "a"; Generate.final "" true "a"]))
         None) in
  let out := [Status Started None; Status KeepAlive None; Stream "a";
              Title "Chat"; FinalAnswer "a" false] in
  TextGeneration.textGeneration ["Chat"] None generated 1 out
  /\ exists rest : list MessageUpdate,
       out = Status Started None :: rest
       /\ not_started rest
       /\ List.length (List.filter is_Started out) = 1%nat.
Proof.
  intros generated out.
  assert (Hm : TextGeneration.textGeneration ["Chat"] None generated 1 out).
  { unfold TextGeneration.textGeneration.
    change (TextGeneration.producers ["Chat"] None generated 1)
      with [[Title "Chat"];
            [Status Started None; Stream "a"; FinalAnswer "a" false];
            [Status KeepAlive None]].
    unfold out.
    apply TextGeneration.merged_next with (i := 1%nat) (rest := [Stream "a"; FinalAnswer "a" false]);
      [reflexivity | reflexivity |].
    apply TextGeneration.merged_next with (i := 2%nat) (rest := []);
      [reflexivity
      | intros [|[|[|j]]] e' rest' Hj Hs; try discriminate Hj;
        injection Hj as <- _; discriminate Hs |].
    apply TextGeneration.merged_next with (i := 1%nat) (rest := [FinalAnswer "a" false]);
      [reflexivity
      | intros [|[|[|j]]] e' rest' Hj Hs; try discriminate Hj;
        injection Hj as <- _; discriminate Hs |].
    apply TextGeneration.merged_next with (i := 0%nat) (rest := []);
      [reflexivity
      | intros [|[|[|j]]] e' rest' Hj Hs; try discriminate Hj;
        injection Hj as <- _; discriminate Hs |].
    apply TextGeneration.merged_next with (i := 1%nat) (rest := []);
      [reflexivity
      | intros [|[|[|j]]] e' rest' Hj Hs; try discriminate Hj;
        injection Hj as <- _; discriminate Hs |].
    apply TextGeneration.merged_done. repeat constructor. }
  split; [exact Hm |].
  refine (started_is_first
            (Examples.quiet "unavailable")
            (Examples.context Examples.plain_model
               (Examples.provider [Generate.tok "a"; Generate.final "" true "a"]))
            None ["Chat"] None 1%nat out _ Hm).
  intros prompt. constructor.
Defined.

(** ** The model-issued tool call *)




(** ** The inline command *)

(** C7 (as stated, refuted). The message [server.tool {bad json] does not
    start with [/mcp]: the hook does not apply, the model is called and
    its tokens are streamed. *)
Lemma bare_command_reaches_model :
  let content := "server.tool {bad json" in
  let ctx :=
    Generate.mkContext Examples.plain_model
      (Inline.endpointOai Examples.inline_env Examples.says_hi)
      [Generate.mkMessage "user" content] false 5 None in
  let r := Generate.generate (Examples.quiet "unavailable") ctx None in
  Inline.match_mcp content = None
  /\ Generate.events r = [Stream "Hi"; FinalAnswer "Hi" false]
  /\ stream_tokens (Generate.events r) <> [].
Proof.
  cbv zeta. split; [reflexivity |]. split; [reflexivity |].
  vm_compute. discriminate.
Qed.

Lemma inline_hook_parse_error (ienv : Inline.Env) (args : Generate.EndpointArgs)
      (lastMsg : Generate.EndpointMessage) (serverName toolName raw : string)
      (server : Inline.McpServerConfig) (msg : string) :
  last (Generate.arg_messages args) = Some lastMsg ->
  Generate.msg_from lastMsg = "user" ->
  Inline.match_mcp (Generate.msg_content lastMsg)
  = Some (serverName, toolName, Some raw) ->
  Inline.find_server (Inline.MCP_SERVERS ienv) serverName = Some server ->
  JS.trim raw <> EmptyString ->
  Inline.JSON_parse ienv raw = inr msg ->
  Inline.inline_hook ienv args
  = Some (Inline.openAIChatToTextGenerationSingle ("Invalid JSON args: " +:+ msg)).
Proof.
  intros Hlast Hfrom Hmatch Hfind Htrim Hparse. unfold Inline.inline_hook.
  destruct (Inline.MCP_SERVERS ienv) as [|s servers] eqn:Hs;
    [discriminate Hfind |].
  rewrite Hlast, Hfrom. simpl String.eqb. cbv iota. rewrite Hmatch, Hfind.
  assert (Hraw : raw <> EmptyString) by (intros ->; now apply Htrim).
  apply String.eqb_neq in Hraw, Htrim. rewrite Hraw, Htrim. simpl.
  now rewrite Hparse.
Qed.


(** C7 (amended). For a user message [/mcp <server>.<tool> <args>] that
    names a configured server and whose arguments are not blank and do not
    parse as JSON, the endpoint answers without calling the model, and
    for a model without reasoning or with tokens-mode reasoning [generate]
    yields exactly one FinalAnswer and no Stream event.  The text of the
    FinalAnswer is the parse error, [Invalid JSON args: ...], trimmed and
    without a stop token at its end; without stop tokens it is the
    trimmed message and the FinalAnswer is flagged as interrupted. *)
Theorem inline_parse_error_short_circuits :
  forall (ienv : Inline.Env) (env : Generate.Env)
         (ctx : Generate.GenerateContext) (preprompt : option string)
         (callModel : Generate.Endpoint) (lastMsg : Generate.EndpointMessage)
         (serverName toolName raw : string)
         (server : Inline.McpServerConfig) (msg : string),
    Generate.endpoint ctx = Inline.endpointOai ienv callModel ->
    last (Generate.messages ctx) = Some lastMsg ->
    Generate.msg_from lastMsg = "user" ->
    Inline.match_mcp (Generate.msg_content lastMsg)
    = Some (serverName, toolName, Some raw) ->
    Inline.find_server (Inline.MCP_SERVERS ienv) serverName = Some server ->
    JS.trim raw <> EmptyString ->
    Inline.JSON_parse ienv raw = inr msg ->
    (Generate.model_reasoning (Generate.model ctx) = None
     \/ exists beginToken endToken,
          Generate.model_reasoning (Generate.model ctx)
          = Some (Generate.Tokens beginToken endToken)) ->
    let content := "Invalid JSON args: " +:+ msg in
    let answer :=
      Generate.strip_stops (Generate.model ctx)
                           (Generate.mkOutput content false (Some content)
                                              None None None) content in
    let r := Generate.generate env ctx preprompt in
    final_answers (Generate.events r) = [answer]
    /\ stream_tokens (Generate.events r) = []
    /\ Generate.thrown r = None
    /\ (Generate.model_stop (Generate.model ctx) = None ->
        answer = (JS.trimEnd content, true))
    /\ forall (other : Generate.Endpoint) (args : Generate.EndpointArgs),
         Generate.arg_messages args = Generate.messages ctx ->
         Inline.endpointOai ienv other args
         = Inline.openAIChatToTextGenerationSingle content.
Proof.
  intros ienv env ctx preprompt callModel lastMsg serverName toolName raw
         server msg Hep Hlast Hfrom Hmatch Hfind Htrim Hparse Hreason
         content answer r.
  assert (Hhook : forall (other : Generate.Endpoint) (args : Generate.EndpointArgs),
             Generate.arg_messages args = Generate.messages ctx ->
             Inline.endpointOai ienv other args
             = Inline.openAIChatToTextGenerationSingle content).
  { intros other args Hargs. unfold Inline.endpointOai.
    rewrite (inline_hook_parse_error ienv args lastMsg serverName toolName raw
                                     server msg); try assumption.
    - reflexivity.
    - now rewrite Hargs. }
  assert (Hev : exists pre,
             Generate.events r
             = pre ++ [FinalAnswer (fst answer) (snd answer)]
             /\ final_answers pre = [] /\ stream_tokens pre = []
             /\ Generate.thrown r = None).
  { unfold r, Generate.generate. rewrite Hep, Hhook by reflexivity.
    unfold Inline.openAIChatToTextGenerationSingle.
    cbn [Generate.outputs Generate.stream_error Generate.loop].
    unfold Generate.step, Generate.deliver_summaries, Generate.initial_locals,
      Generate.reasoning_delta, Generate.tool_result_delta.
    cbn [Generate.pendingSummaries Generate.status Generate.deliver
         Generate.reasoningDelta Generate.toolCallDeltas
         Generate.toolResultDelta Generate.generated_text
         Generate.tool_call_deltas default
         Generate.set_pendingSummaries Generate.set_status
         Generate.toolArgBuffers].
    change (negb (String.eqb content "")) with true. cbv iota.
    unfold Generate.final_step. fold answer.
    destruct answer as [text interrupted].
    destruct Hreason as [Hnone | [b [e Htok]]].
    - unfold Generate.starts_reasoning. rewrite Hnone.
      exists []. repeat split; reflexivity.
    - unfold Generate.starts_reasoning. rewrite Htok.
      cbn [Generate.reasoningBuffer Generate.set_toolArgBuffers].
      rewrite remove_reasoning_empty_buffer.
      destruct (String.eqb b "").
      + exists [ReasoningStatus "Started reasoning..."].
        repeat split; reflexivity.
      + exists []. repeat split; reflexivity. }
  destruct Hev as [pre [Hev [Hfa [Hst Hth]]]]. rewrite Hev.
  rewrite final_answers_app, stream_tokens_app, Hfa, Hst.
  split; [now destruct answer |]. split; [reflexivity |].
  split; [exact Hth |]. split; [| exact Hhook].
  intros Hstop. unfold answer, Generate.strip_stops, Generate.interrupted0.
  now rewrite Hstop.
Qed.

(** The command [/mcp server.tool {bad json] with the server configured. *)
Lemma inline_parse_error_short_circuits_witness :
  let ctx :=
    Generate.mkContext Examples.plain_model
      (Inline.endpointOai Examples.inline_env Examples.says_hi)
      [Generate.mkMessage "user" "/mcp server.tool {bad json"] false 5 None in
  let r := Generate.generate (Examples.quiet "unavailable") ctx None in
  Inline.match_mcp "/mcp server.tool {bad json"
  = Some ("server", "tool", Some "{bad json")
  /\ final_answers (Generate.events r)
     = [("Invalid JSON args: Unexpected token b in JSON", true)]
  /\ stream_tokens (Generate.events r) = [].
Proof.
  intros ctx r.
  assert (Htrim : JS.trim "{bad json" <> EmptyString)
    by (intros H; vm_compute in H; discriminate H).
  pose proof (inline_parse_error_short_circuits
                Examples.inline_env (Examples.quiet "unavailable") ctx None
                Examples.says_hi
                (Generate.mkMessage "user" "/mcp server.tool {bad json")
                "server" "tool" "{bad json" Examples.the_server
                "Unexpected token b in JSON"
                eq_refl eq_refl eq_refl eq_refl eq_refl Htrim eq_refl
                (or_introl eq_refl)) as H.
  split; [reflexivity |]. split; [exact (proj1 H) |].
  exact (proj1 (proj2 H)).
Defined.

(** ** Reasoning and the final answer *)


(** ** generate on the tokens-mode example *)

(** C1. With beginToken [<think>] and endToken [</think>], the stream
    [a], [<think>], [b], [c], [</think>], [d] makes [generate] emit
    Reasoning.Stream events for [b] and [c] (what stands between the
    markers) and Stream events for [a] and [d]; the FinalAnswer it emits
    has the text [>d], not [ad]: the positions of the markers are looked
    up in the reasoning buffer and then used to cut the generated text.
    Whatever the generated text, the FinalAnswer is the text from
    position 17 on, so the [a] in front of the section cannot be in it. *)
Theorem generate_tokens_example :
  let run (outs : list Generate.Output) :=
    Generate.events
      (Generate.generate (Examples.quiet "unavailable")
         (Examples.context Examples.think_model (Examples.provider outs)) None) in
  run Examples.think_stream
  = [Stream "a"; ReasoningStream "b"; ReasoningStream "c";
     ReasoningStatus "Done in 0s."; Stream "d"; FinalAnswer ">d" false]
  /\ run Examples.think_stream_oai
     = [Stream "a"; ReasoningStream "b"; ReasoningStream "c";
        ReasoningStatus "Done in 0s."; FinalAnswer ">d" false]
  /\ final_answers (run Examples.think_stream) <> [("ad", false)]
  /\ forall text : string,
       Generate.remove_reasoning "<think>" "</think>" "<think>bc</think>" text
       = JS.slice_from text 17.
Proof.
  cbv zeta. split; [vm_compute; reflexivity |].
  split; [vm_compute; reflexivity |].
  split; [vm_compute; discriminate |].
  intros text. unfold Generate.remove_reasoning.
  change (JS.indexOf "<think>bc</think>" "<think>") with 0.
  change (JS.lastIndexOf "<think>bc</think>" "</think>") with 9.
  change (JS.len "</think>") with 8.
  cbn [negb String.eqb Z.eqb andb]. cbv iota.
  now rewrite slice_empty, app_nil_s.
Qed.

(* ===================================================================== *)
(** ** The OpenAI stream adapter *)
(* ===================================================================== *)

Section ShapeFacts.

Lemma every_app (p : ascii -> bool) (a b : string) :
  every p (a +:+ b) = every p a && every p b.
Proof.
  induction a as [|c a IH]; [reflexivity |].
  rewrite app_cons. simpl. rewrite IH. now rewrite andb_assoc.
Qed.

Lemma span_every (p : ascii -> bool) (a b : string) :
  every p a = true -> stops p b = true -> JS.span p (a +:+ b) = (a, b).
Proof.
  intros Ha Hb. induction a as [|c a IH].
  - destruct b as [|c b]; [reflexivity |].
    simpl in Hb. apply negb_true_iff in Hb.
    change (EmptyString +:+ String c b) with (String c b).
    cbn [JS.span]. now rewrite Hb.
  - simpl in Ha. apply andb_true_iff in Ha as [Hc Ha].
    rewrite app_cons. cbn [JS.span]. rewrite Hc, (IH Ha). reflexivity.
Qed.

Lemma span_all (p : ascii -> bool) (a : string) :
  every p a = true -> JS.span p a = (a, EmptyString).
Proof.
  intros Ha. rewrite <- (app_empty_r a) at 1. now apply span_every.
Qed.

(** What [span] returns: the two parts make up the string, the first
    satisfies [p] throughout and the second does not go on with it. *)
Lemma span_spec (p : ascii -> bool) (s : string) :
  s = fst (JS.span p s) +:+ snd (JS.span p s)
  /\ every p (fst (JS.span p s)) = true
  /\ stops p (snd (JS.span p s)) = true.
Proof.
  induction s as [|c s IH]; [repeat split |].
  cbn [JS.span]. destruct (p c) eqn:Hc.
  - destruct (JS.span p s) as [a b]. simpl in *.
    destruct IH as [H1 [H2 H3]]. repeat split.
    + rewrite app_cons. now f_equal.
    + now rewrite Hc, H2.
    + exact H3.
  - simpl. rewrite Hc. repeat split.
Qed.

Lemma nonempty_stops (p q : ascii -> bool) (s : string) :
  (forall c, p c = true -> q c = false) ->
  nonempty s = true -> every p s = true -> stops q s = true.
Proof.
  intros Hpq Hn He. destruct s as [|c s]; [discriminate Hn |].
  simpl in *. apply andb_true_iff in He as [Hc _].
  now rewrite (Hpq c Hc).
Qed.

Lemma nonempty_eqb (s : string) :
  nonempty s = true -> String.eqb s EmptyString = false.
Proof. unfold nonempty. now rewrite negb_true_iff. Qed.

End ShapeFacts.

Section AdapterFacts.

Import Adapter.

Lemma tool_chunk_frame (st : State) (c : Chunk) :
  generatedText (fst (tool_chunk st c)) = generatedText st
  /\ tokenId (fst (tool_chunk st c)) = tokenId st.
Proof.
  unfold tool_chunk.
  destruct (match pendingToolHeader st with Some _ => true | None => _ end).
  - destruct (negb _).
    + destruct (match parse_tool_header _ with Some _ => _ | None => _ end).
      split; reflexivity.
    + split; reflexivity.
  - split; reflexivity.
Qed.

Lemma step_facts (st : State) (c : Chunk) :
  tokenId (fst (step st c)) = tokenId st + 1
  /\ out_id (snd (step st c)) = tokenId st
  /\ generatedText (fst (step st c)) = generatedText st +:+ assistant_content c
  /\ Generate.token_text (output (snd (step st c))) = assistant_content c
  /\ Generate.token_special (output (snd (step st c))) = is_last c
  /\ Generate.generated_text (output (snd (step st c)))
     = if is_last c && nonempty (assistant_content c)
       then Some (generatedText st +:+ assistant_content c) else None.
Proof.
  unfold step, assistant_content, nonempty. cbv zeta.
  destruct (is_tool_role c).
  - match goal with |- context [tool_chunk ?s c] =>
      destruct (tool_chunk_frame s c) as [Hg Ht] end.
    cbn [fst snd out_id output Generate.token_text Generate.token_special
         Generate.generated_text].
    rewrite Hg, Ht. cbn. rewrite app_empty_r, andb_false_r.
    repeat split; reflexivity.
  - destruct (negb (String.eqb (default "" (delta_content c)) "")) eqn:Hc; cbn.
    + rewrite andb_true_r. repeat split; reflexivity.
    + apply negb_false_iff, String.eqb_eq in Hc. rewrite Hc.
      rewrite app_empty_r, andb_false_r. repeat split; reflexivity.
Qed.

Lemma run_cons (st : State) (c : Chunk) (chunks : list Chunk) :
  run st (c :: chunks)
  = (fst (run (fst (step st c)) chunks),
     snd (step st c) :: snd (run (fst (step st c)) chunks)).
Proof. reflexivity. Qed.

Lemma run_ids (chunks : list Chunk) :
  forall st : State,
    map out_id (snd (run st chunks))
    = map (fun k => tokenId st + Z.of_nat k) (seq 0 (List.length chunks)).
Proof.
  induction chunks as [|c chunks IH]; intros st; [reflexivity |].
  rewrite run_cons. cbn [snd map List.length seq].
  destruct (step_facts st c) as [Ht [Hid _]].
  rewrite Hid, IH, Ht, <- seq_shift, map_map. f_equal; [f_equal; lia |].
  apply map_ext. intros k. lia.
Qed.

Lemma assistant_text_cons (c : Chunk) (chunks : list Chunk) :
  assistant_text (c :: chunks) = assistant_content c +:+ assistant_text chunks.
Proof. unfold assistant_text. cbn [map]. apply concat_cons. Qed.

Lemma run_lookup (chunks : list Chunk) :
  forall (st : State) (k : nat) (c : Chunk) (o : Out),
    chunks !! k = Some c -> snd (run st chunks) !! k = Some o ->
    Generate.token_text (output o) = assistant_content c
    /\ Generate.token_special (output o) = is_last c
    /\ Generate.generated_text (output o)
       = if is_last c && nonempty (assistant_content c)
         then Some (generatedText st +:+ assistant_text (take (S k) chunks))
         else None.
Proof.
  induction chunks as [|c0 chunks IH]; intros st k c o Hc Ho; [discriminate Hc |].
  rewrite run_cons in Ho. cbn [snd] in Ho.
  destruct (step_facts st c0) as [_ [_ [Hg [Ht [Hs Hgt]]]]].
  destruct k as [|k].
  - simpl in Hc, Ho. injection Hc as <-. injection Ho as <-.
    rewrite Ht, Hs, Hgt.
    change (take 1 (c0 :: chunks)) with [c0].
    rewrite assistant_text_cons.
    change (assistant_text []) with EmptyString. rewrite app_empty_r.
    repeat split; reflexivity.
  - simpl in Hc, Ho.
    destruct (IH (fst (step st c0)) k c o Hc Ho) as [H1 [H2 H3]].
    rewrite H1, H2, H3, Hg. repeat split.
    change (take (S (S k)) (c0 :: chunks)) with (c0 :: take (S k) chunks).
    rewrite assistant_text_cons, app_assoc_s. reflexivity.
Qed.

End AdapterFacts.

Section HeaderFacts.

Import Adapter.

Lemma startsWith_split (p : string) :
  forall s : string,
    JS.startsWith s p = true -> s = p +:+ JS.sdrop (String.length p) s.
Proof.
  unfold JS.startsWith.
  induction p as [|a p IH]; intros s H; [reflexivity |].
  destruct s as [|c s]; [discriminate H |].
  simpl in H. destruct (ascii_dec a c) as [->|]; [|discriminate H].
  rewrite app_cons. simpl. f_equal. now apply IH.
Qed.

Lemma stops_app (p : ascii -> bool) (a b : string) :
  nonempty a = true -> stops p a = true -> stops p (a +:+ b) = true.
Proof.
  intros Hn Hs. destruct a as [|c a]; [discriminate Hn |].
  rewrite app_cons. exact Hs.
Qed.

Lemma stops_not_space (s : string) :
  every JS.is_space s = true -> stops not_space s = true.
Proof.
  destruct s as [|c s]; [reflexivity |]. simpl. unfold not_space.
  intros H. apply andb_true_iff in H as [-> _]. reflexivity.
Qed.

Lemma is_space_not_space (c : ascii) : not_space c = true -> JS.is_space c = false.
Proof. unfold not_space. now rewrite negb_true_iff. Qed.

Lemma parse_tool_header_complete (ws1 name ws2 id ws3 : string) :
  every JS.is_space ws1 = true ->
  nonempty name = true -> every not_bracket name = true ->
  nonempty ws2 = true -> every JS.is_space ws2 = true ->
  nonempty id = true -> every not_space id = true ->
  every JS.is_space ws3 = true ->
  parse_tool_header
    (ws1 +:+ "Tool[" +:+ name +:+ "]" +:+ ws2 +:+ id +:+ ws3)
  = Some (name, id).
Proof.
  intros H1 Hn1 Hn2 Hw1 Hw2 Hi1 Hi2 H3. unfold parse_tool_header.
  rewrite (span_every JS.is_space ws1 _ H1) by reflexivity.
  cbn [snd]. rewrite startsWith_app.
  rewrite (sdrop_app "Tool[" _ : JS.sdrop 5 ("Tool[" +:+ _) = _).
  rewrite (span_every not_bracket name _ Hn2) by reflexivity.
  rewrite (nonempty_eqb name Hn1).
  change ("]" +:+ ws2 +:+ id +:+ ws3) with (String "]" (ws2 +:+ id +:+ ws3)).
  cbv iota beta.
  rewrite (span_every JS.is_space ws2 _ Hw2).
  2:{ apply stops_app; [exact Hi1 |].
      apply (nonempty_stops not_space JS.is_space id is_space_not_space Hi1 Hi2). }
  rewrite (nonempty_eqb ws2 Hw1).
  rewrite (span_every not_space id ws3 Hi2 (stops_not_space ws3 H3)).
  rewrite (nonempty_eqb id Hi1).
  rewrite (span_all JS.is_space ws3 H3). reflexivity.
Qed.

Lemma parse_tool_header_sound (header name id : string) :
  parse_tool_header header = Some (name, id) ->
  exists ws1 ws2 ws3 : string,
    header = ws1 +:+ "Tool[" +:+ name +:+ "]" +:+ ws2 +:+ id +:+ ws3
    /\ every JS.is_space ws1 = true
    /\ nonempty name = true /\ every not_bracket name = true
    /\ nonempty ws2 = true /\ every JS.is_space ws2 = true
    /\ nonempty id = true /\ every not_space id = true
    /\ every JS.is_space ws3 = true.
Proof.
  unfold parse_tool_header.
  destruct (span_spec JS.is_space header) as [E1 [W1 _]].
  set (ws1 := fst (JS.span JS.is_space header)) in *.
  set (s1 := snd (JS.span JS.is_space header)) in *.
  destruct (JS.startsWith s1 "Tool[") eqn:Hp; [|discriminate].
  apply startsWith_split in Hp. change (String.length "Tool[") with 5%nat in Hp.
  destruct (span_spec not_bracket (JS.sdrop 5 s1)) as [E2 [W2 S2]].
  destruct (JS.span not_bracket (JS.sdrop 5 s1)) as [nm s2]. cbn [fst snd] in *.
  destruct (String.eqb nm "") eqn:Hnm; [discriminate |].
  destruct s2 as [|b s3]; [discriminate |].
  destruct (span_spec JS.is_space s3) as [E3 [W3 _]].
  destruct (JS.span JS.is_space s3) as [ws s4]. cbn [fst snd] in *.
  destruct (String.eqb ws "") eqn:Hws; [discriminate |].
  destruct (span_spec not_space s4) as [E4 [W4 _]].
  destruct (JS.span not_space s4) as [i s5]. cbn [fst snd] in *.
  destruct (String.eqb i "") eqn:Hi; [discriminate |].
  destruct (span_spec JS.is_space s5) as [E5 [W5 _]].
  destruct (String.eqb (snd (JS.span JS.is_space s5)) "") eqn:H5; [|discriminate].
  apply String.eqb_eq in H5. rewrite H5, app_empty_r in E5.
  intros [= <- <-].
  assert (Hb : b = "]"%char).
  { simpl in S2. unfold not_bracket in S2. rewrite negb_involutive in S2.
    now apply Ascii.eqb_eq in S2. }
  exists ws1, ws, (fst (JS.span JS.is_space s5)).
  split.
  { rewrite E1 at 1. f_equal. rewrite Hp at 1. f_equal. rewrite E2 at 1.
    f_equal. rewrite Hb. change ("]" +:+ ?x) with (String "]" x). f_equal.
    rewrite E3 at 1. f_equal. rewrite E4 at 1. f_equal. exact E5. }
  unfold nonempty. rewrite Hnm, Hws, Hi. repeat split; assumption.
Qed.

End HeaderFacts.

Section ToolResultFacts.

Import Adapter.

Lemma startsWith_newline (c : ascii) (s : string) :
  not_newline c = true -> JS.startsWith (String c s) Generate.nl = false.
Proof.
  unfold not_newline. rewrite negb_true_iff. intros Hc.
  unfold JS.startsWith, Generate.nl. cbn [String.prefix].
  destruct (ascii_dec (ascii_of_nat 10) c) as [<-|]; [|reflexivity].
  now rewrite Ascii.eqb_refl in Hc.
Qed.

Lemma indexOf_from_newline (a rest : string) :
  every not_newline a = true ->
  forall i : Z,
    JS.indexOf_from (a +:+ Generate.nl +:+ rest) Generate.nl i = i + JS.len a.
Proof.
  intros Ha. induction a as [|c a IH]; intros i.
  - unfold JS.len. simpl String.length. rewrite Z.add_0_r.
    apply indexOf_from_here. apply (startsWith_app Generate.nl rest).
  - simpl in Ha. apply andb_true_iff in Ha as [Hc Ha].
    rewrite app_cons. cbn [JS.indexOf_from].
    rewrite (startsWith_newline c _ Hc), (IH Ha). unfold JS.len. simpl String.length. lia.
Qed.

Lemma indexOf_from_no_newline (a : string) :
  every not_newline a = true ->
  forall i : Z, JS.indexOf_from a Generate.nl i = -1.
Proof.
  intros Ha. induction a as [|c a IH]; intros i; [reflexivity |].
  simpl in Ha. apply andb_true_iff in Ha as [Hc Ha].
  cbn [JS.indexOf_from].
  rewrite (startsWith_newline c _ Hc). apply (IH Ha).
Qed.

Lemma stake_app (a b : string) : JS.stake (String.length a) (a +:+ b) = a.
Proof.
  induction a as [|c a IH]; [reflexivity |].
  rewrite app_cons. simpl. now rewrite IH.
Qed.

Lemma slice_prefix (a b : string) : JS.slice (a +:+ b) 0 (JS.len a) = a.
Proof.
  unfold JS.slice, JS.clamp.
  pose proof (len_nonneg a) as Ha. pose proof (len_nonneg b) as Hb.
  rewrite len_app. change (0 <? 0) with false. cbv iota.
  destruct (Z.ltb_spec (JS.len a) 0); [lia |].
  replace (Z.min 0 (JS.len a + JS.len b)) with 0 by lia.
  replace (Z.min (JS.len a) (JS.len a + JS.len b)) with (JS.len a) by lia.
  replace (Z.max (JS.len a - 0) 0) with (JS.len a) by lia.
  change (Z.to_nat 0) with 0%nat. cbn [JS.sdrop].
  unfold JS.len. rewrite Nat2Z.id. apply stake_app.
Qed.

Lemma step_waiting (st : State) (piece : string) :
  waiting st ->
  every not_newline (default "" (pendingToolHeader st) +:+ piece) = true ->
  step st (tool_result_chunk piece)
  = (mkState (generatedText st) (tokenId st + 1) (toolArgBuffers st)
             (Some (default "" (pendingToolHeader st) +:+ piece))
             (currentToolName st) (currentToolId st),
     mkOut (tokenId st)
           (Generate.mkOutput "" false None None None
              (Some (Generate.mkToolResultDelta None None (Some ""))))).
Proof.
  intros Hw Hn. unfold step, tool_chunk. cbn.
  unfold waiting in Hw. rewrite Hw.
  unfold JS.indexOf. rewrite (indexOf_from_no_newline _ Hn).
  destruct (pendingToolHeader st); reflexivity.
Qed.

Lemma step_header (st : State) (q rest name id : string) :
  waiting st ->
  every not_newline (default "" (pendingToolHeader st) +:+ q) = true ->
  parse_tool_header (default "" (pendingToolHeader st) +:+ q) = Some (name, id) ->
  step st (tool_result_chunk (q +:+ Generate.nl +:+ rest))
  = (mkState (generatedText st) (tokenId st + 1) (toolArgBuffers st)
             None (Some name) (Some id),
     mkOut (tokenId st)
           (Generate.mkOutput "" false None None None
              (Some (Generate.mkToolResultDelta (Some id) (Some name)
                                                (Some rest))))).
Proof.
  intros Hw Hn Hp. unfold step, tool_chunk. cbn.
  unfold waiting in Hw. rewrite Hw.
  set (h := default "" (pendingToolHeader st) +:+ q) in *.
  assert (E : default "" (pendingToolHeader st) +:+ q +:+ Generate.nl +:+ rest
              = h +:+ Generate.nl +:+ rest).
  { unfold h. now rewrite app_assoc_s. }
  rewrite E. unfold JS.indexOf. rewrite (indexOf_from_newline h rest Hn).
  rewrite Z.add_0_l.
  pose proof (len_nonneg h) as Hl.
  destruct (Z.eqb_spec (JS.len h) (-1)) as [Hx|_]; [lia |].
  rewrite slice_prefix, Hp.
  replace (JS.slice_from (h +:+ Generate.nl +:+ rest) (JS.len h + 1)) with rest.
  2:{ rewrite <- (app_assoc_s h Generate.nl rest).
      replace (JS.len h + 1) with (JS.len (h +:+ Generate.nl))
        by (rewrite len_app; reflexivity).
      now rewrite slice_from_app. }
  destruct (pendingToolHeader st); reflexivity.
Qed.

Lemma step_streaming (st : State) (chunk : string) :
  pendingToolHeader st = None ->
  Generate.truthy (currentToolName st) = true ->
  step st (tool_result_chunk chunk)
  = (mkState (generatedText st) (tokenId st + 1) (toolArgBuffers st)
             None (currentToolName st) (currentToolId st),
     mkOut (tokenId st)
           (Generate.mkOutput "" false None None None
              (Some (Generate.mkToolResultDelta (currentToolId st)
                                                (currentToolName st)
                                                (Some chunk))))).
Proof.
  intros Hp Hn. unfold step, tool_chunk. cbn. rewrite Hp, Hn. reflexivity.
Qed.

Lemma run_app (a b : list Chunk) :
  forall st : State,
    run st (a ++ b)
    = (fst (run (fst (run st a)) b), snd (run st a) ++ snd (run (fst (run st a)) b)).
Proof.
  induction a as [|c a IH]; intros st.
  - simpl. now destruct (run st b).
  - change ((c :: a) ++ b) with (c :: (a ++ b)).
    rewrite !run_cons, IH. reflexivity.
Qed.

Lemma run_streaming (more : list string) :
  forall st : State,
    pendingToolHeader st = None ->
    Generate.truthy (currentToolName st) = true ->
    tool_results (snd (run st (map tool_result_chunk more)))
    = map (fun m => Some (Generate.mkToolResultDelta (currentToolId st)
                            (currentToolName st) (Some m))) more.
Proof.
  induction more as [|m more IH]; intros st Hp Hn; [reflexivity |].
  cbn [map]. rewrite run_cons, (step_streaming st m Hp Hn).
  cbn [fst snd]. unfold tool_results in *. cbn [map]. f_equal.
  now rewrite IH.
Qed.

Lemma run_waiting (pieces : list string) :
  forall st : State,
    waiting st ->
    every not_newline
      (default "" (pendingToolHeader st) +:+ String.concat "" pieces) = true ->
    let st' := fst (run st (map tool_result_chunk pieces)) in
    tool_results (snd (run st (map tool_result_chunk pieces)))
    = map (fun _ => Some (Generate.mkToolResultDelta None None (Some ""))) pieces
    /\ waiting st'
    /\ default "" (pendingToolHeader st')
       = default "" (pendingToolHeader st) +:+ String.concat "" pieces.
Proof.
  induction pieces as [|p pieces IH]; intros st Hw Hn.
  - simpl. rewrite app_empty_r. repeat split. exact Hw.
  - rewrite concat_cons in Hn. rewrite <- app_assoc_s in Hn.
    assert (Hn1 : every not_newline (default "" (pendingToolHeader st) +:+ p) = true).
    { rewrite every_app in Hn. now apply andb_true_iff in Hn as [? _]. }
    cbn [map]. rewrite run_cons, (step_waiting st p Hw Hn1). cbn [fst snd].
    set (st1 := mkState _ _ _ _ _ _).
    destruct (IH st1 Hw Hn) as [H1 [H2 H3]].
    cbv zeta. repeat split.
    + unfold tool_results in *. cbn [map]. f_equal. exact H1.
    + exact H2.
    + rewrite H3.
      change (default "" (pendingToolHeader st1))
        with (default "" (pendingToolHeader st) +:+ p).
      rewrite concat_cons. first [now rewrite app_assoc_s | now rewrite <- app_assoc_s].
Qed.

End ToolResultFacts.

(* ===================================================================== *)
(** ** Plain models: what [generate] makes of a stream *)
(* ===================================================================== *)

Section PlainFacts.

Import Generate.
Import Streams.

Lemma step_side (env : Env) (ctx : GenerateContext) (i : nat)
      (l : Locals) (o : Output) :
  exists (l2 : Locals) (side : list MessageUpdate),
    reasoning l2 = reasoning l
    /\ stream_tokens side = [] /\ final_answers side = []
    /\ step env ctx i l o
       = (fst (fst (main_branch env ctx i l2 o)),
          side ++ snd (fst (main_branch env ctx i l2 o)),
          snd (main_branch env ctx i l2 o)).
Proof.
  unfold step, main_branch.
  destruct (deliver_summaries_frame env i l) as [Hr0 _].
  set (l0 := deliver_summaries env i l) in *.
  destruct (reasoning_delta_frame o l0) as [Hr1 [Hf1 [Hs1 _]]].
  destruct (reasoning_delta o l0) as [l1 e1]. simpl in Hr1, Hf1, Hs1.
  pose proof (tool_call_deltas_events env (default [] (toolCallDeltas o))
                                      (toolArgBuffers l1)) as He2.
  destruct (tool_call_deltas env (default [] (toolCallDeltas o))
                             (toolArgBuffers l1)) as [bufs e2].
  simpl in He2. apply tool_events_plain in He2 as [Hf2 [Hs2 _]].
  pose proof (tool_result_delta_events o) as He3.
  apply tool_events_plain in He3 as [Hf3 [Hs3 _]].
  exists (set_toolArgBuffers bufs l1), (e1 ++ e2 ++ tool_result_delta o).
  split; [simpl; congruence |].
  split; [now rewrite !stream_tokens_app, Hs1, Hs2, Hs3 |].
  split; [now rewrite !final_answers_app, Hf1, Hf2, Hf3 |].
  destruct (match generated_text o with Some _ => _ | None => _ end)
    as [[l3 e4] c].
  simpl. now rewrite <- !app_assoc.
Qed.

Lemma stale_abort_check (env : Env) (ctx : GenerateContext) (i : nat) :
  stale_aborts env ctx -> abort_check env ctx i = Next.
Proof.
  intros H. unfold abort_check.
  destruct (getAbortTime env i) as [date|] eqn:Hd; [|reflexivity].
  specialize (H i date Hd).
  destruct (Z.ltb_spec (promptedAt ctx) date); [lia | reflexivity].
Qed.

Lemma plain_main (env : Env) (ctx : GenerateContext) (i : nat)
      (l : Locals) (o : Output) :
  model_reasoning (model ctx) = None -> stale_aborts env ctx ->
  reasoning l = false ->
  reasoning (fst (fst (main_branch env ctx i l o))) = false
  /\ snd (main_branch env ctx i l o) = Next
  /\ stream_tokens (snd (fst (main_branch env ctx i l o)))
     = (if streamed o then [token_text o] else [])
  /\ final_answers (snd (fst (main_branch env ctx i l o)))
     = (if closing o
        then [strip_stops (model ctx) o (default "" (generated_text o))]
        else []).
Proof.
  intros Hm Ha Hr. unfold main_branch, streamed, closing, truthy.
  assert (Ht : token_step env ctx i l o
               = if token_special o then (l, [], Next)
                 else (l, [Stream (token_text o)], Next)).
  { unfold token_step, pass_down. rewrite Hm, Hr.
    now rewrite (stale_abort_check env ctx i Ha). }
  destruct (generated_text o) as [gt|].
  - destruct (negb (String.eqb gt "")).
    + unfold final_step. rewrite Hm.
      destruct (strip_stops (model ctx) o gt) as [text int] eqn:Hs.
      cbn. rewrite Hs. repeat split; assumption.
    + rewrite Ht. destruct (token_special o); cbn; repeat split; assumption.
  - rewrite Ht. destruct (token_special o); cbn; repeat split; assumption.
Qed.

Lemma plain_loop (env : Env) (ctx : GenerateContext) (err : option string)
      (outs : list Output) :
  model_reasoning (model ctx) = None -> stale_aborts env ctx ->
  forall (i : nat) (l : Locals),
    reasoning l = false ->
    stream_tokens (events (loop env ctx i l outs err))
    = map token_text (List.filter streamed outs)
    /\ final_answers (events (loop env ctx i l outs err))
       = map (fun o => strip_stops (model ctx) o (default "" (generated_text o)))
             (List.filter closing outs)
    /\ thrown (loop env ctx i l outs err) = err
    /\ consumed (loop env ctx i l outs err) = List.length outs.
Proof.
  intros Hm Ha. induction outs as [|o outs IH]; intros i l Hr.
  - repeat split.
  - cbn [loop].
    destruct (step_side env ctx i l o) as [l2 [side [Hr2 [Hs [Hf Hstep]]]]].
    rewrite Hstep.
    destruct (plain_main env ctx i l2 o Hm Ha) as [Hr3 [Hc [Hst Hfa]]];
      [congruence |].
    rewrite Hc.
    destruct (IH (S i) (fst (fst (main_branch env ctx i l2 o))) Hr3)
      as [I1 [I2 [I3 I4]]].
    cbn [events thrown consumed List.filter].
    rewrite !stream_tokens_app, !final_answers_app, Hs, Hf, Hst, Hfa, I1, I2, I3, I4.
    repeat split.
    + destruct (streamed o); reflexivity.
    + destruct (closing o); reflexivity.
Qed.

Lemma plain_generate (env : Env) (ctx : GenerateContext)
        (preprompt : option string) :
  model_reasoning (model ctx) = None -> stale_aborts env ctx ->
  let s := provider_stream ctx preprompt in
  let r := generate env ctx preprompt in
  stream_tokens (events r) = map token_text (List.filter streamed (outputs s))
  /\ final_answers (events r)
     = map (fun o => strip_stops (model ctx) o (default "" (generated_text o)))
           (List.filter closing (outputs s))
  /\ thrown r = stream_error s
  /\ consumed r = List.length (outputs s).
Proof.
  intros Hm Ha s r. unfold r, generate. cbv zeta.
  assert (Hs : starts_reasoning (model ctx) = false).
  { unfold starts_reasoning. now rewrite Hm. }
  rewrite Hs. cbn [events thrown consumed app].
  apply plain_loop; [exact Hm | exact Ha |].
  unfold initial_locals. simpl. exact Hs.
Qed.

End PlainFacts.

Section Composition.

Import Generate.
Import Streams.

Import Adapter.



Lemma strip_stop_settled (stops : list string) :
  forall text : string, snd (fold_left strip_stop stops (text, false)) = false.
Proof.
  induction stops as [|s stops IH]; intros text; [reflexivity |].
  cbn [fold_left]. unfold strip_stop at 2.
  destruct (JS.endsWith text s); apply IH.
Qed.


End Composition.

(** X1. The adapter yields one output per completion chunk, tool chunks
    included, and numbers the tokens 0, 1, 2, ... in the order of the
    chunks. *)
Theorem adapter_token_ids :
  forall chunks : list Adapter.Chunk,
    map Adapter.out_id (snd (Adapter.run Adapter.initial chunks))
    = map Z.of_nat (seq 0 (List.length chunks)).
Proof.
  intros chunks. rewrite run_ids. apply map_ext. intros k.
  change (Adapter.tokenId Adapter.initial) with 0. lia.
Qed.

(** X2. The output for the chunk at position [k] carries the chunk's
    assistant content as token text (nothing for a tool chunk) and is
    special exactly when the chunk finishes the completion.  Its
    generated text is set only on a finishing chunk that has content,
    and is then the concatenation of the assistant content of all chunks
    up to and including it: tool chunks never contribute to it. *)
Theorem adapter_generated_text :
  forall (chunks : list Adapter.Chunk) (k : nat)
         (c : Adapter.Chunk) (o : Adapter.Out),
    chunks !! k = Some c ->
    snd (Adapter.run Adapter.initial chunks) !! k = Some o ->
    Generate.token_text (Adapter.output o) = Adapter.assistant_content c
    /\ Generate.token_special (Adapter.output o) = Adapter.is_last c
    /\ Generate.generated_text (Adapter.output o)
       = if Adapter.is_last c && nonempty (Adapter.assistant_content c)
         then Some (Adapter.assistant_text (take (S k) chunks))
         else None.
Proof.
  intros chunks k c o Hc Ho.
  exact (run_lookup chunks Adapter.initial k c o Hc Ho).
Qed.

(** The third chunk of [hello_chunks] closes the stream with the text of
    the two assistant chunks; the tool chunk in between is left out. *)
Lemma adapter_generated_text_witness :
  let c := Adapter.text_chunk "lo " (Some "stop") in
  let o := Adapter.mkOut 2 (Generate.final "lo " true "Hello ") in
  Samples.hello_chunks !! 2%nat = Some c
  /\ snd (Adapter.run Adapter.initial Samples.hello_chunks) !! 2%nat = Some o
  /\ Generate.generated_text (Adapter.output o)
     = if Adapter.is_last c && nonempty (Adapter.assistant_content c)
       then Some (Adapter.assistant_text (take 3 Samples.hello_chunks))
       else None.
Proof.
  intros c o.
  assert (H1 : Samples.hello_chunks !! 2%nat = Some c) by reflexivity.
  assert (H2 : snd (Adapter.run Adapter.initial Samples.hello_chunks) !! 2%nat
               = Some o) by reflexivity.
  split; [exact H1 |]. split; [exact H2 |].
  exact (proj2 (proj2 (adapter_generated_text Samples.hello_chunks 2 c o H1 H2))).
Defined.

(** X3. The header of a tool result is accepted exactly when it has the
    form: white space, [Tool[], a non-empty name without a closing
    bracket, the closing bracket, at least one white space, a non-empty
    id without white space, white space.  The name and the id are then
    what the parser returns. *)
Theorem tool_header_format :
  forall header name id : string,
    Adapter.parse_tool_header header = Some (name, id)
    <-> exists ws1 ws2 ws3 : string,
          header = ws1 +:+ "Tool[" +:+ name +:+ "]" +:+ ws2 +:+ id +:+ ws3
          /\ every JS.is_space ws1 = true
          /\ nonempty name = true /\ every not_bracket name = true
          /\ nonempty ws2 = true /\ every JS.is_space ws2 = true
          /\ nonempty id = true /\ every not_space id = true
          /\ every JS.is_space ws3 = true.
Proof.
  intros header name id. split.
  - apply parse_tool_header_sound.
  - intros [ws1 [ws2 [ws3 [-> [H1 [H2 [H3 [H4 [H5 [H6 [H7 H8]]]]]]]]]]].
    now apply parse_tool_header_complete.
Qed.

(** X4. Tool chunks that arrive before the header line is complete yield
    an empty result delta without name or id.  The chunk that completes
    the line yields the parsed name and id with the text after the line
    break.  From then on every tool chunk is passed through whole under
    that name and id, also one that starts with the header of another
    tool. *)
Theorem tool_result_attribution :
  forall (pieces : list string) (q rest name id : string) (more : list string),
    every not_newline (String.concat "" pieces +:+ q) = true ->
    Adapter.parse_tool_header (String.concat "" pieces +:+ q) = Some (name, id) ->
    Adapter.tool_results
      (snd (Adapter.run Adapter.initial
              (map Adapter.tool_result_chunk
                   (pieces ++ (q +:+ Generate.nl +:+ rest) :: more))))
    = map (fun _ => Some (Generate.mkToolResultDelta None None (Some ""))) pieces
      ++ Some (Generate.mkToolResultDelta (Some id) (Some name) (Some rest))
      :: map (fun m => Some (Generate.mkToolResultDelta (Some id) (Some name)
                                                        (Some m))) more.
Proof.
  intros pieces q rest name id more Hn Hp.
  rewrite map_app, run_app. cbn [snd map].
  unfold Adapter.tool_results. rewrite map_app.
  assert (Hn0 : every not_newline
                  (default "" (Adapter.pendingToolHeader Adapter.initial)
                     +:+ String.concat "" pieces) = true).
  { rewrite every_app in Hn. now apply andb_true_iff in Hn as [? _]. }
  destruct (run_waiting pieces Adapter.initial eq_refl Hn0) as [H1 [Hw Hpend]].
  unfold Adapter.tool_results in H1. rewrite H1. f_equal.
  set (st := fst (Adapter.run Adapter.initial
                    (map Adapter.tool_result_chunk pieces))) in *.
  change (default "" (Adapter.pendingToolHeader Adapter.initial)
            +:+ String.concat "" pieces)
    with (String.concat "" pieces) in Hpend.
  rewrite <- Hpend in Hn, Hp.
  rewrite run_cons, (step_header st q rest name id Hw Hn Hp).
  cbn [fst snd map Adapter.output Generate.toolResultDelta]. f_equal.
  apply parse_tool_header_sound in Hp
    as [_ [_ [_ [_ [_ [Hne _]]]]]].
  apply (run_streaming more); [reflexivity |].
  exact Hne.
Qed.

(** The header [Tool[search] call_1] arrives in three pieces; a later
    chunk that starts with the header of another tool is attributed to
    [search] all the same. *)
Lemma tool_result_attribution_witness :
  let pieces := ["Too"; "l[sea"] in
  let more := ["Tool[other] call_2" +:+ Generate.nl +:+ "rainy"] in
  every not_newline (String.concat "" pieces +:+ "rch] call_1") = true
  /\ Adapter.parse_tool_header (String.concat "" pieces +:+ "rch] call_1")
     = Some ("search", "call_1")
  /\ Adapter.tool_results
       (snd (Adapter.run Adapter.initial
               (map Adapter.tool_result_chunk
                    (pieces ++ ("rch] call_1" +:+ Generate.nl +:+ "sunny") :: more))))
     = [Some (Generate.mkToolResultDelta None None (Some ""));
        Some (Generate.mkToolResultDelta None None (Some ""));
        Some (Generate.mkToolResultDelta (Some "call_1") (Some "search")
                                         (Some "sunny"));
        Some (Generate.mkToolResultDelta
                (Some "call_1") (Some "search")
                (Some ("Tool[other] call_2" +:+ Generate.nl +:+ "rainy")))].
Proof.
  intros pieces more.
  assert (H1 : every not_newline (String.concat "" pieces +:+ "rch] call_1") = true)
    by reflexivity.
  assert (H2 : Adapter.parse_tool_header (String.concat "" pieces +:+ "rch] call_1")
               = Some ("search", "call_1")) by reflexivity.
  split; [exact H1 |]. split; [exact H2 |].
  exact (tool_result_attribution pieces "rch] call_1" "sunny" "search" "call_1"
                                 more H1 H2).
Defined.

(** X5. For a model without reasoning configuration, and as long as the
    abort registry holds nothing newer than the prompt, [generate] reads
    the whole provider stream and ends as the stream ends.  Every
    ordinary token is emitted as one Stream event, in order and
    unchanged; special tokens are emitted as nothing; each output that
    carries generated text gives one FinalAnswer with the stop tokens
    stripped, and nothing else produces a Stream or FinalAnswer
    event. *)
Theorem plain_model_streams_every_token :
  forall (env : Generate.Env) (ctx : Generate.GenerateContext)
         (preprompt : option string),
    Generate.model_reasoning (Generate.model ctx) = None ->
    Streams.stale_aborts env ctx ->
    let s := Streams.provider_stream ctx preprompt in
    let r := Generate.generate env ctx preprompt in
    stream_tokens (Generate.events r)
    = map Generate.token_text (List.filter Streams.streamed (Generate.outputs s))
    /\ final_answers (Generate.events r)
       = map (fun o => Generate.strip_stops (Generate.model ctx) o
                         (default "" (Generate.generated_text o)))
             (List.filter Streams.closing (Generate.outputs s))
    /\ Generate.thrown r = Generate.stream_error s
    /\ Generate.consumed r = List.length (Generate.outputs s).
Proof.
  intros env ctx preprompt Hm Ha. exact (plain_generate env ctx preprompt Hm Ha).
Qed.

(** The registry holds 3 and the turn was prompted at 5: the three
    outputs are read, and the two ordinary tokens are streamed. *)
Lemma plain_model_streams_every_token_witness :
  let env := Examples.aborted_at 3 in
  let outs := [Generate.tok "a"; Generate.special_tok "<s>"; Generate.tok "b"] in
  let ctx := Examples.context Examples.plain_model (Examples.provider outs) in
  Generate.model_reasoning (Generate.model ctx) = None
  /\ Streams.stale_aborts env ctx
  /\ stream_tokens (Generate.events (Generate.generate env ctx None)) = ["a"; "b"]
  /\ Generate.consumed (Generate.generate env ctx None) = 3%nat.
Proof.
  intros env outs ctx.
  assert (H1 : Generate.model_reasoning (Generate.model ctx) = None)
    by reflexivity.
  assert (H2 : Streams.stale_aborts env ctx).
  { intros i date H. injection H as <-. simpl. lia. }
  split; [exact H1 |]. split; [exact H2 |].
  pose proof (plain_model_streams_every_token env ctx None H1 H2) as H.
  split; [exact (proj1 H) | exact (proj2 (proj2 (proj2 H)))].
Defined.





(* ===================================================================== *)
(** ** The turn: what is kept of the events *)
(* ===================================================================== *)

Section TurnMore.

Import Encoder.

Variable stringify : MessageUpdate -> string.
Variable isRouter : bool.

Lemma same_place_refl (st : State) : same_place st st.
Proof. repeat split. Qed.

Lemma same_place_trans (a b c : State) :
  same_place a b -> same_place b c -> same_place a c.
Proof.
  unfold same_place. intros [A1 [A2 [A3 [A4 [A5 A6]]]]] [B1 [B2 [B3 [B4 [B5 B6]]]]].
  repeat split; congruence.
Qed.

Lemma update_same_place (init : string) (now : Z) (st : State)
      (e : MessageUpdate) :
  same_place st (update stringify isRouter init now st e).
Proof.
  unfold update.
  destruct e as [s m|t|u c|u r|u m|u n|tk|n sh mi|tx i|tk|s|r m];
    try (destruct s); try (destruct tk as [|c tk]);
    try (destruct isRouter); repeat split.
Qed.

Lemma updates_from_same_place (init : string) (clock : nat -> Z)
      (evs : list MessageUpdate) :
  forall (k : nat) (st : State),
    same_place st (updates_from stringify isRouter init clock k st evs).
Proof.
  induction evs as [|e evs IH]; intros k st; [apply same_place_refl |].
  rewrite updates_from_cons.
  eapply same_place_trans; [apply update_same_place | apply IH].
Qed.

Lemma update_updates (init : string) (now : Z) (st : State)
      (e : MessageUpdate) :
  updates (messageToWriteTo (update stringify isRouter init now st e))
  = option_map (fun u => u ++ List.filter persisted [e])
               (updates (messageToWriteTo st)).
Proof.
  unfold update.
  destruct e as [s m|t|u c|u r|u m|u n|tk|n sh mi|tx i|tk|s|r m];
    try (destruct s); try (destruct tk as [|c tk]);
    try (destruct isRouter); cbn;
    destruct (updates (messageToWriteTo st)); cbn; rewrite ?app_nil_r; reflexivity.
Qed.

Lemma updates_from_updates (init : string) (clock : nat -> Z)
      (evs : list MessageUpdate) :
  forall (k : nat) (st : State),
    updates (messageToWriteTo (updates_from stringify isRouter init clock k st evs))
    = option_map (fun u => u ++ List.filter persisted evs)
                 (updates (messageToWriteTo st)).
Proof.
  induction evs as [|e evs IH]; intros k st.
  - cbn. destruct (updates (messageToWriteTo st)); cbn; now rewrite ?app_nil_r.
  - rewrite updates_from_cons, IH, update_updates.
    destruct (updates (messageToWriteTo st)) as [u|]; [|reflexivity].
    cbn [option_map]. f_equal. rewrite <- app_assoc. f_equal.
    change (e :: evs) with ([e] ++ evs). now rewrite List.filter_app.
Qed.

Lemma updates_from_app (init : string) (clock : nat -> Z)
      (a b : list MessageUpdate) :
  forall (k : nat) (st : State),
    updates_from stringify isRouter init clock k st (a ++ b)
    = updates_from stringify isRouter init clock (k + List.length a)
        (updates_from stringify isRouter init clock k st a) b.
Proof.
  induction a as [|e a IH]; intros k st.
  - simpl. now rewrite Nat.add_0_r.
  - change ((e :: a) ++ b) with (e :: (a ++ b)).
    rewrite !updates_from_cons, IH. simpl List.length.
    now replace (S k + List.length a)%nat with (k + S (List.length a))%nat by lia.
Qed.

(** The state a turn reaches, as one run of [update] over everything it
    handles. *)
Lemma turn_final_state (clock : nat -> Z) (evs : list MessageUpdate)
      (thrown : option string) (st : State) :
  let t := turn stringify isRouter clock evs thrown st in
  let st0 :=
    with_message
      (fun m => set_updatedAt (clock 0%nat)
                  (set_updates (Some (default [] (updates m))) m))
      (db_write (SetTitle (conv_title st) (clock 0%nat)) st) in
  let st3 := updates_from stringify isRouter (content (messageToWriteTo st))
                          clock 0 st0 (handled t) in
  final_state t
  = db_write (SetMessages (conv_messages st3) (conv_title st3)
                          (clock (List.length (handled t)))) st3.
Proof.
  unfold turn. cbv zeta. cbn [final_state handled].
  set (st0 := with_message _ _).
  change (content (messageToWriteTo st0)) with (content (messageToWriteTo st)).
  set (init := content (messageToWriteTo st)).
  rewrite !updates_from_app, !List.length_app. cbn [Nat.add].
  rewrite Nat.add_assoc. reflexivity.
Qed.

End TurnMore.

Section TurnMore2.

Import Encoder.

Variable stringify : MessageUpdate -> string.
Variable isRouter : bool.

Lemma update_db (init : string) (now : Z) (st : State) (e : MessageUpdate) :
  db (update stringify isRouter init now st e)
  = db st ++ match e with
             | Title t => [SetTitle (sanitize_title t) now]
             | _ => []
             end
  /\ conv_title (update stringify isRouter init now st e)
     = match e with
       | Title t => sanitize_title t
       | _ => conv_title st
       end.
Proof.
  unfold update.
  destruct e as [s m|t|u c|u r|u m|u n|tk|n sh mi|tx i|tk|s|r m];
    try (destruct s); try (destruct tk as [|c tk]);
    try (destruct isRouter); cbn; rewrite ?app_nil_r; split; reflexivity.
Qed.

Lemma updates_from_db (init : string) (clock : nat -> Z)
      (evs : list MessageUpdate) :
  forall (k : nat) (st : State),
    db (updates_from stringify isRouter init clock k st evs)
    = db st ++ title_writes clock k evs
    /\ conv_title (updates_from stringify isRouter init clock k st evs)
       = default (conv_title st) (last (map sanitize_title (titles evs))).
Proof.
  induction evs as [|e evs IH]; intros k st.
  - cbn. now rewrite app_nil_r.
  - rewrite updates_from_cons.
    destruct (IH (S k) (update stringify isRouter init (clock k) st e)) as [H1 H2].
    destruct (update_db init (clock k) st e) as [U1 U2].
    rewrite H1, H2, U1, U2. clear.
    destruct e; cbn [title_writes titles flat_map app map];
      rewrite ?app_nil_r; try (split; reflexivity).
    rewrite <- app_assoc. split; [reflexivity |].
    fold (titles evs). rewrite last_cons.
    destruct (last (map sanitize_title (titles evs))); reflexivity.
Qed.

Lemma update_reasoning (init : string) (now : Z) (st : State)
      (e : MessageUpdate) :
  reasoning (messageToWriteTo (update stringify isRouter init now st e))
  = match e with
    | ReasoningStream t =>
        Some (default "" (reasoning (messageToWriteTo st)) +:+ t)
    | _ => reasoning (messageToWriteTo st)
    end.
Proof.
  unfold update.
  destruct e as [s m|t|u c|u r|u m|u n|tk|n sh mi|tx i|tk|s|r m];
    try (destruct s); try (destruct tk as [|c tk]);
    try (destruct isRouter); reflexivity.
Qed.

Lemma updates_from_reasoning (init : string) (clock : nat -> Z)
      (evs : list MessageUpdate) :
  forall (k : nat) (st : State),
    reasoning (messageToWriteTo
                 (updates_from stringify isRouter init clock k st evs))
    = match reasoning_tokens evs with
      | [] => reasoning (messageToWriteTo st)
      | ts => Some (default "" (reasoning (messageToWriteTo st))
                      +:+ String.concat "" ts)
      end.
Proof.
  induction evs as [|e evs IH]; intros k st; [reflexivity |].
  rewrite updates_from_cons, IH, update_reasoning.
  destruct e; try reflexivity.
  change (reasoning_tokens (ReasoningStream token :: evs))
    with (token :: reasoning_tokens evs).
  cbv iota beta. rewrite concat_cons.
  destruct (reasoning_tokens evs) as [|t ts].
  - change (String.concat "" []) with EmptyString. now rewrite app_empty_r.
  - change (default "" (Some ?x)) with x. now rewrite app_assoc_s.
Qed.

Lemma closing_events_plain (thrown : option string) (err : bool)
      (init : string) (st : State) :
  let closing := catch_events thrown ++ finally_events err init st in
  final_answers closing = [] /\ stream_tokens closing = []
  /\ reasoning_tokens closing = [] /\ titles closing = []
  /\ Forall (fun e => persisted e = true) closing.
Proof.
  unfold catch_events, finally_events.
  destruct thrown, (negb err && _); cbn; repeat split; repeat constructor.
Qed.

Lemma turn_handled (clock : nat -> Z) (evs : list MessageUpdate)
      (thrown : option string) (st : State) :
  exists closing : list MessageUpdate,
    handled (turn stringify isRouter clock evs thrown st) = evs ++ closing
    /\ final_answers closing = [] /\ stream_tokens closing = []
    /\ reasoning_tokens closing = [] /\ titles closing = [].
Proof.
  unfold turn. cbv zeta. cbn [handled].
  eexists. split; [reflexivity |].
  match goal with
  | |- context [catch_events ?t ++ finally_events ?e ?i ?s] =>
      destruct (closing_events_plain t e i s) as [H1 [H2 [H3 [H4 _]]]]
  end.
  repeat split; assumption.
Qed.

End TurnMore2.

Section Sanitize.

Import Encoder.

Lemma istartsWith_lt (c : ascii) (s p : string) :
  not_lt c = true -> JS.istartsWith (String c s) (String "<" p) = false.
Proof.
  unfold not_lt. rewrite negb_true_iff. intros Hc.
  cbn [JS.istartsWith].
  assert (H : Ascii.eqb (JS.lower c) "<" = false).
  { unfold JS.lower.
    destruct ((65 <=? nat_of_ascii c)%nat && (nat_of_ascii c <=? 90)%nat) eqn:Hu;
      [|exact Hc].
    apply andb_true_iff in Hu as [H1 H2].
    apply Nat.leb_le in H1, H2.
    apply Ascii.eqb_neq. intros E.
    apply (f_equal nat_of_ascii) in E.
    rewrite nat_ascii_embedding in E by lia.
    change (nat_of_ascii "<") with 60%nat in E. lia. }
  now rewrite H.
Qed.

Lemma strip_think_plain (s : string) :
  every not_lt s = true -> strip_think 0 s = s.
Proof.
  induction s as [|c s IH]; [reflexivity |].
  simpl every. intros H. apply andb_true_iff in H as [Hc Hs].
  cbn [strip_think].
  rewrite !(istartsWith_lt c s _ Hc). now rewrite (IH Hs).
Qed.

Lemma strip_think_plain_app (a b : string) :
  every not_lt a = true -> strip_think 0 (a +:+ b) = a +:+ strip_think 0 b.
Proof.
  induction a as [|c a IH]; [reflexivity |].
  simpl every. intros H. apply andb_true_iff in H as [Hc Hs].
  rewrite !app_cons. cbn [strip_think].
  rewrite !(istartsWith_lt c _ _ Hc). now rewrite (IH Hs).
Qed.

End Sanitize.

Lemma titles_app (a b : list MessageUpdate) :
  titles (a ++ b) = titles a ++ titles b.
Proof. unfold titles. apply flat_map_app. Qed.

Lemma title_writes_closing (clock : nat -> Z) (closing : list MessageUpdate) :
  titles closing = [] ->
  forall (evs : list MessageUpdate) (k : nat),
    title_writes clock k (evs ++ closing) = title_writes clock k evs.
Proof.
  intros Hc evs. induction evs as [|e evs IH]; intros k.
  - simpl. revert k. induction closing as [|c closing IHc]; intros k; [reflexivity |].
    destruct c; try discriminate Hc; simpl; apply IHc; exact Hc.
  - change ((e :: evs) ++ closing) with (e :: (evs ++ closing)).
    destruct e; simpl; rewrite IH; reflexivity.
Qed.

(** X8. A turn changes one message only: the messages before and after
    the target message are what they were, and the target message keeps
    its id, its author and its place in the tree (ancestors and
    children), whatever the events and however the stream ends. *)
Theorem turn_touches_only_its_message :
  forall (stringify : MessageUpdate -> string) (isRouter : bool)
         (clock : nat -> Z) (evs : list MessageUpdate)
         (thrown : option string) (st : Encoder.State),
    let st' := Encoder.final_state
                 (Encoder.turn stringify isRouter clock evs thrown st) in
    Encoder.before st' = Encoder.before st
    /\ Encoder.after st' = Encoder.after st
    /\ Encoder.id (Encoder.messageToWriteTo st')
       = Encoder.id (Encoder.messageToWriteTo st)
    /\ Encoder.from (Encoder.messageToWriteTo st')
       = Encoder.from (Encoder.messageToWriteTo st)
    /\ Encoder.ancestors (Encoder.messageToWriteTo st')
       = Encoder.ancestors (Encoder.messageToWriteTo st)
    /\ Encoder.children (Encoder.messageToWriteTo st')
       = Encoder.children (Encoder.messageToWriteTo st).
Proof.
  intros stringify isRouter clock evs thrown st st'. unfold st'.
  rewrite turn_final_state.
  set (st0 := Encoder.with_message _ _).
  pose proof (updates_from_same_place stringify isRouter
                (Encoder.content (Encoder.messageToWriteTo st)) clock
                (Encoder.handled
                   (Encoder.turn stringify isRouter clock evs thrown st))
                0%nat st0) as H.
  exact H.
Qed.

(** X9. At the end of a turn the [updates] of the target message are
    the ones it had, followed by every handled event except Stream
    tokens, keep-alive statuses and reasoning tokens, in the order they
    were handled; the error events of the [catch] and [finally] blocks
    are among them. *)
Theorem turn_persists_events :
  forall (stringify : MessageUpdate -> string) (isRouter : bool)
         (clock : nat -> Z) (evs : list MessageUpdate)
         (thrown : option string) (st : Encoder.State),
    let t := Encoder.turn stringify isRouter clock evs thrown st in
    Encoder.updates (Encoder.messageToWriteTo (Encoder.final_state t))
    = Some (default [] (Encoder.updates (Encoder.messageToWriteTo st))
              ++ List.filter Encoder.persisted (Encoder.handled t)).
Proof.
  intros stringify isRouter clock evs thrown st t. unfold t.
  rewrite turn_final_state.
  change (Encoder.messageToWriteTo (Encoder.db_write ?w ?s))
    with (Encoder.messageToWriteTo s).
  now rewrite updates_from_updates.
Qed.

(** X10. A FinalAnswer replaces what was streamed before it: after the
    last FinalAnswer of a turn the content is the content the message
    had when the turn started followed by the answer text, then by the
    Stream tokens that came after it, and the interrupted flag is the one
    of that FinalAnswer. *)
Theorem final_answer_replaces_content :
  forall (stringify : MessageUpdate -> string) (isRouter : bool)
         (clock : nat -> Z) (pre post : list MessageUpdate)
         (text : string) (i : bool) (thrown : option string)
         (st : Encoder.State),
    final_answers post = [] ->
    let t := Encoder.turn stringify isRouter clock
                          (pre ++ FinalAnswer text i :: post) thrown st in
    Encoder.content (Encoder.messageToWriteTo (Encoder.final_state t))
    = Encoder.content (Encoder.messageToWriteTo st) +:+ text
        +:+ String.concat "" (stream_tokens post)
    /\ Encoder.interrupted (Encoder.messageToWriteTo (Encoder.final_state t))
       = Some i.
Proof.
  intros stringify isRouter clock pre post text i thrown st Hpost t.
  unfold t. rewrite turn_final_state.
  change (Encoder.messageToWriteTo (Encoder.db_write ?w ?s))
    with (Encoder.messageToWriteTo s).
  set (st0 := Encoder.with_message _ _).
  set (init := Encoder.content (Encoder.messageToWriteTo st)).
  destruct (turn_handled stringify isRouter clock
              (pre ++ FinalAnswer text i :: post) thrown st)
    as [closing [Hh [Hc1 [Hc2 _]]]].
  rewrite Hh. clear Hh.
  rewrite <- app_assoc, updates_from_app.
  change ((FinalAnswer text i :: post) ++ closing)
    with (FinalAnswer text i :: (post ++ closing)).
  rewrite updates_from_cons.
  set (st1 := Encoder.updates_from stringify isRouter init clock 0 st0 pre).
  destruct (partial_content stringify isRouter init clock (post ++ closing))
    with (k := S (0 + List.length pre))
         (st := Encoder.update stringify isRouter init
                  (clock (0 + List.length pre)%nat) st1 (FinalAnswer text i))
    as [H1 H2].
  { now rewrite final_answers_app, Hpost, Hc1. }
  rewrite H1, H2, stream_tokens_app, Hc2, app_nil_r.
  split; [|reflexivity].
  change (Encoder.content
            (Encoder.messageToWriteTo
               (Encoder.update stringify isRouter init
                  (clock (0 + List.length pre)%nat) st1 (FinalAnswer text i))))
    with (init +:+ text).
  apply app_assoc_s.
Qed.

(** X11. A turn writes to the database once when it starts (title and
    timestamp), once per Title event (the sanitised title, when the
    event is handled) and once at the end (the messages with the target
    message as it ended up, and the title); no write is made per token.
    The title at the end is the sanitised title of the last Title event,
    or the one the conversation had. *)
Theorem turn_database_writes :
  forall (stringify : MessageUpdate -> string) (isRouter : bool)
         (clock : nat -> Z) (evs : list MessageUpdate)
         (thrown : option string) (st : Encoder.State),
    let t := Encoder.turn stringify isRouter clock evs thrown st in
    let st' := Encoder.final_state t in
    Encoder.db st'
    = Encoder.db st
        ++ Encoder.SetTitle (Encoder.conv_title st) (clock 0%nat)
        :: title_writes clock 0 evs
        ++ [Encoder.SetMessages
              (Encoder.before st ++ Encoder.messageToWriteTo st'
                 :: Encoder.after st)
              (Encoder.conv_title st')
              (clock (List.length (Encoder.handled t)))]
    /\ Encoder.conv_title st'
       = default (Encoder.conv_title st)
                 (last (map Encoder.sanitize_title (titles evs))).
Proof.
  intros stringify isRouter clock evs thrown st t st'. unfold st', t.
  rewrite turn_final_state.
  set (st0 := Encoder.with_message _ _).
  set (init := Encoder.content (Encoder.messageToWriteTo st)).
  destruct (turn_handled stringify isRouter clock evs thrown st)
    as [closing [Hh [_ [_ [_ Ht]]]]].
  set (h := Encoder.handled _) in *.
  destruct (updates_from_db stringify isRouter init clock h 0 st0) as [D T].
  destruct (updates_from_same_place stringify isRouter init clock h 0%nat st0)
    as [B [A _]].
  set (st3 := Encoder.updates_from stringify isRouter init clock 0 st0 h) in *.
  change (Encoder.db (Encoder.db_write ?w st3)) with (Encoder.db st3 ++ [w]).
  change (Encoder.conv_title (Encoder.db_write ?w st3)) with (Encoder.conv_title st3).
  change (Encoder.messageToWriteTo (Encoder.db_write ?w st3))
    with (Encoder.messageToWriteTo st3).
  unfold Encoder.conv_messages. rewrite D, T, B, A.
  rewrite Hh, (title_writes_closing clock closing Ht), titles_app, Ht, app_nil_r.
  change (Encoder.db st0)
    with (Encoder.db st ++ [Encoder.SetTitle (Encoder.conv_title st) (clock 0%nat)]).
  split; [|reflexivity].
  rewrite <- !app_assoc. reflexivity.
Qed.

(** X12. The reasoning text of the target message grows by the tokens of
    the reasoning stream, in order; a turn without reasoning tokens
    leaves the field as it was, absent if it was absent. *)
Theorem turn_accumulates_reasoning :
  forall (stringify : MessageUpdate -> string) (isRouter : bool)
         (clock : nat -> Z) (evs : list MessageUpdate)
         (thrown : option string) (st : Encoder.State),
    let t := Encoder.turn stringify isRouter clock evs thrown st in
    Encoder.reasoning (Encoder.messageToWriteTo (Encoder.final_state t))
    = match reasoning_tokens evs with
      | [] => Encoder.reasoning (Encoder.messageToWriteTo st)
      | ts => Some (default "" (Encoder.reasoning (Encoder.messageToWriteTo st))
                      +:+ String.concat "" ts)
      end.
Proof.
  intros stringify isRouter clock evs thrown st t. unfold t.
  rewrite turn_final_state.
  change (Encoder.messageToWriteTo (Encoder.db_write ?w ?s))
    with (Encoder.messageToWriteTo s).
  rewrite updates_from_reasoning.
  destruct (turn_handled stringify isRouter clock evs thrown st)
    as [closing [Hh [_ [_ [Hr _]]]]].
  rewrite Hh, reasoning_tokens_app, Hr, app_nil_r. reflexivity.
Qed.

(** X13. A title wrapped in a think element is stored without the tags
    and without surrounding white space. *)
Theorem sanitize_title_unwraps_think :
  forall t : string,
    every not_lt t = true ->
    Encoder.sanitize_title ("<think>" +:+ t +:+ "</think>") = JS.trim t.
Proof.
  intros t Ht. unfold Encoder.sanitize_title. f_equal.
  transitivity (Encoder.strip_think 0 (t +:+ "</think>"));
    [destruct t; reflexivity |].
  rewrite (strip_think_plain_app t _ Ht).
  change (Encoder.strip_think 0 "</think>") with EmptyString.
  apply app_empty_r.
Qed.

(** The stream of the route's test: the token [Hello], the answer
    [Hello world] and the closing status. *)
Lemma final_answer_replaces_content_witness :
  let post := [Status Finished None] in
  final_answers post = []
  /\ Encoder.content
       (Encoder.messageToWriteTo
          (Encoder.final_state
             (Encoder.turn Examples.type_of false (fun _ => 0)
                           ([Stream "Hello"] ++ FinalAnswer "Hello world" false :: post)
                           None Examples.blank_state)))
     = "Hello world".
Proof.
  intros post.
  assert (H : final_answers post = []) by reflexivity.
  split; [exact H |].
  exact (proj1 (final_answer_replaces_content
                  Examples.type_of false (fun _ => 0) [Stream "Hello"] post
                  "Hello world" false None Examples.blank_state H)).
Defined.

(** The title of the shared conversation in the route's test. *)
Lemma sanitize_title_unwraps_think_witness :
  every not_lt "Shared Title" = true
  /\ Encoder.sanitize_title "<think>Shared Title</think>" = "Shared Title".
Proof.
  assert (H : every not_lt "Shared Title" = true) by reflexivity.
  split; [exact H |].
  exact (sanitize_title_unwraps_think "Shared Title" H).
Defined.

(* ===================================================================== *)
(** ** Deleting a message: errors and links *)
(* ===================================================================== *)

Section ForestFacts.

Import Encoder Tree Forest.

Lemma unlink_id (x : string) (m : Message) : id (unlink x m) = id m.
Proof. rewrite unlink_spec. now destruct m. Qed.

Lemma unlink_ancestors (x : string) (m : Message) :
  ancestors (unlink x m) = ancestors m.
Proof. rewrite unlink_spec. now destruct m. Qed.

Lemma unlink_children (x : string) (m : Message) :
  children (unlink x m) = option_map (without x) (children m).
Proof. rewrite unlink_spec. now destruct m. Qed.

Lemma deleted_ids (x : string) (messages : list Message) :
  ~ In x (map id (map (unlink x) (List.filter (kept x) messages))).
Proof.
  rewrite map_map. intros H. apply in_map_iff in H as [m [Hid Hm]].
  rewrite unlink_id in Hid. apply filter_In in Hm as [_ Hk].
  apply kept_spec in Hk as [Hne _]. contradiction.
Qed.

Lemma child_of_spec (messages : list Message) (m : Message) (c : string) :
  child_of messages m c = true
  <-> exists mc, In mc messages /\ id mc = c
                 /\ ancestors mc = Some (default [] (ancestors m) ++ [id m]).
Proof.
  unfold child_of. rewrite existsb_exists. split.
  - intros [mc [Hin H]]. apply andb_true_iff in H as [H1 H2].
    apply String.eqb_eq in H1. apply bool_decide_eq_true in H2.
    exists mc. repeat split; assumption.
  - intros [mc [Hin [H1 H2]]]. exists mc. split; [exact Hin |].
    apply andb_true_iff. split.
    + now apply String.eqb_eq.
    + now apply bool_decide_eq_true.
Qed.

Lemma linked_spec (messages : list Message) :
  linked messages = true
  <-> forall m c, In m messages -> In c (default [] (children m)) ->
                  child_of messages m c = true.
Proof.
  unfold linked. rewrite forallb_forall. split.
  - intros H m c Hm Hc. specialize (H m Hm).
    rewrite forallb_forall in H. now apply H.
  - intros H m Hm. apply forallb_forall. intros c Hc. now apply H.
Qed.

Lemma deletion_keeps_links (messages : list Message) (x : string) :
  linked messages = true ->
  linked (map (unlink x) (List.filter (kept x) messages)) = true.
Proof.
  rewrite !linked_spec. intros H m' c Hm' Hc.
  apply in_map_iff in Hm' as [m [<- Hm]].
  apply filter_In in Hm as [Hm Hk].
  apply kept_spec in Hk as [Hid [a [Ha Hna]]].
  rewrite unlink_children in Hc.
  assert (Hc' : In c (default [] (children m)) /\ c <> x).
  { destruct (children m) as [ch|]; [|destruct Hc].
    cbn in Hc. unfold without in Hc. apply filter_In in Hc as [Hc Hne].
    split; [exact Hc |]. apply negb_true_iff, String.eqb_neq in Hne. exact Hne. }
  destruct Hc' as [Hcm Hcx].
  specialize (H m c Hm Hcm). apply child_of_spec in H as [mc [Hmc [Hidc Hanc]]].
  apply child_of_spec. exists (unlink x mc).
  rewrite !unlink_id, !unlink_ancestors.
  split; [| split; [exact Hidc | exact Hanc]].
  apply in_map_iff. exists mc. split; [reflexivity |].
  apply filter_In. split; [exact Hmc |]. apply kept_spec. split; [congruence |].
  exists (default [] (ancestors m) ++ [id m]). split; [exact Hanc |].
  rewrite Ha. cbn. rewrite in_app_iff. intros [Hx | [Hx | []]].
  - contradiction.
  - now apply Hid.
Qed.

Lemma untouched (x : string) (messages : list Message) :
  unmentioned x messages ->
  map (unlink x) (List.filter (kept x) messages) = messages.
Proof.
  induction messages as [|m messages IH]; intros H; [reflexivity |].
  destruct (H m (or_introl eq_refl)) as [Hid [Ha Hc]].
  cbn [List.filter].
  assert (Hk : kept x m = true) by (apply kept_spec; now split).
  rewrite Hk. cbn [map]. f_equal.
  - rewrite unlink_spec. destruct (children m) as [ch|] eqn:Hch.
    + cbn in Hc. cbn. rewrite (without_absent x ch Hc), <- Hch.
      apply set_children_same.
    + cbn. rewrite <- Hch. apply set_children_same.
  - apply IH. intros m' Hm'. apply H. now right.
Qed.

End ForestFacts.

(** X14. Deleting a message fails with [Message not found] exactly when
    no message of the conversation has the id; and after a deletion that
    succeeded, deleting the same id again fails in that way. *)
Theorem deleteMessage_twice_fails :
  forall (messages : list Encoder.Message) (messageId : string),
    (Tree.deleteMessage messages messageId = inl "Message not found"
     <-> ~ In messageId (map Encoder.id messages))
    /\ forall remaining : list Encoder.Message,
         Tree.deleteMessage messages messageId = inr remaining ->
         Tree.deleteMessage remaining messageId = inl "Message not found".
Proof.
  intros messages messageId. split.
  - unfold Tree.deleteMessage.
    destruct (JS.includes (map Encoder.id messages) messageId) eqn:Hi; cbn.
    + apply includes_In in Hi. split; [discriminate | contradiction].
    + apply includes_not_In in Hi. split; [now intros _ | reflexivity].
  - intros remaining H. unfold Tree.deleteMessage in H.
    destruct (negb _); [discriminate H |]. injection H as <-.
    unfold Tree.deleteMessage.
    pose proof (deleted_ids messageId messages) as Hn.
    apply includes_not_In in Hn. now rewrite Hn.
Qed.

(** X15. Deleting a message leaves no dangling child: if every entry of
    a children list names a message of the conversation whose ancestors
    are those of the parent followed by the parent, the same holds for
    the messages that remain. *)
Theorem deleteMessage_keeps_links :
  forall (messages remaining : list Encoder.Message) (messageId : string),
    Forest.linked messages = true ->
    Tree.deleteMessage messages messageId = inr remaining ->
    Forest.linked remaining = true.
Proof.
  intros messages remaining messageId Hl H. unfold Tree.deleteMessage in H.
  destruct (negb _); [discriminate H |]. injection H as <-.
  now apply deletion_keeps_links.
Qed.

(** A branch of three messages is linked, and stays linked when its
    middle message is deleted. *)
Lemma deleteMessage_keeps_links_witness :
  Forest.linked Examples.branch = true
  /\ Tree.deleteMessage Examples.branch "a" = inr [Examples.node "root" [] []]
  /\ Forest.linked [Examples.node "root" [] []] = true.
Proof.
  assert (H1 : Forest.linked Examples.branch = true) by reflexivity.
  assert (H2 : Tree.deleteMessage Examples.branch "a"
               = inr [Examples.node "root" [] []]) by reflexivity.
  split; [exact H1 |]. split; [exact H2 |].
  exact (deleteMessage_keeps_links Examples.branch [Examples.node "root" [] []]
                                   "a" H1 H2).
Defined.

(** X16. The SvelteKit route stores what the API handler stores whenever
    the handler succeeds, but it has no presence check: for an id that
    no message has, the handler fails with [Message not found] while the
    route succeeds; and if the id is mentioned nowhere in a conversation
    whose messages all have an ancestors list, the route stores the
    messages unchanged. *)
Theorem route_delete_has_no_presence_check :
  forall (messages : list Encoder.Message) (messageId : string),
    nonempty messageId = true ->
    (forall remaining : list Encoder.Message,
       Tree.deleteMessage messages messageId = inr remaining ->
       Route.DELETE (Some messageId) (Some messages) = inr remaining)
    /\ (~ In messageId (map Encoder.id messages) ->
        Tree.deleteMessage messages messageId = inl "Message not found"
        /\ exists stored : list Encoder.Message,
             Route.DELETE (Some messageId) (Some messages) = inr stored)
    /\ (Forest.unmentioned messageId messages ->
        Route.DELETE (Some messageId) (Some messages) = inr messages).
Proof.
  intros messages messageId Hne.
  assert (HR : Route.DELETE (Some messageId) (Some messages)
               = inr (map (Tree.unlink messageId)
                          (List.filter (Tree.kept messageId) messages))).
  { unfold Route.DELETE, Generate.truthy. unfold nonempty in Hne.
    now rewrite Hne. }
  split; [| split].
  - intros remaining H. unfold Tree.deleteMessage in H.
    destruct (negb _); [discriminate H |]. injection H as <-. exact HR.
  - intros Hn. split.
    + unfold Tree.deleteMessage. apply includes_not_In in Hn. now rewrite Hn.
    + eexists. exact HR.
  - intros H. rewrite HR. f_equal. now apply untouched.
Qed.

(** The id [zz] is mentioned nowhere in the branch of three messages. *)
Lemma route_delete_has_no_presence_check_witness :
  nonempty "zz" = true
  /\ Tree.deleteMessage Examples.branch "zz" = inl "Message not found"
  /\ exists stored : list Encoder.Message,
       Route.DELETE (Some "zz") (Some Examples.branch) = inr stored.
Proof.
  assert (H : nonempty "zz" = true) by reflexivity.
  assert (Hn : ~ In "zz" (map Encoder.id Examples.branch)).
  { intros Hin. vm_compute in Hin.
    destruct Hin as [Hin|[Hin|[Hin|[]]]]; discriminate Hin. }
  split; [exact H |].
  exact (proj1 (proj2 (route_delete_has_no_presence_check Examples.branch "zz" H))
               Hn).
Defined.

(* ===================================================================== *)
(** ** The inline command: format and outcomes *)
(* ===================================================================== *)

Section CommandFacts.

Import Inline.

Lemma server_char_not_space (c : ascii) :
  is_server_char c = true -> JS.is_space c = false.
Proof. destruct c as [[] [] [] [] [] [] [] []]; cbv; congruence. Qed.

Lemma space_not_tool_char (c : ascii) :
  JS.is_space c = true -> is_tool_char c = false.
Proof. destruct c as [[] [] [] [] [] [] [] []]; cbv; congruence. Qed.

Lemma istartsWith_app (pre rest p : string) :
  JS.lower_string pre = p -> JS.istartsWith (pre +:+ rest) p = true.
Proof.
  revert p. induction pre as [|c pre IH]; intros p H.
  - simpl in H. subst p. now destruct rest.
  - simpl in H. subst p. rewrite app_cons. cbn [JS.istartsWith].
    rewrite Ascii.eqb_refl. now apply IH.
Qed.

Lemma lower_string_length (s : string) :
  String.length (JS.lower_string s) = String.length s.
Proof. induction s as [|c s IH]; simpl; congruence. Qed.

Lemma trimStart_span (s : string) : snd (JS.span JS.is_space s) = JS.trimStart s.
Proof.
  induction s as [|c s IH]; [reflexivity |].
  cbn [JS.span JS.trimStart]. destruct (JS.is_space c); [|reflexivity].
  destruct (JS.span JS.is_space s). exact IH.
Qed.

End CommandFacts.

(** X17. A message is read as an inline command when it consists of
    [/mcp] in any letter case, white space, a server name of letters,
    digits, underscores and hyphens, a dot, a tool name that may also
    hold dots, and then nothing or white space followed by the
    arguments.  The parser returns the two names and the arguments
    without the white space in front of them. *)
Theorem mcp_command_format :
  forall pre ws server tool tail : string,
    JS.lower_string pre = "/mcp" ->
    nonempty ws = true -> every JS.is_space ws = true ->
    nonempty server = true -> every Inline.is_server_char server = true ->
    nonempty tool = true -> every Inline.is_tool_char tool = true ->
    blank_start tail = true ->
    Inline.match_mcp (pre +:+ ws +:+ server +:+ "." +:+ tool +:+ tail)
    = Some (server, tool,
            if nonempty tail then Some (JS.trimStart tail) else None).
Proof.
  intros pre ws server tool tail Hpre Hw1 Hw2 Hs1 Hs2 Ht1 Ht2 Htail. unfold Inline.match_mcp.
  rewrite (istartsWith_app pre _ "/mcp" Hpre).
  assert (Hlen : String.length pre = 4%nat).
  { rewrite <- lower_string_length, Hpre. reflexivity. }
  rewrite <- Hlen, sdrop_app.
  rewrite (span_every JS.is_space ws _ Hw2).
  2:{ apply stops_app; [exact Hs1 |].
      apply (nonempty_stops Inline.is_server_char JS.is_space server
                            server_char_not_space Hs1 Hs2). }
  rewrite (nonempty_eqb ws Hw1).
  rewrite (span_every Inline.is_server_char server _ Hs2) by reflexivity.
  rewrite (nonempty_eqb server Hs1).
  change ("." +:+ tool +:+ tail) with (String "." (tool +:+ tail)).
  cbv iota beta.
  rewrite (span_every Inline.is_tool_char tool tail Ht2).
  2:{ destruct tail as [|c tail]; [reflexivity |]. simpl in Htail. simpl.
      now rewrite (space_not_tool_char c Htail). }
  rewrite (nonempty_eqb tool Ht1).
  destruct tail as [|c tail]; [reflexivity |].
  simpl in Htail. rewrite Htail. now rewrite trimStart_span.
Qed.

(** The command [/MCP  search-1.web.find  {}] with its arguments. *)
Lemma mcp_command_format_witness :
  JS.lower_string "/MCP" = "/mcp"
  /\ every Inline.is_server_char "search-1" = true
  /\ every Inline.is_tool_char "web.find" = true
  /\ Inline.match_mcp ("/MCP" +:+ "  " +:+ "search-1" +:+ "." +:+ "web.find"
                         +:+ "  {}")
     = Some ("search-1", "web.find", Some "{}").
Proof.
  assert (H1 : JS.lower_string "/MCP" = "/mcp") by reflexivity.
  assert (H2 : every Inline.is_server_char "search-1" = true) by reflexivity.
  assert (H3 : every Inline.is_tool_char "web.find" = true) by reflexivity.
  split; [exact H1 |]. split; [exact H2 |]. split; [exact H3 |].
  exact (mcp_command_format "/MCP" "  " "search-1" "web.find" "  {}"
                            H1 eq_refl eq_refl eq_refl H2 eq_refl H3 eq_refl).
Defined.

(** X18. The inline hook answers in place of the model exactly when MCP
    servers are configured and the last message is a user message in the
    command format.  Its answer is always a single output that carries
    its text as generated text, and the stream never fails: an unknown
    server, arguments that do not parse and a failing tool call all
    become the text of the answer. *)
Theorem inline_hook_outcomes :
  forall (ienv : Inline.Env) (args : Generate.EndpointArgs),
    match Inline.inline_hook ienv args with
    | Some s =>
        Inline.MCP_SERVERS ienv <> []
        /\ exists (m : Generate.EndpointMessage) (serverName toolName : string)
                  (raw : option string) (content : string),
             last (Generate.arg_messages args) = Some m
             /\ Generate.msg_from m = "user"
             /\ Inline.match_mcp (Generate.msg_content m)
                = Some (serverName, toolName, raw)
             /\ s = Inline.openAIChatToTextGenerationSingle content
             /\ (Inline.find_server (Inline.MCP_SERVERS ienv) serverName = None ->
                 content = "Unknown MCP server: " +:+ serverName)
    | None =>
        Inline.MCP_SERVERS ienv = []
        \/ last (Generate.arg_messages args) = None
        \/ exists m : Generate.EndpointMessage,
             last (Generate.arg_messages args) = Some m
             /\ (Generate.msg_from m <> "user"
                 \/ Inline.match_mcp (Generate.msg_content m) = None)
    end.
Proof.
  intros ienv args. unfold Inline.inline_hook.
  destruct (Inline.MCP_SERVERS ienv) as [|s0 servers] eqn:Hs; [now left |].
  destruct (last (Generate.arg_messages args)) as [m|] eqn:Hl;
    [|right; now left].
  destruct (String.eqb_spec (Generate.msg_from m) "user") as [Hu|Hu].
  2:{ right. right. exists m. split; [reflexivity | now left]. }
  destruct (Inline.match_mcp (Generate.msg_content m)) as [[[sn tn] raw]|] eqn:Hm.
  2:{ right. right. exists m. split; [reflexivity | now right]. }
  assert (Hne : s0 :: servers <> []) by discriminate.
  destruct (Inline.find_server (s0 :: servers) sn) as [server|] eqn:Hf.
  - match goal with
    | |- match (match ?p with inl _ => _ | inr _ => _ end) with _ => _ end =>
        destruct p as [a|msg]
    end.
    + destruct (Inline.callMcpTool ienv (Some server) tn a) as [out|msg].
      * split; [exact Hne |]. exists m, sn, tn, raw, out.
        repeat split; try assumption; try reflexivity. congruence.
      * split; [exact Hne |]. exists m, sn, tn, raw, ("MCP error: " +:+ msg).
        repeat split; try assumption; try reflexivity. congruence.
    + split; [exact Hne |]. exists m, sn, tn, raw, ("Invalid JSON args: " +:+ msg).
      repeat split; try assumption; try reflexivity. congruence.
  - split; [exact Hne |]. exists m, sn, tn, raw, ("Unknown MCP server: " +:+ sn).
    repeat split; try assumption; reflexivity.
Qed.



(* ===================================================================== *)
(** ** Models that extract the answer, and stop tokens *)
(* ===================================================================== *)

Section ExtractFacts.

Import Generate Streams.

Lemma stream_tokens_cons_other (e : MessageUpdate) (evs : list MessageUpdate) :
  is_Stream e = false -> stream_tokens (e :: evs) = stream_tokens evs.
Proof. destruct e; try discriminate; reflexivity. Qed.

Lemma reasoning_tokens_cons_other (e : MessageUpdate) (evs : list MessageUpdate) :
  is_ReasoningStream e = false -> reasoning_tokens (e :: evs) = reasoning_tokens evs.
Proof. destruct e; try discriminate; reflexivity. Qed.

Lemma extract_main (env : Env) (ctx : GenerateContext) (i : nat)
      (l : Locals) (o : Output) :
  extracts (model ctx) = true -> silent_aux env -> reasoning l = true ->
  reasoning (fst (fst (main_branch env ctx i l o))) = true
  /\ stream_tokens (snd (fst (main_branch env ctx i l o))) = []
  /\ reasoning_tokens (snd (fst (main_branch env ctx i l o)))
     = (if streamed o then [token_text o] else []).
Proof.
  intros Hx Hs Hr. unfold extracts in Hx. unfold main_branch, streamed, truthy.
  assert (Ht : reasoning (fst (fst (token_step env ctx i l o))) = true
               /\ stream_tokens (snd (fst (token_step env ctx i l o))) = []
               /\ reasoning_tokens (snd (fst (token_step env ctx i l o)))
                  = (if negb (token_special o) then [token_text o] else [])).
  { unfold token_step, pass_down.
    destruct (model_reasoning (model ctx)) as [[b e|re|]|]; try discriminate Hx;
      (destruct (token_special o); [repeat split; exact Hr |]);
      rewrite Hr; cbn [negb];
      destruct (negb (String.eqb _ "")); destruct (_ && _);
      cbn; repeat split; assumption. }
  destruct (generated_text o) as [gt|]; [|exact Ht].
  destruct (negb (String.eqb gt "")) eqn:Hgt; [|exact Ht].
  cbn [negb andb].
  unfold final_step.
  destruct (strip_stops (model ctx) o gt) as [text int].
  destruct (model_reasoning (model ctx)) as [[b e|re|]|]; try discriminate Hx.
  - destruct (regexp_exec env re (reasoningBuffer l)) as [msg| |[g|]];
      cbn; repeat split; assumption.
  - destruct (summary_prompt (messages ctx) (reasoningBuffer l)) as [p|];
      [|cbn; repeat split; assumption].
    destruct (Hs p) as [Hp Hq].
    destruct (generateFromDefaultEndpoint env p) as [evs [summary|msg]];
      cbn [fst snd] in *; (split; [exact Hr |]);
      rewrite stream_tokens_cons_other, reasoning_tokens_cons_other by reflexivity;
      rewrite stream_tokens_app, reasoning_tokens_app, Hp, Hq; split; reflexivity.
Qed.

Lemma extract_step (env : Env) (ctx : GenerateContext) (i : nat)
      (l : Locals) (o : Output) :
  extracts (model ctx) = true -> silent_aux env -> reasoning l = true ->
  reasoning (fst (fst (step env ctx i l o))) = true
  /\ stream_tokens (snd (fst (step env ctx i l o))) = []
  /\ reasoning_tokens (snd (fst (step env ctx i l o))) = thought o.
Proof.
  intros Hx Hs Hr. unfold step, thought, side_reasoning.
  destruct (deliver_summaries_frame env i l) as [Hr0 _].
  set (l0 := deliver_summaries env i l) in *.
  assert (H1 : reasoning (fst (reasoning_delta o l0)) = true
               /\ stream_tokens (snd (reasoning_delta o l0)) = []
               /\ reasoning_tokens (snd (reasoning_delta o l0))
                  = match reasoningDelta o with
                    | Some d => if 0 <? JS.len d then [d] else []
                    | None => []
                    end).
  { unfold reasoning_delta.
    destruct (reasoningDelta o) as [d|]; [destruct (0 <? JS.len d) |];
      cbn; repeat split; congruence. }
  destruct (reasoning_delta o l0) as [l1 e1]. cbn [fst snd] in H1.
  destruct H1 as [Hr1 [Hs1 He1]].
  pose proof (tool_call_deltas_events env (default [] (toolCallDeltas o))
                                      (toolArgBuffers l1)) as He2.
  destruct (tool_call_deltas env (default [] (toolCallDeltas o))
                             (toolArgBuffers l1)) as [bufs e2].
  cbn [snd] in He2. apply tool_events_plain in He2 as [_ [Hs2 [Hq2 _]]].
  pose proof (tool_result_delta_events o) as He3.
  apply tool_events_plain in He3 as [_ [Hs3 [Hq3 _]]].
  fold (main_branch env ctx i (set_toolArgBuffers bufs l1) o).
  destruct (extract_main env ctx i (set_toolArgBuffers bufs l1) o Hx Hs Hr1)
    as [Hr3 [Hs4 Hq4]].
  destruct (main_branch env ctx i (set_toolArgBuffers bufs l1) o) as [[l3 e4] c].
  cbn [fst snd] in *.
  rewrite !reasoning_tokens_app, !stream_tokens_app,
    He1, Hq2, Hq3, Hq4, Hs1, Hs2, Hs3, Hs4.
  repeat split; assumption.
Qed.

Lemma extract_loop (env : Env) (ctx : GenerateContext) (err : option string)
      (outs : list Output) :
  extracts (model ctx) = true -> silent_aux env ->
  forall (i : nat) (l : Locals),
    reasoning l = true ->
    stream_tokens (events (loop env ctx i l outs err)) = []
    /\ reasoning_tokens (events (loop env ctx i l outs err))
       = flat_map thought (take (consumed (loop env ctx i l outs err)) outs).
Proof.
  intros Hx Hs. induction outs as [|o outs IH]; intros i l Hr;
    [split; reflexivity |].
  cbn [loop].
  destruct (extract_step env ctx i l o Hx Hs Hr) as [Hr3 [Hst Hq]].
  destruct (step env ctx i l o) as [[l' evs] c]. cbn [fst snd] in *.
  destruct c; cbn [events consumed take flat_map].
  - destruct (IH (S i) l' Hr3) as [I1 I2].
    now rewrite stream_tokens_app, reasoning_tokens_app, Hst, Hq, I1, I2.
  - rewrite take_0. cbn [flat_map]. now rewrite app_nil_r.
  - rewrite take_0. cbn [flat_map]. now rewrite app_nil_r.
Qed.

Lemma extract_main_open (env : Env) (ctx : GenerateContext) (i : nat)
      (l : Locals) (o : Output) :
  extracts (model ctx) = true -> reasoning l = true -> closing o = false ->
  reasoning (fst (fst (main_branch env ctx i l o))) = true
  /\ stream_tokens (snd (fst (main_branch env ctx i l o))) = []
  /\ final_answers (snd (fst (main_branch env ctx i l o))) = [].
Proof.
  intros Hx Hr Hc. unfold extracts in Hx. unfold main_branch.
  assert (Ht : reasoning (fst (fst (token_step env ctx i l o))) = true
               /\ stream_tokens (snd (fst (token_step env ctx i l o))) = []
               /\ final_answers (snd (fst (token_step env ctx i l o))) = []).
  { unfold token_step, pass_down.
    destruct (model_reasoning (model ctx)) as [[b e|re|]|]; try discriminate Hx;
      (destruct (token_special o); [repeat split; exact Hr |]);
      rewrite Hr; cbn [negb];
      destruct (negb (String.eqb _ "")); destruct (_ && _);
      cbn; repeat split; assumption. }
  unfold closing, truthy in Hc.
  destruct (generated_text o) as [gt|]; [|exact Ht].
  rewrite Hc. exact Ht.
Qed.

Lemma extract_loop_open (env : Env) (ctx : GenerateContext)
      (err : option string) (outs : list Output) :
  extracts (model ctx) = true ->
  Forall (fun o => closing o = false) outs ->
  forall (i : nat) (l : Locals),
    reasoning l = true ->
    stream_tokens (events (loop env ctx i l outs err)) = []
    /\ final_answers (events (loop env ctx i l outs err)) = [].
Proof.
  intros Hx Hall. induction Hall as [|o outs Ho _ IH]; intros i l Hr;
    [split; reflexivity |].
  cbn [loop].
  destruct (step_side env ctx i l o) as [l2 [side [Hr2 [Hst [Hfa Hstep]]]]].
  rewrite Hstep.
  destruct (extract_main_open env ctx i l2 o Hx) as [Hr3 [Hm Hf]];
    [congruence | exact Ho |].
  destruct (IH (S i) _ Hr3) as [I1 I2].
  destruct (snd (main_branch env ctx i l2 o)); cbn [events];
    rewrite ?stream_tokens_app, ?final_answers_app, ?Hst, ?Hfa, ?Hm, ?Hf, ?I1, ?I2;
    split; reflexivity.
Qed.

End ExtractFacts.

Section StopFacts.

Import Generate.

Lemma stake_sdrop (n : nat) (s : string) : s = JS.stake n s +:+ JS.sdrop n s.
Proof.
  revert s. induction n as [|n IH]; intros s; [reflexivity |].
  destruct s as [|c s]; [reflexivity |].
  simpl. rewrite app_cons. f_equal. apply IH.
Qed.

Lemma slice_head (s : string) (k : nat) :
  (k <= String.length s)%nat ->
  JS.slice s 0 (Z.of_nat k) = JS.stake k s.
Proof.
  intros Hk. unfold JS.slice, JS.clamp, JS.len.
  change (0 <? 0) with false. cbv iota.
  destruct (Z.ltb_spec (Z.of_nat k) 0); [lia |].
  replace (Z.min 0 (Z.of_nat (String.length s))) with 0 by lia.
  replace (Z.min (Z.of_nat k) (Z.of_nat (String.length s))) with (Z.of_nat k) by lia.
  replace (Z.max (Z.of_nat k - 0) 0) with (Z.of_nat k) by lia.
  change (Z.to_nat 0) with 0%nat. cbn [JS.sdrop]. now rewrite Nat2Z.id.
Qed.

Lemma strip_stop_prefix (text stop : string) (b : bool) :
  exists suffix : string, text = fst (strip_stop (text, b) stop) +:+ suffix.
Proof.
  unfold strip_stop. destruct (JS.endsWith text stop) eqn:He.
  - unfold JS.endsWith in He. apply andb_true_iff in He as [Hl _].
    apply Nat.leb_le in Hl. cbn [fst]. unfold JS.len.
    replace (Z.of_nat (String.length text) - Z.of_nat (String.length stop))
      with (Z.of_nat (String.length text - String.length stop)) by lia.
    rewrite slice_head by lia.
    eexists. apply stake_sdrop.
  - exists EmptyString. cbn. now rewrite app_empty_r.
Qed.

Lemma fold_prefix (stops : list string) :
  forall (text : string) (b : bool),
    exists suffix : string,
      text = fst (fold_left strip_stop stops (text, b)) +:+ suffix.
Proof.
  induction stops as [|s stops IH]; intros text b.
  - exists EmptyString. cbn. now rewrite app_empty_r.
  - cbn [fold_left].
    destruct (strip_stop_prefix text s b) as [x Hx].
    destruct (strip_stop (text, b) s) as [text' b'] eqn:E. cbn [fst] in Hx.
    destruct (IH text' b') as [y Hy].
    exists (y +:+ x). rewrite Hx at 1. rewrite Hy at 1. now rewrite app_assoc_s.
Qed.

Lemma fold_unchanged (stops : list string) (text : string) (b : bool) :
  (forall s, In s stops -> JS.endsWith text s = false) ->
  fold_left strip_stop stops (text, b) = (text, b).
Proof.
  induction stops as [|s stops IH]; intros H; [reflexivity |].
  cbn [fold_left]. unfold strip_stop at 2.
  rewrite (H s (or_introl eq_refl)). apply IH. intros s' Hs'. apply H. now right.
Qed.

Lemma fold_hit (stops : list string) (text : string) (b : bool) :
  (exists s, In s stops /\ JS.endsWith text s = true) ->
  snd (fold_left strip_stop stops (text, b)) = false.
Proof.
  induction stops as [|s stops IH]; intros [x [Hin Hx]]; [destruct Hin |].
  cbn [fold_left]. unfold strip_stop at 2.
  destruct (JS.endsWith text s) eqn:He.
  - apply strip_stop_settled.
  - apply IH. destruct Hin as [->|Hin]; [congruence |]. now exists x.
Qed.

Lemma stops_dec (stops : list string) (text : string) :
  (forall s, In s stops -> JS.endsWith text s = false)
  \/ (exists s, In s stops /\ JS.endsWith text s = true).
Proof.
  induction stops as [|s stops IH]; [left; intros s [] |].
  destruct (JS.endsWith text s) eqn:He.
  - right. exists s. split; [now left | exact He].
  - destruct IH as [IH|[x [Hin Hx]]].
    + left. intros s' [<-|Hs']; [exact He | now apply IH].
    + right. exists x. split; [now right | exact Hx].
Qed.

(** What the loop over the stop tokens returns (lines 151-160). *)
Lemma strip_stops_spec :
  forall (m : Generate.Model) (o : Generate.Output) (gt : string),
    let r := Generate.strip_stops m o gt in
    let stops := default [] (Generate.model_stop m) in
    (snd r = true
     <-> Generate.token_special o = false
         /\ ~ In (Generate.token_text o) stops
         /\ forall s, In s stops -> JS.endsWith (JS.trimEnd gt) s = false)
    /\ (snd r = true -> fst r = JS.trimEnd gt)
    /\ exists suffix : string, JS.trimEnd gt = fst r +:+ suffix.
Proof.
  intros m o gt r stops. unfold r, Generate.strip_stops. fold stops.
  assert (Hi : Generate.interrupted0 m o = true
               <-> Generate.token_special o = false
                   /\ ~ In (Generate.token_text o) stops).
  { unfold Generate.interrupted0, stops.
    rewrite andb_true_iff, !negb_true_iff.
    destruct (Generate.model_stop m) as [l|]; cbn.
    - now rewrite includes_not_In.
    - split; [intros [H _]; split; [exact H | intros []] | intros [H _]; now split]. }
  split; [| split].
  - destruct (stops_dec stops (JS.trimEnd gt)) as [Hno|Hyes].
    + rewrite (fold_unchanged stops _ _ Hno). cbn [snd]. rewrite Hi.
      split; [intros [H1 H2]; repeat split; assumption | intros [H1 [H2 _]]; now split].
    + rewrite (fold_hit stops _ _ Hyes). split; [discriminate |].
      intros [_ [_ Hno]]. destruct Hyes as [s [Hin Hs]].
      rewrite (Hno s Hin) in Hs. discriminate Hs.
  - destruct (stops_dec stops (JS.trimEnd gt)) as [Hno|Hyes].
    + now rewrite (fold_unchanged stops _ _ Hno).
    + rewrite (fold_hit stops _ _ Hyes). discriminate.
  - apply fold_prefix.
Qed.

End StopFacts.

(** X20. In regex and summarize mode no token of the provider reaches
    the answer stream: as long as the auxiliary summariser streams no
    token of its own, a run emits no Stream event at all, however it
    ends.  Every ordinary token of an output it has read goes to the
    reasoning stream instead, after the reasoning delta of that output:
    the reasoning tokens of the run are these, in the order of the
    outputs, and nothing else. *)
Theorem extracting_models_stream_no_answer_token :
  forall (env : Generate.Env) (ctx : Generate.GenerateContext)
         (preprompt : option string),
    Streams.extracts (Generate.model ctx) = true ->
    Streams.silent_aux env ->
    let r := Generate.generate env ctx preprompt in
    stream_tokens (Generate.events r) = []
    /\ reasoning_tokens (Generate.events r)
       = flat_map Streams.thought
                  (take (Generate.consumed r)
                        (Generate.outputs (Streams.provider_stream ctx preprompt))).
Proof.
  intros env ctx preprompt Hx Hs r. unfold r, Generate.generate. cbv zeta.
  cbn [Generate.events Generate.consumed].
  rewrite stream_tokens_app, reasoning_tokens_app.
  destruct (extract_loop env ctx
              (Generate.stream_error (Streams.provider_stream ctx preprompt))
              (Generate.outputs (Streams.provider_stream ctx preprompt))
              Hx Hs 0%nat (Generate.initial_locals env (Generate.model ctx)))
    as [H1 H2].
  - unfold Generate.initial_locals. cbn [Generate.reasoning].
    unfold Streams.extracts in Hx. unfold Generate.starts_reasoning.
    destruct (Generate.model_reasoning (Generate.model ctx)) as [[b e|re|]|];
      try discriminate Hx; reflexivity.
  - unfold Streams.provider_stream in H1, H2. rewrite H1, H2.
    destruct (Generate.starts_reasoning _); split; reflexivity.
Qed.

(** A regex-mode run over two tokens and a closing output. *)
Lemma extracting_models_stream_no_answer_token_witness :
  let env := Examples.quiet "unavailable" in
  let ctx := Examples.context Examples.regex_model
               (Examples.provider [Generate.tok "a"; Generate.tok "b";
                                   Generate.final "" true "ab"]) in
  Streams.extracts (Generate.model ctx) = true
  /\ Streams.silent_aux env
  /\ stream_tokens (Generate.events (Generate.generate env ctx None)) = []
  /\ reasoning_tokens (Generate.events (Generate.generate env ctx None))
     = ["a"; "b"].
Proof.
  intros env ctx.
  assert (H1 : Streams.extracts (Generate.model ctx) = true) by reflexivity.
  assert (H2 : Streams.silent_aux env) by (intros prompt; split; reflexivity).
  split; [exact H1 |]. split; [exact H2 |].
  exact (extracting_models_stream_no_answer_token env ctx None H1 H2).
Defined.

(** X21. A regex or summarize model produces answer text only through
    an output that carries the generated text.  Over a stream without
    such an output, as the OpenAI adapter yields when the completion
    closes with an empty chunk, the run emits neither a Stream event nor
    a FinalAnswer, and the content of the message stays what it was. *)
Theorem extracting_model_needs_generated_text :
  forall (env : Generate.Env) (ctx : Generate.GenerateContext)
         (preprompt : option string),
    Streams.extracts (Generate.model ctx) = true ->
    Forall (fun o => Streams.closing o = false)
           (Generate.outputs (Streams.provider_stream ctx preprompt)) ->
    let r := Generate.generate env ctx preprompt in
    stream_tokens (Generate.events r) = []
    /\ final_answers (Generate.events r) = []
    /\ forall (stringify : MessageUpdate -> string) (isRouter : bool)
              (init : string) (clock : nat -> Z) (k : nat) (st : Encoder.State),
         Encoder.content
           (Encoder.messageToWriteTo
              (Encoder.updates_from stringify isRouter init clock k st
                                    (Generate.events r)))
         = Encoder.content (Encoder.messageToWriteTo st).
Proof.
  intros env ctx preprompt Hx Hall r.
  assert (H : stream_tokens (Generate.events r) = []
              /\ final_answers (Generate.events r) = []).
  { unfold r, Generate.generate. cbv zeta. cbn [Generate.events].
    rewrite stream_tokens_app, final_answers_app.
    destruct (extract_loop_open env ctx
                (Generate.stream_error (Streams.provider_stream ctx preprompt))
                (Generate.outputs (Streams.provider_stream ctx preprompt))
                Hx Hall 0%nat
                (Generate.initial_locals env (Generate.model ctx))) as [H1 H2].
    - unfold Generate.initial_locals. cbn [Generate.reasoning].
      unfold Streams.extracts in Hx. unfold Generate.starts_reasoning.
      destruct (Generate.model_reasoning (Generate.model ctx)) as [[b e|re|]|];
        try discriminate Hx; reflexivity.
    - unfold Streams.provider_stream in H1, H2. rewrite H1, H2.
      destruct (Generate.starts_reasoning _); split; reflexivity. }
  destruct H as [H1 H2]. split; [exact H1 |]. split; [exact H2 |].
  intros stringify isRouter init clock k st.
  destruct (partial_content stringify isRouter init clock (Generate.events r) H2 k st)
    as [Hc _].
  rewrite Hc, H1. apply app_empty_r.
Qed.

(** A regex-mode run over the adapter's outputs for two text chunks
    and the closing chunk of the API. *)
Lemma extracting_model_needs_generated_text_witness :
  let env := Examples.quiet "unavailable" in
  let ctx := Examples.context Examples.regex_model
               (fun _ => Adapter.openAIChatToTextGenerationStream
                           (Samples.hello_body ++ [Samples.stop_chunk]) None) in
  Streams.extracts (Generate.model ctx) = true
  /\ Forall (fun o => Streams.closing o = false)
            (Generate.outputs (Streams.provider_stream ctx None))
  /\ final_answers (Generate.events (Generate.generate env ctx None)) = [].
Proof.
  intros env ctx.
  assert (H1 : Streams.extracts (Generate.model ctx) = true) by reflexivity.
  assert (H2 : Forall (fun o => Streams.closing o = false)
                      (Generate.outputs (Streams.provider_stream ctx None)))
    by (repeat constructor).
  split; [exact H1 |]. split; [exact H2 |].
  exact (proj1 (proj2 (extracting_model_needs_generated_text env ctx None H1 H2))).
Defined.

(** X22. For a model without reasoning configuration, and with nothing
    newer than the prompt in the abort registry, every FinalAnswer of a
    run stems from an output of the provider that carries generated
    text.  It is flagged as interrupted exactly when the token of that
    output is not special, is not one of the model's stop tokens, and
    the generated text, trailing white space removed, ends with none of
    them; its text is then the trimmed text.  In every case the text of
    the answer is a prefix of the trimmed text: stop tokens are only
    taken off its end. *)
Theorem final_answer_interrupted_iff :
  forall (env : Generate.Env) (ctx : Generate.GenerateContext)
         (preprompt : option string) (text : string) (interrupted : bool),
    Generate.model_reasoning (Generate.model ctx) = None ->
    Streams.stale_aborts env ctx ->
    In (text, interrupted)
       (final_answers (Generate.events (Generate.generate env ctx preprompt))) ->
    exists (o : Generate.Output) (gt : string),
      In o (Generate.outputs (Streams.provider_stream ctx preprompt))
      /\ Generate.generated_text o = Some gt /\ gt <> EmptyString
      /\ (interrupted = true
          <-> Generate.token_special o = false
              /\ ~ In (Generate.token_text o)
                      (default [] (Generate.model_stop (Generate.model ctx)))
              /\ forall s,
                   In s (default [] (Generate.model_stop (Generate.model ctx))) ->
                   JS.endsWith (JS.trimEnd gt) s = false)
      /\ (interrupted = true -> text = JS.trimEnd gt)
      /\ exists suffix : string, JS.trimEnd gt = text +:+ suffix.
Proof.
  intros env ctx preprompt text interrupted Hm Ha Hin.
  destruct (plain_generate env ctx preprompt Hm Ha) as [_ [Hf _]].
  cbv zeta in Hf. rewrite Hf in Hin.
  apply in_map_iff in Hin as [o [Ho Hin]].
  apply List.filter_In in Hin as [Hin Hc].
  unfold Streams.closing, Generate.truthy in Hc.
  destruct (Generate.generated_text o) as [gt|] eqn:Hgt; [| discriminate Hc].
  apply negb_true_iff, String.eqb_neq in Hc.
  exists o, gt. split; [exact Hin |]. split; [exact Hgt |].
  split; [exact Hc |].
  change (default "" (Some gt)) with gt in Ho.
  pose proof (strip_stops_spec (Generate.model ctx) o gt) as Hspec.
  cbv zeta in Hspec. rewrite Ho in Hspec. cbn [fst snd] in Hspec.
  exact Hspec.
Qed.

(** A text that ends in white space, closed by an ordinary token. *)
Lemma final_answer_interrupted_iff_witness :
  let env := Examples.quiet "unavailable" in
  let ctx := Examples.context Examples.plain_model
               (Examples.provider [Generate.tok "Hi";
                                   Generate.final "" false "Hi "]) in
  Streams.stale_aborts env ctx
  /\ In ("Hi", true)
        (final_answers (Generate.events (Generate.generate env ctx None)))
  /\ exists (o : Generate.Output) (gt : string),
       In o (Generate.outputs (Streams.provider_stream ctx None))
       /\ Generate.generated_text o = Some gt
       /\ (true = true -> "Hi" = JS.trimEnd gt).
Proof.
  intros env ctx.
  assert (H1 : Streams.stale_aborts env ctx).
  { intros i date H. discriminate H. }
  assert (H2 : In ("Hi", true)
                  (final_answers
                     (Generate.events (Generate.generate env ctx None)))).
  { vm_compute. left. reflexivity. }
  split; [exact H1 |]. split; [exact H2 |].
  destruct (final_answer_interrupted_iff env ctx None "Hi" true eq_refl H1 H2)
    as [o [gt [Ho [Hgt [_ [_ [Ht _]]]]]]].
  exists o, gt. split; [exact Ho |]. split; [exact Hgt | exact Ht].
Defined.

(* ===================================================================== *)
(** ** Side channels and tokens mode *)
(* ===================================================================== *)

Section SideReasoning.

Import Generate Streams.



End SideReasoning.

Section AdapterReasoning.

Import Adapter.



End AdapterReasoning.

Section TokensMode.

Import Generate Streams.

Variable env : Env.
Variable ctx : GenerateContext.
Variables beginToken endToken : string.
Hypothesis Hmode : model_reasoning (model ctx) = Some (Tokens beginToken endToken).
Hypothesis Hstale : stale_aborts env ctx.

Lemma step_tok (i : nat) (l : Locals) (t : string) :
  step env ctx i l (tok t)
  = token_step env ctx i
      (set_toolArgBuffers (toolArgBuffers (deliver_summaries env i l))
                          (deliver_summaries env i l))
      (tok t).
Proof.
  unfold step, reasoning_delta, tool_result_delta.
  cbn [tok reasoningDelta toolCallDeltas toolResultDelta generated_text
       default tool_call_deltas app].
  fold (tok t).
  destruct (token_step env ctx i _ (tok t)) as [[l3 e4] c]. reflexivity.
Qed.

Lemma step_begin (i : nat) (l : Locals) :
  exists l' : Locals,
    step env ctx i l (tok beginToken) = (l', [], Next)
    /\ reasoning l' = true
    /\ reasoningBuffer l' = reasoningBuffer l +:+ beginToken.
Proof.
  rewrite step_tok. unfold token_step. rewrite Hmode.
  cbn [tok token_text]. rewrite String.eqb_refl.
  eexists. split; [reflexivity |]. split; [reflexivity |].
  cbn. destruct (deliver_summaries_frame env i l) as [_ [Hb _]]. now rewrite Hb.
Qed.

Lemma step_end (i : nat) (l : Locals) :
  String.eqb endToken beginToken = false ->
  exists l' : Locals,
    step env ctx i l (tok endToken)
    = (l', [ReasoningStatus (done_in env i)], Next)
    /\ reasoning l' = false
    /\ reasoningBuffer l' = reasoningBuffer l +:+ endToken.
Proof.
  intros Hne. rewrite step_tok. unfold token_step. rewrite Hmode.
  cbn [tok token_text]. rewrite Hne, String.eqb_refl.
  eexists. split; [reflexivity |]. split; [reflexivity |].
  cbn. destruct (deliver_summaries_frame env i l) as [_ [Hb _]]. now rewrite Hb.
Qed.

Lemma step_answer (i : nat) (l : Locals) (t : string) :
  unmarked beginToken endToken t = true -> reasoning l = false ->
  exists l' : Locals,
    step env ctx i l (tok t) = (l', [Stream t], Next)
    /\ reasoning l' = false
    /\ reasoningBuffer l' = reasoningBuffer l.
Proof.
  unfold unmarked. rewrite andb_true_iff, !negb_true_iff. intros [Hb He] Hr.
  rewrite step_tok. unfold token_step, pass_down. rewrite Hmode.
  cbn [tok token_text token_special]. rewrite Hb, He.
  destruct (deliver_summaries_frame env i l) as [Hr0 [Hb0 _]].
  cbn [reasoning set_toolArgBuffers]. rewrite Hr0, Hr.
  rewrite (stale_abort_check env ctx i Hstale).
  eexists. split; [reflexivity |]. cbn. split; congruence.
Qed.

Lemma step_reasoning (i : nat) (l : Locals) (t : string) :
  unmarked beginToken endToken t = true -> reasoning l = true ->
  JS.lastIndexOf (reasoningBuffer l +:+ t) endToken = -1 ->
  exists (l' : Locals) (pre : list MessageUpdate),
    step env ctx i l (tok t) = (l', pre ++ [ReasoningStream t], Next)
    /\ reasoning l' = true
    /\ reasoningBuffer l' = reasoningBuffer l +:+ t
    /\ reasoning_tokens pre = [] /\ stream_tokens pre = []
    /\ final_answers pre = [].
Proof.
  unfold unmarked. rewrite andb_true_iff, !negb_true_iff. intros [Hb He] Hr Hc.
  rewrite step_tok. unfold token_step, pass_down. rewrite Hmode.
  cbn [tok token_text token_special]. rewrite Hb, He.
  destruct (deliver_summaries_frame env i l) as [Hr0 [Hb0 _]].
  set (l0 := deliver_summaries env i l) in *.
  cbn [reasoning set_toolArgBuffers reasoningBuffer set_reasoningBuffer].
  rewrite Hr0, Hr, Hb0, Hc. cbn [Z.eqb negb].
  rewrite (stale_abort_check env ctx i Hstale).
  destruct (negb (String.eqb _ "")); destruct (_ && _);
    eexists _, _; (split; [reflexivity |]); cbn; repeat split; congruence.
Qed.

Lemma answer_phase (err : option string) (tokens : list string) :
  forallb (unmarked beginToken endToken) tokens = true ->
  forall (i : nat) (l : Locals),
    reasoning l = false ->
    let r := loop env ctx i l (map tok tokens) err in
    stream_tokens (events r) = tokens
    /\ reasoning_tokens (events r) = []
    /\ final_answers (events r) = []
    /\ thrown r = err
    /\ reasoningBuffer (final_locals r) = reasoningBuffer l.
Proof.
  induction tokens as [|t tokens IH]; intros Hu i l Hr; [repeat split |].
  cbn [forallb] in Hu. apply andb_true_iff in Hu as [Ht Hu].
  cbn [map loop].
  destruct (step_answer i l t Ht Hr) as [l' [Hs [Hr' Hb']]]. rewrite Hs.
  destruct (IH Hu (S i) l' Hr') as [I1 [I2 [I3 [I4 I5]]]].
  cbn [events thrown final_locals] in *.
  rewrite stream_tokens_app, reasoning_tokens_app, final_answers_app, I1, I2, I3, I4, I5.
  repeat split. exact Hb'.
Qed.

Lemma reasoning_phase (err : option string) (rest : list Output)
      (tokens : list string) :
  forallb (unmarked beginToken endToken) tokens = true ->
  forall (i : nat) (l : Locals),
    reasoning l = true ->
    calm endToken (reasoningBuffer l) tokens = true ->
    exists (l' : Locals) (evs : list MessageUpdate),
      reasoning l' = true
      /\ reasoningBuffer l' = reasoningBuffer l +:+ String.concat "" tokens
      /\ reasoning_tokens evs = tokens /\ stream_tokens evs = []
      /\ final_answers evs = []
      /\ events (loop env ctx i l (map tok tokens ++ rest) err)
         = evs ++ events (loop env ctx (i + List.length tokens) l' rest err)
      /\ thrown (loop env ctx i l (map tok tokens ++ rest) err)
         = thrown (loop env ctx (i + List.length tokens) l' rest err)
      /\ final_locals (loop env ctx i l (map tok tokens ++ rest) err)
         = final_locals (loop env ctx (i + List.length tokens) l' rest err).
Proof.
  induction tokens as [|t tokens IH]; intros Hu i l Hr Hc.
  - exists l, []. rewrite Nat.add_0_r. cbn. rewrite app_empty_r.
    repeat split; assumption.
  - cbn [forallb] in Hu. apply andb_true_iff in Hu as [Ht Hu].
    cbn [calm] in Hc. apply andb_true_iff in Hc as [Hc1 Hc2].
    apply Z.eqb_eq in Hc1.
    destruct (step_reasoning i l t Ht Hr Hc1)
      as [l1 [pre [Hs [Hr1 [Hb1 [P1 [P2 P3]]]]]]].
    rewrite <- Hb1 in Hc2.
    destruct (IH Hu (S i) l1 Hr1 Hc2)
      as [l' [evs [Hr' [Hb' [E1 [E2 [E3 [Hev [Hth Hfl]]]]]]]]].
    exists l', ((pre ++ [ReasoningStream t]) ++ evs).
    cbn [map app loop]. rewrite Hs. cbn [events thrown final_locals].
    replace (i + List.length (t :: tokens))%nat
      with (S i + List.length tokens)%nat by (cbn; lia).
    rewrite Hev, Hth, Hfl, Hb', Hb1, concat_cons.
    rewrite !reasoning_tokens_app, !stream_tokens_app, !final_answers_app,
      P1, P2, P3, E1, E2, E3.
    repeat split; try assumption.
    + apply app_assoc_s.
    + now rewrite <- !app_assoc.
Qed.

End TokensMode.

Section KeyFacts.

Lemma hyphened_app (a b : string) :
  hyphened (a +:+ "-" +:+ b) = true.
Proof.
  induction a as [|c a IH]; [reflexivity |].
  rewrite app_cons. cbn [hyphened]. rewrite IH. apply orb_true_r.
Qed.

Lemma hyphened_own (s : string) : hyphened s = true -> JS.own_key s = true.
Proof.
  intros H. unfold JS.own_key. apply negb_true_iff.
  destruct (JS.includes JS.inherited_members s) eqn:Hi; [| reflexivity].
  apply includes_In in Hi.
  repeat (destruct Hi as [<- | Hi]; [discriminate H |]). destruct Hi.
Qed.

(** The key that line 82 computes for a delta without id names no
    inherited member either. *)
Lemma computed_key_own (index : Z) (name : option string) :
  JS.own_key (JS.Z_to_string index +:+ "-" +:+ default "tool" name) = true.
Proof. apply hyphened_own, hyphened_app. Qed.

End KeyFacts.

Section ToolCalls.

Import Generate Streams.

Variable env : Env.
Variable ctx : GenerateContext.
Hypothesis Hmode : model_reasoning (model ctx) = None.
Hypothesis Hstale : stale_aborts env ctx.





End ToolCalls.

Section ToolCallRun.

Import Generate Streams.

Variable env : Env.
Variable ctx : GenerateContext.
Hypothesis Hmode : model_reasoning (model ctx) = None.
Hypothesis Hstale : stale_aborts env ctx.


End ToolCallRun.


Section CallChunks.

Import Adapter.



End CallChunks.



(** X24. In tokens mode, over a stream that opens the reasoning with the
    begin marker, closes it with the end marker and then gives the
    answer, the tokens between the markers are emitted as reasoning
    tokens and the tokens after the end marker as Stream tokens, each in
    order and unchanged; the markers themselves are emitted as neither.
    The reasoning buffer ends up as the begin marker, the reasoning
    tokens and the end marker.  This holds when no token is itself a
    marker and the end marker does not show up in the buffer while the
    reasoning tokens are appended. *)
Theorem tokens_mode_separates_reasoning :
  forall (env : Generate.Env) (ctx : Generate.GenerateContext)
         (preprompt : option string) (beginToken endToken : string)
         (thoughts answer : list string) (err : option string),
    Generate.model_reasoning (Generate.model ctx)
    = Some (Generate.Tokens beginToken endToken) ->
    nonempty beginToken = true ->
    String.eqb endToken beginToken = false ->
    Streams.stale_aborts env ctx ->
    Streams.provider_stream ctx preprompt
    = Generate.mkStream
        (Generate.tok beginToken :: map Generate.tok thoughts
           ++ Generate.tok endToken :: map Generate.tok answer) err ->
    forallb (Streams.unmarked beginToken endToken) (thoughts ++ answer) = true ->
    Streams.calm endToken beginToken thoughts = true ->
    let r := Generate.generate env ctx preprompt in
    reasoning_tokens (Generate.events r) = thoughts
    /\ stream_tokens (Generate.events r) = answer
    /\ final_answers (Generate.events r) = []
    /\ Generate.thrown r = err
    /\ Generate.reasoningBuffer (Generate.final_locals r)
       = beginToken +:+ String.concat "" thoughts +:+ endToken.
Proof.
  intros env ctx preprompt b e thoughts answer err Hmode Hb Hne Ha Hp Hu Hc r.
  rewrite forallb_app in Hu. apply andb_true_iff in Hu as [Hu1 Hu2].
  unfold r, Generate.generate. cbv zeta.
  assert (Hs : Generate.starts_reasoning (Generate.model ctx) = false).
  { unfold Generate.starts_reasoning. rewrite Hmode. now apply nonempty_eqb. }
  rewrite Hs. cbn [Generate.events Generate.thrown Generate.final_locals app].
  unfold Streams.provider_stream in Hp. rewrite Hp.
  cbn [Generate.outputs Generate.stream_error Generate.loop].
  set (l0 := Generate.initial_locals env (Generate.model ctx)).
  destruct (step_begin env ctx b e Hmode 0 l0) as [l1 [S1 [R1 B1]]].
  rewrite S1. cbn [Generate.events Generate.thrown Generate.final_locals app].
  change (Generate.reasoningBuffer l0) with EmptyString in B1.
  change (EmptyString +:+ b) with b in B1.
  rewrite <- B1 in Hc.
  destruct (reasoning_phase env ctx b e Hmode Ha err
              (Generate.tok e :: map Generate.tok answer) thoughts Hu1 1 l1 R1 Hc)
    as [l2 [evs [R2 [B2 [E1 [E2 [E3 [Hev [Hth Hfl]]]]]]]]].
  rewrite Hev, Hth, Hfl. cbn [Generate.loop].
  destruct (step_end env ctx b e Hmode (1 + List.length thoughts) l2 Hne)
    as [l3 [S3 [R3 B3]]].
  rewrite S3. cbn [Generate.events Generate.thrown Generate.final_locals].
  destruct (answer_phase env ctx b e Hmode Ha err answer Hu2
              (S (1 + List.length thoughts)) l3 R3) as [A1 [A2 [A3 [A4 A5]]]].
  cbv zeta in A1, A2, A3, A4, A5.
  rewrite !reasoning_tokens_app, !stream_tokens_app, !final_answers_app,
    E1, E2, E3, A1, A2, A3, A4, A5, B3, B2, B1.
  cbn [reasoning_tokens stream_tokens final_answers flat_map app].
  rewrite app_nil_r. repeat split. apply app_assoc_s.
Qed.

(** The stream [<think>], [b], [c], [</think>], [d]. *)
Lemma tokens_mode_separates_reasoning_witness :
  let env := Examples.quiet "unavailable" in
  let ctx :=
    Examples.context Examples.think_model
      (Examples.provider
         (Generate.tok "<think>" :: map Generate.tok ["b"; "c"]
            ++ Generate.tok "</think>" :: map Generate.tok ["d"])) in
  Streams.stale_aborts env ctx
  /\ forallb (Streams.unmarked "<think>" "</think>") (["b"; "c"] ++ ["d"]) = true
  /\ Streams.calm "</think>" "<think>" ["b"; "c"] = true
  /\ reasoning_tokens (Generate.events (Generate.generate env ctx None))
     = ["b"; "c"]
  /\ stream_tokens (Generate.events (Generate.generate env ctx None)) = ["d"].
Proof.
  intros env ctx.
  assert (H1 : Streams.stale_aborts env ctx).
  { intros i date H. discriminate H. }
  assert (H2 : forallb (Streams.unmarked "<think>" "</think>")
                       (["b"; "c"] ++ ["d"]) = true) by reflexivity.
  assert (H3 : Streams.calm "</think>" "<think>" ["b"; "c"] = true)
    by reflexivity.
  split; [exact H1 |]. split; [exact H2 |]. split; [exact H3 |].
  pose proof (tokens_mode_separates_reasoning
                env ctx None "<think>" "</think>" ["b"; "c"] ["d"] None
                eq_refl eq_refl eq_refl H1 eq_refl H2 H3) as H.
  split; [exact (proj1 H) | exact (proj1 (proj2 H))].
Defined.



(* ===================================================================== *)
(** ** The model-issued tool call, amended *)
(* ===================================================================== *)



(* ===================================================================== *)
(** ** The closed reasoning section, amended *)
(* ===================================================================== *)

Section ClosedSection.

Import Generate Streams.

Variable env : Env.
Variable ctx : GenerateContext.
Variables beginToken endToken : string.
Hypothesis Hmode : model_reasoning (model ctx) = Some (Tokens beginToken endToken).
Hypothesis Hstale : stale_aborts env ctx.



End ClosedSection.



Section SkillFacts.

Import JS Skills.

Variable r : SkillRegistry.

Lemma getSkill_id (id : string) (s : Skill) :
  getSkill r id = Some s -> skill_id s = id.
Proof.
  unfold getSkill. intros H. apply find_some in H as [_ H].
  now apply String.eqb_eq in H.
Qed.

Lemma getSkill_self (id : string) (s : Skill) :
  getSkill r id = Some s -> getSkill r (skill_id s) = Some s.
Proof. intros H. now rewrite (getSkill_id _ _ H). Qed.

Lemma candidate_known (ids : list string) (s : Skill) :
  s ∈ getSkillsByIds r ids <-> exists id, id ∈ ids /\ getSkill r id = Some s.
Proof. unfold getSkillsByIds. apply list_elem_of_omap. Qed.

Lemma listed_spec (activated : list Skill) (s : Skill) :
  listed activated s = true <-> skill_id s ∈ map skill_id activated.
Proof.
  unfold listed. rewrite existsb_exists. split.
  - intros (x & Hx & He). apply String.eqb_eq in He. rewrite <- He.
    apply list_elem_of_In. now apply in_map.
  - intros H. apply list_elem_of_In, in_map_iff in H as (x & He & Hx).
    exists x. split; [exact Hx | now apply String.eqb_eq].
Qed.

Lemma fold_left_invariant {A B : Type} (f : A -> B -> A) (P : A -> Prop)
      (l : list B) :
  forall acc, P acc -> (forall acc x, x ∈ l -> P acc -> P (f acc x)) ->
              P (fold_left f l acc).
Proof.
  induction l as [|x l IH]; intros acc H Hf; [exact H |].
  simpl. apply IH.
  - apply Hf; [left | exact H].
  - intros acc' y Hy. apply Hf. now right.
Qed.

Lemma known_push (ids : list string) (acc : list Skill * gmap string string)
      (s : Skill) (reason : string) :
  known r ids acc -> getSkill r (skill_id s) = Some s -> skill_id s ∈ ids ->
  known r ids (push s reason acc).
Proof.
  intros H Hs Hi x Hx. unfold push in *. cbn [fst snd] in *.
  apply elem_of_app in Hx as [Hx | Hx].
  - destruct (H x Hx) as (H1 & H2 & H3). split; [exact H1 | split; [exact H2 |]].
    destruct (decide (skill_id s = skill_id x)) as [-> | Hne].
    + rewrite lookup_insert_eq. eauto.
    + now rewrite lookup_insert_ne.
  - apply list_elem_of_singleton in Hx as ->.
    split; [exact Hs | split; [exact Hi |]]. rewrite lookup_insert_eq. eauto.
Qed.

Lemma known_consider (ids : list string) (content : string)
      (words : list string) (acc : list Skill * gmap string string)
      (s : Skill) :
  known r ids acc -> getSkill r (skill_id s) = Some s -> skill_id s ∈ ids ->
  known r ids (consider content words acc s).
Proof.
  intros H Hs Hi. unfold consider.
  set (acc1 := match List.filter _ words with [] => acc | _ :: _ => _ end).
  assert (H1 : known r ids acc1).
  { subst acc1. destruct (List.filter _ words); [exact H |].
    now apply known_push. }
  destruct (_ && _); [now apply known_push | exact H1].
Qed.

Lemma known_recall (ids : list string)
      (acc : list Skill * gmap string string) (id : string) :
  known r ids acc -> id ∈ ids -> known r ids (recall r acc id).
Proof.
  intros H Hi. unfold recall. destruct (getSkill r id) as [s|] eqn:Hs; [| exact H].
  destruct (negb _); [| exact H].
  pose proof (getSkill_id _ _ Hs) as He.
  apply known_push; [exact H | now rewrite He | now rewrite He].
Qed.

Lemma detect_known (context : SkillActivationContext)
      (settings : SkillSettings) :
  known r (relevantSkillIds context settings
           ++ default [] (previouslyActivatedSkills context))
        (activatedSkills (detectSkillsForActivation r context settings),
         activationReasons (detectSkillsForActivation r context settings)).
Proof.
  unfold detectSkillsForActivation. cbn [activatedSkills activationReasons].
  rewrite <- surjective_pairing.
  set (ids := relevantSkillIds context settings).
  set (prev := default [] (previouslyActivatedSkills context)).
  apply (fold_left_invariant _ (known r (ids ++ prev))).
  - apply (fold_left_invariant _ (known r (ids ++ prev))).
    + intros s Hs. cbn in Hs. now apply elem_of_nil in Hs.
    + intros acc s Hs H. apply candidate_known in Hs as (id & Hid & Hs).
      pose proof (getSkill_id _ _ Hs) as He.
      apply known_consider; [exact H | now rewrite He |].
      rewrite He. apply elem_of_app. now left.
  - intros acc id Hid H. apply known_recall; [exact H |].
    apply elem_of_app. now right.
Qed.


Lemma grows_push (acc : list Skill * gmap string string) (s x : Skill)
      (reason : string) :
  x ∈ fst acc -> x ∈ fst (push s reason acc).
Proof. intros H. unfold push. cbn [fst]. apply elem_of_app. now left. Qed.

Lemma push_here (acc : list Skill * gmap string string) (s : Skill)
      (reason : string) :
  s ∈ fst (push s reason acc).
Proof.
  unfold push. cbn [fst]. apply elem_of_app. right.
  now apply list_elem_of_singleton.
Qed.

Lemma grows_consider (content : string) (words : list string)
      (acc : list Skill * gmap string string) (s x : Skill) :
  x ∈ fst acc -> x ∈ fst (consider content words acc s).
Proof.
  intros H. unfold consider.
  set (acc1 := match List.filter _ words with [] => acc | _ :: _ => _ end).
  assert (H1 : x ∈ fst acc1).
  { subst acc1. destruct (List.filter _ words); [exact H |].
    now apply grows_push. }
  destruct (_ && _); [now apply grows_push | exact H1].
Qed.

Lemma grows_recall (acc : list Skill * gmap string string) (id : string)
      (x : Skill) :
  x ∈ fst acc -> x ∈ fst (recall r acc id).
Proof.
  intros H. unfold recall. destruct (getSkill r id); [| exact H].
  destruct (negb _); [now apply grows_push | exact H].
Qed.

Lemma grows_considers (content : string) (words : list string)
      (l : list Skill) (x : Skill) :
  forall acc, x ∈ fst acc -> x ∈ fst (fold_left (consider content words) l acc).
Proof.
  induction l as [|s l IH]; intros acc H; [exact H |].
  simpl. apply IH. now apply grows_consider.
Qed.

Lemma grows_recalls (l : list string) (x : Skill) :
  forall acc, x ∈ fst acc -> x ∈ fst (fold_left (recall r) l acc).
Proof.
  induction l as [|s l IH]; intros acc H; [exact H |].
  simpl. apply IH. now apply grows_recall.
Qed.

Lemma lower_space (c : ascii) : is_space (lower_char c) = is_space c.
Proof. destruct c as [[] [] [] [] [] [] [] []]; reflexivity. Qed.

Lemma split_on_from_cons (sep : ascii) (s : string) :
  forall cur, exists x l, split_on_from sep cur s = x :: l.
Proof.
  induction s as [|c s IH]; intros cur; simpl; [eauto |].
  destruct (Ascii.eqb c sep); [eauto | apply IH].
Qed.

Lemma includes_empty (s : string) : includes s "" = true.
Proof. destruct s; reflexivity. Qed.

Lemma matches_empty (skill : Skill) : matches (skillKeywords skill) "" = true.
Proof.
  unfold matches, skillKeywords, split_on.
  destruct (split_on_from_cons "-" (toLowerCase (skill_name skill)) "")
    as (x & l & ->).
  cbn [app existsb]. now rewrite includes_empty.
Qed.

Lemma blank_end (s : string) :
  String.eqb (trimEnd s) s = false ->
  forall g cur, "" ∈ split_ws_from g cur (toLowerCase s).
Proof.
  induction s as [|c s IH]; intros H g cur; [discriminate H |].
  cbn [toLowerCase split_ws_from]. rewrite lower_space.
  destruct (String.eqb (trimEnd s) s) eqn:He.
  - apply String.eqb_eq in He. cbn [trimEnd] in H. rewrite He in H.
    destruct s as [|d s].
    + destruct (is_space c) eqn:Hc.
      * cbn [toLowerCase split_ws_from].
        destruct g; [now left | right; now left].
      * rewrite String.eqb_refl in H. discriminate H.
    + rewrite String.eqb_refl in H. discriminate H.
  - specialize (IH eq_refl).
    destruct (is_space c); [destruct g; [apply IH | right; apply IH] | apply IH].
Qed.

Lemma blank_edge_word (content : string) :
  blank_edge content = true -> "" ∈ split_ws (toLowerCase content).
Proof.
  unfold blank_edge, split_ws. destruct content as [|c rest]; [now left |].
  intros H. apply orb_true_iff in H as [H | H].
  - cbn [toLowerCase split_ws_from]. rewrite lower_space, H. now left.
  - apply negb_true_iff in H. now apply blank_end.
Qed.

Lemma consider_blank (content : string) (words : list string)
      (acc : list Skill * gmap string string) (s : Skill) :
  "" ∈ words -> s ∈ fst (consider content words acc s).
Proof.
  intros H. unfold consider.
  destruct (List.filter (matches (skillKeywords s)) words) as [|w ws] eqn:Hf.
  - exfalso. apply list_elem_of_In in H.
    assert (Hin : In "" (List.filter (matches (skillKeywords s)) words)).
    { apply List.filter_In. split; [exact H | apply matches_empty]. }
    rewrite Hf in Hin. destruct Hin.
  - destruct (_ && _); [apply push_here | apply push_here].
Qed.

Lemma detect_blank (context : SkillActivationContext)
      (settings : SkillSettings) (id : string) (s : Skill) :
  blank_edge (messageContent context) = true ->
  id ∈ relevantSkillIds context settings ->
  getSkill r id = Some s ->
  s ∈ activatedSkills (detectSkillsForActivation r context settings).
Proof.
  intros Hb Hid Hs. unfold detectSkillsForActivation. cbn [activatedSkills].
  apply grows_recalls.
  assert (Hc : s ∈ getSkillsByIds r (relevantSkillIds context settings)).
  { apply candidate_known. eauto. }
  apply list_elem_of_split in Hc as (l1 & l2 & ->).
  rewrite fold_left_app. cbn [fold_left]. apply grows_considers.
  apply consider_blank. now apply blank_edge_word.
Qed.


Lemma candidate_ids (ids : list string) :
  NoDup ids -> NoDup (map skill_id (getSkillsByIds r ids)).
Proof.
  unfold getSkillsByIds. induction ids as [|id ids IH]; intros H.
  - constructor.
  - apply NoDup_cons in H as [Hid H]. cbn [omap list_omap].
    destruct (getSkill r id) as [s|] eqn:Hs; [| now apply IH].
    cbn [map]. apply NoDup_cons. split; [| now apply IH].
    intros Hin. apply Hid.
    apply list_elem_of_In, in_map_iff in Hin as (x & Hx & Hin).
    apply list_elem_of_In, list_elem_of_omap in Hin as (id' & Hid' & Hx').
    apply getSkill_id in Hx'. apply getSkill_id in Hs. congruence.
Qed.

Lemma push_ids (acc : list Skill * gmap string string) (s : Skill)
      (reason : string) :
  map skill_id (fst (push s reason acc))
  = map skill_id (fst acc) ++ [skill_id s].
Proof. unfold push. cbn [fst]. now rewrite map_app. Qed.

Lemma distinct_push (acc : list Skill * gmap string string) (s : Skill)
      (reason : string) :
  NoDup (map skill_id (fst acc)) -> listed (fst acc) s = false ->
  NoDup (map skill_id (fst (push s reason acc))).
Proof.
  intros H Hl. rewrite push_ids. apply NoDup_app. split; [exact H |].
  split; [| apply NoDup_singleton].
  intros x Hx Hs. apply list_elem_of_singleton in Hs as ->.
  apply listed_spec in Hx. congruence.
Qed.

(** One candidate: nothing is listed twice afterwards, and only the
    candidate was added. *)
Lemma distinct_consider (content : string) (words : list string)
      (acc : list Skill * gmap string string) (s : Skill) :
  NoDup (map skill_id (fst acc)) -> listed (fst acc) s = false ->
  NoDup (map skill_id (fst (consider content words acc s)))
  /\ forall x, listed (fst (consider content words acc s)) x = true ->
               listed (fst acc) x = true \/ skill_id x = skill_id s.
Proof.
  intros H Hl. unfold consider.
  set (acc1 := match List.filter _ words with [] => acc | _ :: _ => _ end).
  assert (H1 : NoDup (map skill_id (fst acc1))
               /\ forall x, listed (fst acc1) x = true ->
                            listed (fst acc) x = true \/ skill_id x = skill_id s).
  { subst acc1. destruct (List.filter _ words); [split; [exact H | auto] |].
    split; [now apply distinct_push |].
    intros x Hx. apply listed_spec in Hx. rewrite push_ids in Hx.
    apply elem_of_app in Hx as [Hx | Hx].
    - left. now apply listed_spec.
    - right. now apply list_elem_of_singleton in Hx. }
  destruct H1 as [H1 H2].
  destruct (includes _ _ && negb (listed (fst acc1) s)) eqn:Hc;
    [| split; assumption].
  apply andb_true_iff in Hc as [_ Hc]. apply negb_true_iff in Hc.
  split; [now apply distinct_push |].
  intros x Hx. apply listed_spec in Hx. rewrite push_ids in Hx.
  apply elem_of_app in Hx as [Hx | Hx].
  - apply H2. now apply listed_spec.
  - right. now apply list_elem_of_singleton in Hx.
Qed.

Lemma distinct_considers (content : string) (words : list string)
      (l : list Skill) :
  NoDup (map skill_id l) ->
  forall acc,
    NoDup (map skill_id (fst acc)) ->
    (forall s, s ∈ l -> listed (fst acc) s = false) ->
    NoDup (map skill_id (fst (fold_left (consider content words) l acc))).
Proof.
  induction l as [|s l IH]; intros Hl acc H Hn; [exact H |].
  cbn [map] in Hl. apply NoDup_cons in Hl as [Hs Hl]. cbn [fold_left].
  destruct (distinct_consider content words acc s H) as [H1 H2].
  { apply Hn. left. }
  apply IH; [exact Hl | exact H1 |].
  intros x Hx. destruct (listed _ x) eqn:Hx'; [| reflexivity].
  exfalso. apply H2 in Hx' as [Hx' | Hx'].
  - rewrite Hn in Hx'; [discriminate Hx' | now right].
  - apply Hs. rewrite <- Hx'. apply list_elem_of_In, in_map.
    now apply list_elem_of_In.
Qed.

Lemma distinct_recalls (l : list string) :
  forall acc,
    NoDup (map skill_id (fst acc)) ->
    NoDup (map skill_id (fst (fold_left (recall r) l acc))).
Proof.
  induction l as [|id l IH]; intros acc H; [exact H |].
  cbn [fold_left]. apply IH. unfold recall.
  destruct (getSkill r id) as [s|]; [| exact H].
  destruct (negb (listed (fst acc) s)) eqn:Hl; [| exact H].
  apply negb_true_iff in Hl. now apply distinct_push.
Qed.

Lemma occurs_here (x : string) : occurs x x.
Proof. exists "", "". cbn. now rewrite app_empty_r. Qed.

Lemma occurs_app_l (s t x : string) : occurs s x -> occurs (s +:+ t) x.
Proof.
  intros (a & c & ->). exists a, (c +:+ t). now rewrite !app_assoc_s.
Qed.

Lemma occurs_app_r (s t x : string) : occurs t x -> occurs (s +:+ t) x.
Proof.
  intros (a & c & ->). exists (s +:+ a), c. now rewrite !app_assoc_s.
Qed.

Lemma occurs_concat (ts : list string) (t x : string) :
  t ∈ ts -> occurs t x -> occurs (String.concat "" ts) x.
Proof.
  intros Ht Hx. induction ts as [|t' ts IH].
  - now apply elem_of_nil in Ht.
  - rewrite concat_cons. apply elem_of_cons in Ht as [<- | Ht].
    + now apply occurs_app_l.
    + now apply occurs_app_r, IH.
Qed.

Lemma indexOf_from_found (b c a : string) :
  forall i, 0 <= i -> 0 <= indexOf_from (a +:+ (b +:+ c)) b i.
Proof.
  induction a as [|x a IH]; intros i Hi.
  - rewrite app_nil_s. now rewrite indexOf_from_here by apply startsWith_app.
  - rewrite app_cons. cbn [indexOf_from].
    destruct (startsWith _ b); [exact Hi |]. apply IH. lia.
Qed.

Lemma occurs_includes (s x : string) : occurs s x -> includes s x = true.
Proof.
  intros (a & c & ->). unfold includes, indexOf.
  pose proof (indexOf_from_found x c a 0 ltac:(lia)) as H.
  apply negb_true_iff, Z.eqb_neq. lia.
Qed.

Lemma prompt_instructions (activated : list Skill)
      (manifest : list SkillManifestEntry) (s : Skill) :
  s ∈ activated ->
  occurs (buildSkillsPrompt activated manifest) (skill_instructions s).
Proof.
  intros Hs.
  assert (Hc : occurs (String.concat "" (map skill_section activated))
                      (skill_instructions s)).
  { apply (occurs_concat _ (skill_section s)).
    - apply list_elem_of_In, in_map. now apply list_elem_of_In.
    - unfold skill_section. do 4 apply occurs_app_r.
      apply occurs_app_l, occurs_here. }
  unfold buildSkillsPrompt.
  destruct activated as [|s0 rest]; [now apply elem_of_nil in Hs |].
  destruct manifest; do 12 apply occurs_app_r; exact Hc.
Qed.

Lemma prompt_description (activated : list Skill)
      (manifest : list SkillManifestEntry) (e : SkillManifestEntry) :
  e ∈ manifest ->
  occurs (buildSkillsPrompt activated manifest) (entry_description e).
Proof.
  intros He.
  assert (Hc : occurs (String.concat "" (map manifest_line manifest))
                      (entry_description e)).
  { apply (occurs_concat _ (manifest_line e)).
    - apply list_elem_of_In, in_map. now apply list_elem_of_In.
    - unfold manifest_line. do 3 apply occurs_app_r.
      apply occurs_app_l, occurs_here. }
  unfold buildSkillsPrompt.
  destruct manifest as [|e0 rest]; [now apply elem_of_nil in He |].
  destruct activated; do 5 apply occurs_app_r; apply occurs_app_l;
    do 3 apply occurs_app_r; apply occurs_app_l; exact Hc.
Qed.


Lemma default_settings (env : Env) (shared : list string)
      (userId sessionId : option string) :
  without_settings env userId sessionId = true ->
  getSkillSettings env shared userId sessionId
  = inr (DEFAULT_SKILL_SETTINGS shared, true).
Proof.
  unfold without_settings, getSkillSettings.
  destruct (Generate.truthy userId); cbn [negb andb].
  - intros H. apply andb_true_iff in H as [H1 H2].
    apply bool_decide_eq_true in H1. apply bool_decide_eq_true in H2.
    now rewrite H1, H2.
  - destruct (Generate.truthy sessionId); cbn [negb]; [| reflexivity].
    intros H. apply bool_decide_eq_true in H. now rewrite H.
Qed.

Lemma enableSkill_shared (env : Env) (shared : list string)
      (skillId : string) (userId sessionId : option string) :
  without_settings env userId sessionId = true ->
  JS.includes shared skillId = false ->
  fst (fst (enableSkill env shared skillId userId sessionId))
  = shared ++ [skillId].
Proof.
  intros H Hn. unfold enableSkill. rewrite (default_settings _ _ _ _ H).
  cbn [DEFAULT_SKILL_SETTINGS enabledSkills]. rewrite Hn. reflexivity.
Qed.

Lemma includes_spec (l : list string) (x : string) :
  JS.includes l x = true <-> x ∈ l.
Proof.
  unfold JS.includes. rewrite existsb_exists. split.
  - intros (y & Hy & He). apply String.eqb_eq in He as ->.
    now apply list_elem_of_In.
  - intros H. exists x. split; [now apply list_elem_of_In |].
    apply String.eqb_refl.
Qed.

(** What [enhancePrepromptWithSkills] returns: the preprompt as it is,
    or the preprompt followed by the skills prompt of a detection. *)
Lemma enhance_cases (env : Env) (shared : list string)
      (preprompt : option string) (convId : JS.Key) (convModel : string)
      (messages : list Msg) (userId sessionId : option string)
      (enhanced : string) (activated : list Skill) :
  enhancePrepromptWithSkills env shared preprompt convId convModel messages
                             userId sessionId
  = inr (enhanced, activated) ->
  (enhanced = default "" preprompt /\ activated = [])
  \/ exists settings aliased lastMessage,
       getSkillSettings env shared userId sessionId = inr (settings, aliased)
       /\ lastUserMessage messages = Some lastMessage
       /\ activated
          = activatedSkills
              (detectSkillsForActivation
                 (registry env)
                 (mkActivation (m_content lastMessage) (Some convId) convModel
                               (Some (getPreviouslyActivatedSkills messages)))
                 settings)
       /\ enhanced
          = default "" preprompt
              +:+ buildSkillsPrompt
                    activated
                    (List.filter
                       (fun m => JS.includes (enabledSkills settings)
                                             (entry_id m))
                       (getManifest (registry env))).
Proof.
  unfold enhancePrepromptWithSkills.
  destruct (negb (String.eqb _ _)); [intros [= <- <-]; now left |].
  destruct (negb (isInitialized _)); [intros [= <- <-]; now left |].
  destruct (getSkillSettings env shared userId sessionId)
    as [msg | [settings aliased]]; [discriminate |].
  destruct (enabledSkills settings) as [|e es] eqn:He;
    [intros [= <- <-]; now left |].
  destruct (lastUserMessage messages) as [lastMessage|];
    [| intros [= <- <-]; now left].
  intros [= <- <-]. right. exists settings, aliased, lastMessage.
  rewrite He. repeat split; reflexivity.
Qed.

Lemma manifest_entry (rg : SkillRegistry) (enabled : list string) (s : Skill) :
  s ∈ skills rg -> skill_enabled s = true -> skill_id s ∈ enabled ->
  mkEntry (skill_id s) (skill_name s) (skill_description s) (skill_tags s)
  ∈ List.filter (fun m => JS.includes enabled (entry_id m)) (getManifest rg).
Proof.
  intros Hs He Hi. apply list_elem_of_In, List.filter_In. split.
  - unfold getManifest, getEnabledSkills.
    apply (in_map (fun s => mkEntry (skill_id s) (skill_name s)
                                 (skill_description s) (skill_tags s))).
    apply List.filter_In. split; [now apply list_elem_of_In | exact He].
  - cbn [entry_id]. now apply includes_spec.
Qed.

End SkillFacts.

(** X26. Every skill that [detectSkillsForActivation] activates is the
    skill the registry holds under its id, its id is one of the ids the
    detection looked at (the override of the conversation or else the
    skills the user enabled) or was activated before, and a reason is
    recorded under its id. *)
Theorem activated_skills_are_known (r : Skills.SkillRegistry)
        (context : Skills.SkillActivationContext)
        (settings : Skills.SkillSettings) (s : Skills.Skill) :
  In s (Skills.activatedSkills
          (Skills.detectSkillsForActivation r context settings)) ->
  Skills.getSkill r (Skills.skill_id s) = Some s
  /\ (In (Skills.skill_id s) (Skills.relevantSkillIds context settings)
      \/ In (Skills.skill_id s)
            (default [] (Skills.previouslyActivatedSkills context)))
  /\ is_Some (Skills.activationReasons
                (Skills.detectSkillsForActivation r context settings)
                !! Skills.skill_id s).
Proof.
  intros H. apply list_elem_of_In in H.
  destruct (detect_known r context settings s H) as (H1 & H2 & H3).
  split; [exact H1 |]. split; [| exact H3].
  apply elem_of_app in H2 as [H2 | H2]; [left | right];
    now apply list_elem_of_In.
Qed.

Lemma activated_skills_are_known_witness :
  In Samples.pdf
     (Skills.activatedSkills
        (Skills.detectSkillsForActivation
           Samples.skill_registry (Samples.question "merge two pdf files")
           (Skills.mkSettings ["pdf-tools"; "charts"] ∅)))
  /\ Skills.getSkill Samples.skill_registry "pdf-tools" = Some Samples.pdf.
Proof.
  assert (H : In Samples.pdf
                 (Skills.activatedSkills
                    (Skills.detectSkillsForActivation
                       Samples.skill_registry
                       (Samples.question "merge two pdf files")
                       (Skills.mkSettings ["pdf-tools"; "charts"] ∅)))).
  { vm_compute. left. reflexivity. }
  split; [exact H |].
  exact (proj1 (activated_skills_are_known _ _ _ _ H)).
Defined.

(** X27. A message whose content is empty, or starts or ends with white
    space, activates every registered skill among the ids the detection
    looks at, whatever the message says: splitting the content yields an
    empty word, and the empty word is part of every keyword. *)
Theorem blank_edged_message_activates_every_candidate
        (r : Skills.SkillRegistry) (context : Skills.SkillActivationContext)
        (settings : Skills.SkillSettings) (id : string) (s : Skills.Skill) :
  Skills.blank_edge (Skills.messageContent context) = true ->
  In id (Skills.relevantSkillIds context settings) ->
  Skills.getSkill r id = Some s ->
  In s (Skills.activatedSkills
          (Skills.detectSkillsForActivation r context settings)).
Proof.
  intros Hb Hid Hs. apply list_elem_of_In.
  apply (detect_blank r context settings id s Hb); [| exact Hs].
  now apply list_elem_of_In.
Qed.

Lemma blank_edged_message_activates_every_candidate_witness :
  Skills.activatedSkills
    (Skills.detectSkillsForActivation
       Samples.skill_registry (Samples.question "hello")
       (Skills.mkSettings ["charts"] ∅)) = []
  /\ In Samples.charts
        (Skills.activatedSkills
           (Skills.detectSkillsForActivation
              Samples.skill_registry (Samples.question "hello ")
              (Skills.mkSettings ["charts"] ∅))).
Proof.
  split; [reflexivity |].
  apply (blank_edged_message_activates_every_candidate
           Samples.skill_registry (Samples.question "hello ")
           (Skills.mkSettings ["charts"] ∅) "charts" Samples.charts).
  - reflexivity.
  - left. reflexivity.
  - reflexivity.
Defined.

(** X28. When the ids the detection looks at are pairwise distinct, no
    skill is activated twice: the ids of the activated skills are
    pairwise distinct, also after the skills activated before have been
    added. *)
Theorem activated_skills_are_distinct (r : Skills.SkillRegistry)
        (context : Skills.SkillActivationContext)
        (settings : Skills.SkillSettings) :
  NoDup (Skills.relevantSkillIds context settings) ->
  NoDup (map Skills.skill_id
             (Skills.activatedSkills
                (Skills.detectSkillsForActivation r context settings))).
Proof.
  intros H. unfold Skills.detectSkillsForActivation.
  cbn [Skills.activatedSkills].
  apply distinct_recalls, distinct_considers.
  - now apply candidate_ids.
  - constructor.
  - reflexivity.
Qed.

Lemma activated_skills_are_distinct_witness :
  NoDup (map Skills.skill_id
             (Skills.activatedSkills
                (Skills.detectSkillsForActivation
                   Samples.skill_registry
                   (Skills.mkActivation "plot a pdf-tools chart"
                                        (Some Samples.conversation_1)
                                        "model" (Some ["charts"; "pdf-tools"]))
                   (Skills.mkSettings ["pdf-tools"; "charts"] ∅)))).
Proof.
  apply activated_skills_are_distinct.
  apply (bool_decide_unpack _). vm_compute. exact I.
Defined.

(** X29. Whenever [enhancePrepromptWithSkills] returns, the enhanced
    preprompt starts with the preprompt of the conversation (the empty
    string when there is none), every skill it reports as activated is
    the one the registry holds under its id, and the instructions of
    every activated skill occur in the enhanced preprompt. *)
Theorem enhanced_preprompt_carries_activated_skills
        (env : Skills.Env) (shared : list string) (preprompt : option string)
        (convId : JS.Key) (convModel : string) (messages : list Skills.Msg)
        (userId sessionId : option string)
        (enhanced : string) (activated : list Skills.Skill) :
  Skills.enhancePrepromptWithSkills env shared preprompt convId convModel
                                    messages userId sessionId
  = inr (enhanced, activated) ->
  JS.startsWith enhanced (default "" preprompt) = true
  /\ forall s,
       In s activated ->
       Skills.getSkill (Skills.registry env) (Skills.skill_id s) = Some s
       /\ Skills.includes enhanced (Skills.skill_instructions s) = true.
Proof.
  intros H.
  apply enhance_cases in H
    as [[-> ->] | (settings & aliased & lastMessage & _ & _ & Ha & ->)].
  - split; [apply startsWith_refl | intros s []].
  - split; [apply startsWith_app |]. intros s Hs. split.
    + rewrite Ha in Hs. apply list_elem_of_In in Hs.
      now destruct (detect_known _ _ _ s Hs) as (H1 & _).
    + apply occurs_includes, occurs_app_r, prompt_instructions.
      now apply list_elem_of_In.
Qed.

Lemma enhanced_preprompt_carries_activated_skills_witness :
  exists enhanced,
    Skills.enhancePrepromptWithSkills
      Samples.skills_env [] (Some "Be brief.") Samples.conversation_1 "model"
      [Skills.mkMsg "user" "merge two pdf files" None] None (Some "s1")
    = inr (enhanced, [Samples.pdf])
    /\ JS.startsWith enhanced "Be brief." = true
    /\ Skills.includes enhanced "Use the PDF toolkit." = true.
Proof.
  destruct (Skills.enhancePrepromptWithSkills
              Samples.skills_env [] (Some "Be brief.") Samples.conversation_1 "model"
              [Skills.mkMsg "user" "merge two pdf files" None] None (Some "s1"))
    as [msg | [enhanced activated]] eqn:H; [vm_compute in H; discriminate H |].
  assert (Ha : activated = [Samples.pdf]).
  { vm_compute in H. now injection H as _ <-. }
  subst activated. exists enhanced. split; [reflexivity |].
  pose proof (enhanced_preprompt_carries_activated_skills _ _ _ _ _ _ _ _ _ _ H)
    as [H1 H2].
  split; [exact H1 |]. exact (proj2 (H2 Samples.pdf (or_introl eq_refl))).
Defined.

(** X30. [enableSkill] for a user or session without stored settings
    pushes the skill id into the array of [DEFAULT_SKILL_SETTINGS]
    itself, whether or not saving succeeds.  From then on everybody
    without stored settings has the skill enabled: [getSkillSettings]
    answers with that array, and with skills switched on, the registry
    initialised and a user message in the conversation,
    [enhancePrepromptWithSkills] puts the description of the skill, if
    it is registered and enabled, into their preprompt. *)
Theorem enableSkill_changes_the_shared_default
        (env : Skills.Env) (shared : list string) (skillId : string)
        (userId sessionId : option string) :
  Skills.without_settings env userId sessionId = true ->
  JS.includes shared skillId = false ->
  let shared' :=
    fst (fst (Skills.enableSkill env shared skillId userId sessionId)) in
  shared' = shared ++ [skillId]
  /\ forall (env' : Skills.Env) (userId' sessionId' : option string),
       Skills.without_settings env' userId' sessionId' = true ->
       Skills.getSkillSettings env' shared' userId' sessionId'
       = inr (Skills.mkSettings (shared ++ [skillId]) ∅, true)
       /\ forall (s : Skills.Skill) (preprompt : option string)
                 (convId : JS.Key) (convModel : string) (messages : list Skills.Msg),
            Skills.ENABLE_SKILLS env' = "true" ->
            Skills.isInitialized (Skills.registry env') = true ->
            Skills.lastUserMessage messages <> None ->
            In s (Skills.skills (Skills.registry env')) ->
            Skills.skill_id s = skillId ->
            Skills.skill_enabled s = true ->
            exists enhanced activated,
              Skills.enhancePrepromptWithSkills
                env' shared' preprompt convId convModel messages
                userId' sessionId'
              = inr (enhanced, activated)
              /\ Skills.includes enhanced (Skills.skill_description s) = true.
Proof.
  intros H Hn shared'. subst shared'. rewrite (enableSkill_shared _ _ _ _ _ H Hn).
  split; [reflexivity |]. intros env' userId' sessionId' H'.
  pose proof (default_settings env' (shared ++ [skillId]) _ _ H') as Hd.
  split; [exact Hd |].
  intros s preprompt convId convModel messages He Hi Hl Hs Hid Hen.
  unfold Skills.enhancePrepromptWithSkills.
  rewrite He, Hi, Hd. cbn [negb String.eqb].
  change (String.eqb "true" "true") with true. cbn [negb].
  cbn [Skills.DEFAULT_SKILL_SETTINGS Skills.enabledSkills].
  destruct (shared ++ [skillId]) as [|e es] eqn:Hsh.
  { now destruct shared. }
  destruct (Skills.lastUserMessage messages) as [lastMessage|];
    [| now destruct Hl].
  eexists _, _. split; [reflexivity |].
  apply occurs_includes, occurs_app_r.
  apply (prompt_description _ _
           (Skills.mkEntry (Skills.skill_id s) (Skills.skill_name s)
                           (Skills.skill_description s) (Skills.skill_tags s))).
  apply manifest_entry; [now apply list_elem_of_In | exact Hen |].
  rewrite Hid, <- Hsh. apply elem_of_app. right.
  now apply list_elem_of_singleton.
Qed.

Lemma enableSkill_changes_the_shared_default_witness :
  Skills.enhancePrepromptWithSkills
    Samples.skills_env [] None Samples.conversation_2 "model"
    [Skills.mkMsg "user" "hello" None] None (Some "s3")
  = inr ("", [])
  /\ fst (fst (Skills.enableSkill Samples.skills_env [] "charts" None
                                  (Some "s2")))
     = ["charts"]
  /\ exists enhanced activated,
       Skills.enhancePrepromptWithSkills
         Samples.skills_env
         (fst (fst (Skills.enableSkill Samples.skills_env [] "charts" None
                                       (Some "s2"))))
         None Samples.conversation_2 "model" [Skills.mkMsg "user" "hello" None] None (Some "s3")
       = inr (enhanced, activated)
       /\ Skills.includes enhanced "Draw diagrams" = true.
Proof.
  split; [reflexivity |].
  pose proof (enableSkill_changes_the_shared_default
                Samples.skills_env [] "charts" None (Some "s2")
                eq_refl eq_refl) as [H1 H2].
  split; [exact H1 |].
  destruct (H2 Samples.skills_env None (Some "s3") eq_refl) as [_ H3].
  apply (H3 Samples.charts None Samples.conversation_2 "model"
            [Skills.mkMsg "user" "hello" None]).
  - reflexivity.
  - reflexivity.
  - discriminate.
  - right. left. reflexivity.
  - reflexivity.
  - reflexivity.
Defined.
